(** * HyperBun: static path resolution, response normalisation,
      method-table dispatch and the JSX setup checks

    A shallow embedding of [packages/hyperbun/src/core.ts] and of the
    setup and serialisation helpers of [packages/hyperbun/src/jsx.tsx].

    JavaScript strings are modelled as [string] (byte sequences), objects
    enumerated with [Object.keys]/[Object.entries] as association lists in
    enumeration order, [Map] and [Headers] as [gmap], the insertion-ordered
    [Set] of allowed verbs as a duplicate-free list, and exceptions as an
    explicit [Throw] outcome.  Awaiting a promise is read as taking its
    result, and what is written to the console is left out.  What belongs
    to the host (the [path] module, [Response], [Headers], the router of
    [Bun.serve], the file system, the bundler, React) is either modelled
    after its documented behaviour or kept as a field of [HostRuntime]. *)

From Stdlib Require Import String Ascii List Bool Arith Lia DecimalString.
From stdpp Require Import base option gmap strings list fin_maps.
Import ListNotations.

Local Open Scope string_scope.
Local Open Scope list_scope.

(** ** JavaScript string primitives *)

Module Js.

(** [s.startsWith(p)] *)
Fixpoint startsWith (p s : string) : bool :=
  match p, s with
  | EmptyString, _ => true
  | String a p', String b s' => Ascii.eqb a b && startsWith p' s'
  | String _ _, EmptyString => false
  end.

(** [s.split(sep)] for a one-character separator: the pieces between
    separators; an empty input gives one empty piece. *)
Fixpoint split (sep : ascii) (s : string) : list string :=
  match s with
  | EmptyString => [EmptyString]
  | String c s' =>
      if Ascii.eqb c sep then EmptyString :: split sep s'
      else match split sep s' with
           | [] => [String c EmptyString]
           | piece :: pieces => String c piece :: pieces
           end
  end.

(** [parts.join(sep)] *)
Fixpoint join (sep : string) (parts : list string) : string :=
  match parts with
  | [] => EmptyString
  | [x] => x
  | x :: rest => x +:+ sep +:+ join sep rest
  end.

(** [arr.pop()] as used for its effect on the array: an empty array stays empty. *)
Definition pop (arr : list string) : list string := removelast arr.

(** [arr.push(x)] *)
Definition push (arr : list string) (x : string) : list string := arr ++ [x].

(** Does the byte [c] occur in [s]? *)
Fixpoint has_char (c : ascii) (s : string) : bool :=
  match s with
  | EmptyString => false
  | String a s' => Ascii.eqb a c || has_char c s'
  end.

(** [s.includes(p)] *)
Fixpoint includes (p s : string) : bool :=
  startsWith p s ||
  match s with
  | EmptyString => false
  | String _ s' => includes p s'
  end.

(** [s.endsWith("/")] *)
Fixpoint endsWith_slash (s : string) : bool :=
  match s with
  | EmptyString => false
  | String c EmptyString => Ascii.eqb c "/"
  | String _ s' => endsWith_slash s'
  end.

(** [s.slice(n)] *)
Fixpoint slice_from (n : nat) (s : string) : string :=
  match n, s with
  | O, _ => s
  | S n', String _ s' => slice_from n' s'
  | S _, EmptyString => EmptyString
  end.

(** [s.slice(0, -1)] *)
Fixpoint slice_drop_last (s : string) : string :=
  match s with
  | EmptyString => EmptyString
  | String _ EmptyString => EmptyString
  | String c s' => String c (slice_drop_last s')
  end.

Fixpoint map_chars (f : ascii -> ascii) (s : string) : string :=
  match s with
  | EmptyString => EmptyString
  | String c s' => String (f c) (map_chars f s')
  end.

Definition upper_char (c : ascii) : ascii :=
  let n := nat_of_ascii c in
  if (97 <=? n)%nat && (n <=? 122)%nat then ascii_of_nat (n - 32) else c.

Definition lower_char (c : ascii) : ascii :=
  let n := nat_of_ascii c in
  if (65 <=? n)%nat && (n <=? 90)%nat then ascii_of_nat (n + 32) else c.

(** [s.toUpperCase()] and [s.toLowerCase()] on ASCII letters; other bytes
    are kept. *)
Definition toUpperCase (s : string) : string := map_chars upper_char s.
Definition toLowerCase (s : string) : string := map_chars lower_char s.

(** [s.replace(/pat/g, rep)] for a literal, non-empty pattern and a
    replacement without [$]: matches are taken leftmost first and do not
    overlap; [skip] counts the bytes of the current match still to drop. *)
Fixpoint replace_go (pat rep : string) (skip : nat) (s : string) : string :=
  match s with
  | EmptyString => EmptyString
  | String c s' =>
      match skip with
      | S k => replace_go pat rep k s'
      | O =>
          if startsWith pat s
          then rep +:+ replace_go pat rep (String.length pat - 1) s'
          else String c (replace_go pat rep 0 s')
      end
  end.

Definition replaceAll (pat rep s : string) : string := replace_go pat rep 0 s.

(** The double-quote character, for messages that quote a name. *)
Definition dquote : string := String (ascii_of_nat 34) EmptyString.

End Js.

(** ** The POSIX flavour of the runtime's [path] module

    [path.resolve], [path.relative] and [path.isAbsolute] belong to the host
    runtime.  They are modelled after the POSIX implementation, read at the
    level of the segments between separators; [cwd] stands for
    [process.cwd()]. *)

Module Path.

Definition sep : string := "/".

Definition isAbsolute (p : string) : bool := Js.startsWith "/" p.

(** One step of [normalizeString]: empty and [.] segments vanish, [..]
    removes the previous segment unless there is none (or it is itself a
    kept [..]), in which case it is kept only when [allowAboveRoot]. *)
Definition normalize_step (allowAboveRoot : bool) (res : list string) (segment : string)
  : list string :=
  if String.eqb segment "" || String.eqb segment "." then res
  else if String.eqb segment ".." then
    match last res with
    | Some last_segment =>
        if negb (String.eqb last_segment "..") then Js.pop res
        else if allowAboveRoot then Js.push res ".." else res
    | None => if allowAboveRoot then Js.push res ".." else res
    end
  else Js.push res segment.

Definition normalize_segments (allowAboveRoot : bool) (segments : list string) : list string :=
  fold_left (normalize_step allowAboveRoot) segments [].

Definition normalizeString (p : string) (allowAboveRoot : bool) : string :=
  Js.join "/" (normalize_segments allowAboveRoot (Js.split "/" p)).

(** The right-to-left loop of [path.resolve]: [paths] lists the arguments
    from the last to the first, followed by the working directory. *)
Fixpoint resolve_loop (paths : list string) (resolvedPath : string) : string * bool :=
  match paths with
  | [] => (resolvedPath, false)
  | p :: rest =>
      if String.eqb p "" then resolve_loop rest resolvedPath
      else
        let resolvedPath' := p +:+ "/" +:+ resolvedPath in
        if isAbsolute p then (resolvedPath', true) else resolve_loop rest resolvedPath'
  end.

Definition resolve (cwd : string) (args : list string) : string :=
  let '(resolvedPath, resolvedAbsolute) := resolve_loop (rev args ++ [cwd]) "" in
  let normalized := normalizeString resolvedPath (negb resolvedAbsolute) in
  if resolvedAbsolute then "/" +:+ normalized
  else if String.eqb normalized "" then "." else normalized.

(** The non-empty pieces of a path. *)
Definition segments (p : string) : list string :=
  List.filter (fun s => negb (String.eqb s "")) (Js.split "/" p).

(** A segment of a normal path: not empty, not [.] or [..], without separator. *)
Definition proper_segment (s : string) : bool :=
  negb (String.eqb s "") && negb (String.eqb s ".") && negb (String.eqb s "..")
  && negb (Js.has_char "/" s).

(** The absolute path with the given segments. *)
Definition render (segs : list string) : string := "/" +:+ Js.join "/" segs.

(** An absolute path in normal form: a separator before each of its
    proper segments and nothing else. *)
Definition normal (p : string) : bool :=
  String.eqb p (render (segments p)) && forallb proper_segment (segments p).

Fixpoint is_prefix (l1 l2 : list string) : bool :=
  match l1, l2 with
  | [], _ => true
  | x :: l1', y :: l2' => String.eqb x y && is_prefix l1' l2'
  | _ :: _, [] => false
  end.

(** [target] is lexically contained in [root]: both are normal absolute
    paths and the segments of [root] start those of [target]. *)
Definition lexically_within (root target : string) : bool :=
  normal root && normal target && is_prefix (segments root) (segments target).

(** Drop the longest common prefix of two segment lists. *)
Fixpoint strip_common (from to : list string) : list string * list string :=
  match from, to with
  | f :: from', t :: to' =>
      if String.eqb f t then strip_common from' to' else (from, to)
  | _, _ => (from, to)
  end.

(** [path.relative(from, to)]: one [..] per segment of [from] below the
    common ancestor, then what is left of [to]. *)
Definition relative (cwd from to : string) : string :=
  if String.eqb from to then ""
  else
    let from' := resolve cwd [from] in
    let to' := resolve cwd [to] in
    if String.eqb from' to' then ""
    else
      let '(up, down) := strip_common (segments from') (segments to') in
      Js.join "/" (repeat ".." (length up) ++ down).

End Path.

(** ** Exceptions *)

Inductive JsError : Type :=
| TypeError (message : string)
| Error (message : string)
| URIError (message : string).

(** The outcome of a call that may throw. *)
Inductive Outcome (A : Type) : Type :=
| Return (a : A)
| Throw (e : JsError).
Arguments Return {A} a.
Arguments Throw {A} e.

#[global] Instance Outcome_ret : MRet Outcome := fun A a => Return a.
#[global] Instance Outcome_bind : MBind Outcome := fun A B k m =>
  match m with
  | Return a => k a
  | Throw e => Throw e
  end.

(** ** Headers, bodies and responses *)

(** A [HeadersInit] given as a record or as an array of pairs. *)
Abbreviation HeadersInit := (list (string * string)).

(** The [Headers] class: a map from lower-cased names to values.  The
    validation and trimming of names and values, and the separate
    iteration of [Set-Cookie] values, are not modelled. *)
Module Headers.

Definition has (h : gmap string string) (name : string) : bool :=
  bool_decide (is_Some (h !! Js.toLowerCase name)).

Definition get (h : gmap string string) (name : string) : option string :=
  h !! Js.toLowerCase name.

Definition set (h : gmap string string) (name value : string) : gmap string string :=
  <[Js.toLowerCase name := value]> h.

(** [append] joins the values given to one name with a comma. *)
Definition append (h : gmap string string) (name value : string) : gmap string string :=
  match h !! Js.toLowerCase name with
  | Some old => <[Js.toLowerCase name := old +:+ ", " +:+ value]> h
  | None => <[Js.toLowerCase name := value]> h
  end.

(** [new Headers(init)] *)
Definition create (init : HeadersInit) : gmap string string :=
  fold_left (fun h '(name, value) => append h name value) init ∅.

(** [h.forEach((value, key) => f(value, key))], threading the state [f] updates. *)
Definition forEach {A} (h : gmap string string) (f : string -> string -> A -> A) (a : A) : A :=
  map_fold (fun key value acc => f value key acc) a h.

End Headers.

Inductive BinaryKind : Type := ArrayBufferKind | ViewKind | BlobKind | StreamKind.

(** A binary-like value: its kind, its bytes, and for a [Blob] its [type]
    (empty when it has none). *)
Record BinaryValue : Type := {
  binary_kind : BinaryKind;
  binary_bytes : string;
  blob_type : string;
}.

Inductive Body : Type :=
| BodyNull
| BodyText (text : string)
| BodyBinary (data : BinaryValue)
| BodyFile (path : string).

Record Response : Type := {
  status : nat;
  headers : gmap string string;
  body : Body;
}.

(** ** The host runtime

    What the code asks of Bun and of the file system.  [JsObject] stands
    for the plain data objects that [JSON.stringify] serialises; a value it
    refuses (one with a cycle, say) raises inside the runtime and has no
    counterpart here. *)

Class HostRuntime : Type := {
  (** [process.cwd()] *)
  cwd : string;
  (** [await Bun.file(p).exists()], [Bun.file(p).type] and
      [Bun.file(p).size.toString()] *)
  file_exists : string -> bool;
  file_type : string -> string;
  file_size : string -> string;
  (** [decodeURIComponent(s)]; [None] when it raises a [URIError], and the
      message of that error *)
  decodeURIComponent : string -> option string;
  uri_error_message : string -> string;
  JsNumber : Type;
  (** [String(n)] and [Math.max(0, n)] *)
  Number_toString : JsNumber -> string;
  Math_max_0 : JsNumber -> JsNumber;
  JsBigInt : Type;
  BigInt_toString : JsBigInt -> string;
  JsObject : Type;
  (** [JSON.stringify] on a data object and on a string *)
  JSON_stringify : JsObject -> string;
  JSON_stringify_string : string -> string;
  (** the content type [new Response(body)] records in its headers for
      the body it is given, when it records one, and the parameters
      [Response.json] puts after [application/json] *)
  recorded_content_type : Body -> option string;
  json_content_type_parameters : string;
  (** the router of [Bun.serve]: the pattern of the route table that serves
      a path, if any *)
  select_route : list string -> string -> option string;
  (** a React component *)
  ComponentType : Type;
}.

Section Core.
Context `{HostRuntime}.

(** [new Response(body, { status, headers })]: the status defaults to 200
    and the content type the runtime records for the body is added when
    [headers] names none. *)
Definition Response_new (b : Body) (init_status : option nat)
    (init_headers : option (gmap string string)) : Response :=
  let h := default ∅ init_headers in
  let h' := match recorded_content_type b with
            | Some ct => if Headers.has h "content-type" then h else Headers.append h "content-type" ct
            | None => h
            end in
  {| status := default 200 init_status; headers := h'; body := b |}.

(** [Response.json(data)] *)
Definition Response_json (data : JsObject) : Response :=
  {| status := 200;
     headers := Headers.create
                  [("content-type", "application/json" +:+ json_content_type_parameters)];
     body := BodyText (JSON_stringify data) |}.

(** ** Values a handler may return *)

Inductive JsValue : Type :=
| VUndefined
| VNull
| VString (s : string)
| VNumber (n : JsNumber)
| VBigInt (n : JsBigInt)
| VBoolean (b : bool)
| VResponse (r : Response)
| VBinary (data : BinaryValue)
| VObject (o : JsObject)
| VFunction (source : string)
| VSymbol (description : string).

Inductive JsType : Type :=
| TUndefined | TObject | TString | TNumber | TBigInt | TBoolean | TFunction | TSymbol.

Definition JsType_eqb (a b : JsType) : bool :=
  match a, b with
  | TUndefined, TUndefined | TObject, TObject | TString, TString | TNumber, TNumber
  | TBigInt, TBigInt | TBoolean, TBoolean | TFunction, TFunction | TSymbol, TSymbol => true
  | _, _ => false
  end.

(** [typeof v] *)
Definition typeof (v : JsValue) : JsType :=
  match v with
  | VUndefined => TUndefined
  | VNull | VResponse _ | VBinary _ | VObject _ => TObject
  | VString _ => TString
  | VNumber _ => TNumber
  | VBigInt _ => TBigInt
  | VBoolean _ => TBoolean
  | VFunction _ => TFunction
  | VSymbol _ => TSymbol
  end.

(** [v instanceof Response], with the response it then is *)
Definition as_Response (v : JsValue) : option Response :=
  match v with VResponse r => Some r | _ => None end.

(** [String(v)] *)
Definition String_of (v : JsValue) : string :=
  match v with
  | VUndefined => "undefined"
  | VNull => "null"
  | VString s => s
  | VNumber n => Number_toString n
  | VBigInt n => BigInt_toString n
  | VBoolean b => if b then "true" else "false"
  | VResponse _ => "[object Response]"
  | VBinary _ => "[object Object]"
  | VObject _ => "[object Object]"
  | VFunction source => source
  | VSymbol description => "Symbol(" +:+ description +:+ ")"
  end.

(** ** Base headers *)

Definition applyBaseHeaders (response : Response) (baseHeaders : option HeadersInit) : Response :=
  match baseHeaders with
  | None => response
  | Some init =>
      let base := Headers.create init in
      Headers.forEach base
        (fun value key response =>
           if negb (Headers.has (headers response) key)
           then {| status := status response;
                   headers := Headers.set (headers response) key value;
                   body := body response |}
           else response)
        response
  end.

(** ** Response normalisation *)

Definition isBinaryLike (value : JsValue) : option BinaryValue :=
  match value with
  | VBinary data => Some data
  | _ => None
  end.

Definition normaliseResponse (result : JsValue) (baseHeaders : option HeadersInit) : Response :=
  match as_Response result with
  | Some response => applyBaseHeaders response baseHeaders
  | None =>
    match result with
    | VUndefined | VNull =>
        let res := Response_new BodyNull (Some 204) None in
        applyBaseHeaders res baseHeaders
    | _ =>
      if JsType_eqb (typeof result) TString then
        applyBaseHeaders (Response_new (BodyText (String_of result)) None None) baseHeaders
      else if JsType_eqb (typeof result) TNumber
              || JsType_eqb (typeof result) TBoolean
              || JsType_eqb (typeof result) TBigInt then
        applyBaseHeaders (Response_new (BodyText (String_of result)) None None) baseHeaders
      else
        match isBinaryLike result with
        | Some data => applyBaseHeaders (Response_new (BodyBinary data) None None) baseHeaders
        | None =>
          match result with
          | VObject o => applyBaseHeaders (Response_json o) baseHeaders
          | _ => applyBaseHeaders (Response_new (BodyText (String_of result)) None None) baseHeaders
          end
        end
    end
  end.

(** ** Requests, contexts and handlers *)

Record Request : Type := {
  method : string;
  pathname : string;
  (** [request.params], set by the router for a matched route *)
  params : option (list (string * string));
}.

Record HyperContext : Type := {
  ctx_request : Request;
  ctx_pathname : string;
  ctx_params : list (string * string);
  ctx_locals : list (string * JsValue);
}.

(** A handler returns a value or throws; awaiting a promise is read as
    taking its result. *)
Definition Handler : Type := HyperContext -> Outcome JsValue.

(** The [onError] hook; [None] is a hook that returns nothing. *)
Definition ErrorHook : Type := JsError -> HyperContext -> Outcome (option Response).

(** A value of a method table, or the [notFound] option: a handler or a
    pre-built response. *)
Inductive Target : Type :=
| TargetHandler (handler : Handler)
| TargetResponse (response : Response).

(** A method table in the order of [Object.keys]; [None] is a key whose
    value is [undefined]. *)
Definition MethodTable : Type := list (string * option Target).

Inductive RouteEntry : Type :=
| EntryHandler (handler : Handler)
| EntryTable (table : MethodTable)
| EntryResponse (response : Response)
| EntryInvalid.

Definition RouteTable : Type := list (string * RouteEntry).

Record StaticConfig : Type := {
  dir : string;
  prefix : option string;
  index : option string;
  maxAge : option JsNumber;
}.

Definition NativeRouteHandler : Type := Request -> Outcome Response.

Definition StaticHandler : Type := Request -> option HeadersInit -> Outcome (option Response).

Record HyperServerOptions : Type := {
  routes : option RouteTable;
  static : list StaticConfig;
  notFound : option Target;
  onError : option ErrorHook;
  baseHeaders : option HeadersInit;
}.

Definition METHODS : list string :=
  ["GET"; "POST"; "PUT"; "PATCH"; "DELETE"; "OPTIONS"; "HEAD"].

Definition localsFactory : list (string * JsValue) := [].

Definition createContext (request : Request) (locals : list (string * JsValue)) : HyperContext :=
  {| ctx_request := request;
     ctx_pathname := pathname request;
     ctx_params := default [] (params request);
     ctx_locals := locals |}.

(** [applyBaseHeaders(new Response("Internal Server Error", { status: 500 }), baseHeaders)] *)
Definition internalServerError (baseHeaders : option HeadersInit) : Response :=
  applyBaseHeaders (Response_new (BodyText "Internal Server Error") (Some 500) None) baseHeaders.

(** ** The error boundary *)

Definition handleError (onError : ErrorHook) (error : JsError) (ctx : HyperContext)
    (baseHeaders : option HeadersInit) : option Response :=
  match onError error ctx with
  | Return (Some result) => Some (applyBaseHeaders result baseHeaders)
  | Return None => None
  | Throw secondary => Some (internalServerError baseHeaders)
  end.

Definition executeHandler (handler : Handler) (request : Request)
    (locals : list (string * JsValue)) (baseHeaders : option HeadersInit)
    (onError : option ErrorHook) : Response :=
  let ctx := createContext request locals in
  match handler ctx with
  | Return result => normaliseResponse result baseHeaders
  | Throw error =>
      match
        match onError with
        | Some hook => handleError hook error ctx baseHeaders
        | None => None
        end
      with
      | Some recovery => recovery
      | None => internalServerError baseHeaders
      end
  end.

(** [response.clone()] copies the response, so the stored one keeps its headers. *)
Definition cloneResponse (response : Response) (baseHeaders : option HeadersInit) : Response :=
  let cloned := response in
  applyBaseHeaders cloned baseHeaders.

Definition resolveEntry (entry : Target) (ctx : HyperContext)
    (baseHeaders : option HeadersInit) : Outcome Response :=
  match entry with
  | TargetResponse response => Return (cloneResponse response baseHeaders)
  | TargetHandler handler =>
      result ← handler ctx;
      Return (normaliseResponse result baseHeaders)
  end.

(** ** Method tables *)

Record NormalisedTable : Type := {
  methods : gmap string Target;
  allowed : list string;
}.

(** [set.add(x)] on an insertion-ordered set *)
Definition set_add (s : list string) (x : string) : list string :=
  if bool_decide (x ∈ s) then s else s ++ [x].

(** One turn of the loop of [normaliseMethodTable] over the keys. *)
Definition normalise_key (acc : NormalisedTable) (key : string) (value : option Target)
  : Outcome NormalisedTable :=
  let methodKey := Js.toUpperCase key in
  if String.eqb methodKey "ALL" then
    match value with
    | Some v => Return {| methods := <["ALL" := v]> (methods acc); allowed := allowed acc |}
    | None => Return acc
    end
  else if bool_decide (methodKey ∈ METHODS) then
    match value with
    | Some v => Return {| methods := <[methodKey := v]> (methods acc);
                          allowed := set_add (allowed acc) methodKey |}
    | None => Return acc
    end
  else Throw (TypeError ("Unsupported HTTP method key " +:+ Js.dquote +:+ key +:+ Js.dquote)).

Fixpoint normalise_keys (entry : MethodTable) (acc : NormalisedTable) : Outcome NormalisedTable :=
  match entry with
  | [] => Return acc
  | (key, value) :: rest =>
      acc' ← normalise_key acc key value;
      normalise_keys rest acc'
  end.

Definition normaliseMethodTable (entry : MethodTable) : Outcome NormalisedTable :=
  normalise_keys entry {| methods := ∅; allowed := [] |}.

(** [table.methods.get(method) ?? table.methods.get("ALL")] *)
Definition select_target (table : NormalisedTable) (method : string) : option Target :=
  match methods table !! method with
  | Some selected => Some selected
  | None => methods table !! "ALL"
  end.

(** The answer of a method table that has neither the verb nor a wildcard. *)
Definition methodNotAllowed (allowHeader : string) (baseHeaders : option HeadersInit) : Response :=
  let res := Response_new (BodyText "Method Not Allowed") (Some 405)
               (if String.eqb allowHeader "" then None
                else Some (Headers.create [("Allow", allowHeader)])) in
  applyBaseHeaders res baseHeaders.

Definition createRouteHandler (entry : RouteEntry) (pattern : string)
    (baseHeaders : option HeadersInit) (onError : option ErrorHook)
  : Outcome NativeRouteHandler :=
  match entry with
  | EntryResponse response => Return (fun _ => Return (cloneResponse response baseHeaders))
  | EntryHandler handler =>
      Return (fun request =>
                Return (executeHandler handler request localsFactory baseHeaders onError))
  | EntryTable entry =>
      table ← normaliseMethodTable entry;
      let allowHeader := Js.join ", " (allowed table) in
      Return (fun request =>
                let method := Js.toUpperCase (method request) in
                match select_target table method with
                | None => Return (methodNotAllowed allowHeader baseHeaders)
                | Some (TargetResponse selected) => Return (cloneResponse selected baseHeaders)
                | Some (TargetHandler selected) =>
                    Return (executeHandler selected request localsFactory baseHeaders onError)
                end)
  | EntryInvalid =>
      Throw (TypeError ("Unsupported route entry for pattern "
                        +:+ Js.dquote +:+ pattern +:+ Js.dquote))
  end.

(** [obj[key] = value] on an object kept in enumeration order *)
Fixpoint object_set {V} (obj : list (string * V)) (key : string) (value : V) : list (string * V) :=
  match obj with
  | [] => [(key, value)]
  | (k, v) :: rest =>
      if String.eqb k key then (k, value) :: rest else (k, v) :: object_set rest key value
  end.

(** [obj[key]] *)
Fixpoint object_get {V} (obj : list (string * V)) (key : string) : option V :=
  match obj with
  | [] => None
  | (k, v) :: rest => if String.eqb k key then Some v else object_get rest key
  end.

Fixpoint mapRoutes_loop (entries : RouteTable) (baseHeaders : option HeadersInit)
    (onError : option ErrorHook) (mapped : list (string * NativeRouteHandler))
  : Outcome (list (string * NativeRouteHandler)) :=
  match entries with
  | [] => Return mapped
  | (pattern, entry) :: rest =>
      handler ← createRouteHandler entry pattern baseHeaders onError;
      mapRoutes_loop rest baseHeaders onError (object_set mapped pattern handler)
  end.

Definition mapRoutes (routes : RouteTable) (baseHeaders : option HeadersInit)
    (onError : option ErrorHook) : Outcome (list (string * NativeRouteHandler)) :=
  mapRoutes_loop routes baseHeaders onError [].

(** ** Static path resolution *)

Definition normalise_walk (safe : list string) (segment : string) : list string :=
  if String.eqb segment "" || String.eqb segment "." then safe
  else if String.eqb segment ".." then Js.pop safe
  else Js.push safe segment.

Definition normaliseRelativePath (relative : string) : string :=
  let segments := Js.split "/" relative in
  let safe := fold_left normalise_walk segments [] in
  Js.join Path.sep safe.

Definition isWithin (root target : string) : bool :=
  let relative := Path.relative cwd root target in
  negb (Js.startsWith ".." relative) && negb (Path.isAbsolute relative).

Definition resolveStaticPath (root relative indexFile : string) : option string :=
  let safeRelative := normaliseRelativePath relative in
  let primary := Path.resolve cwd [root; safeRelative] in
  if negb (isWithin root primary) then None
  else if file_exists primary then Some primary
  else
    let withIndex := Path.resolve cwd [primary; indexFile] in
    if negb (isWithin root withIndex) then None
    else if file_exists withIndex then Some withIndex
    else None.

Definition sanitisePrefix (prefix : string) : string :=
  let prefix := if negb (Js.startsWith "/" prefix) then "/" +:+ prefix else prefix in
  if negb (Js.endsWith_slash prefix) then prefix +:+ "/" else prefix.

(** ** Static handlers *)

Definition createStaticHandler (config : StaticConfig) : StaticHandler :=
  let root := Path.resolve cwd [dir config] in
  let prefix := sanitisePrefix (default "/" (prefix config)) in
  let trimmedPrefix := if String.eqb prefix "/" then "/" else Js.slice_drop_last prefix in
  let indexFile := default "index.html" (index config) in
  let maxAge := maxAge config in
  fun request baseHeaders =>
    if negb (String.eqb (method request) "GET") && negb (String.eqb (method request) "HEAD")
    then Return None
    else
      let relative :=
        if String.eqb prefix "/" then
          Some (if (1 <? String.length (pathname request))%nat
                then Js.slice_from 1 (pathname request) else "")
        else if Js.startsWith prefix (pathname request) then
          Some (Js.slice_from (String.length prefix) (pathname request))
        else if String.eqb (pathname request) trimmedPrefix then Some ""
        else None in
      match relative with
      | None => Return None
      | Some relative =>
        match decodeURIComponent relative with
        | None => Throw (URIError (uri_error_message relative))
        | Some decoded =>
          match resolveStaticPath root decoded indexFile with
          | None => Return None
          | Some targetPath =>
            if negb (file_exists targetPath) then Return None
            else
              let headers := Headers.create (default [] baseHeaders) in
              let headers :=
                if negb (String.eqb (file_type targetPath) "")
                then Headers.set headers "Content-Type" (file_type targetPath) else headers in
              let headers :=
                match maxAge with
                | Some age =>
                    Headers.set headers "Cache-Control"
                      ("public, max-age=" +:+ Number_toString (Math_max_0 age))
                | None => headers
                end in
              let headers := Headers.set headers "Content-Length" (file_size targetPath) in
              if String.eqb (method request) "HEAD"
              then Return (Some (Response_new BodyNull (Some 200) (Some headers)))
              else Return (Some (Response_new (BodyFile targetPath) (Some 200) (Some headers)))
          end
        end
      end.

Definition buildStaticHandlers (staticDefs : list StaticConfig) : list StaticHandler :=
  map createStaticHandler staticDefs.

(** ** The server *)

(** The [for] loop of [fetchHandler]: the first static handler that
    produces a response ends it. *)
Fixpoint try_static (staticHandlers : list StaticHandler) (request : Request)
    (baseHeaders : option HeadersInit) : Outcome (option Response) :=
  match staticHandlers with
  | [] => Return None
  | handler :: rest =>
      staticResponse ← handler request baseHeaders;
      match staticResponse with
      | Some response => Return (Some response)
      | None => try_static rest request baseHeaders
      end
  end.

(** [applyBaseHeaders(new Response("Not Found", { status: 404 }), baseHeaders)] *)
Definition notFoundResponse (baseHeaders : option HeadersInit) : Response :=
  applyBaseHeaders (Response_new (BodyText "Not Found") (Some 404) None) baseHeaders.

Definition fetchHandler (staticHandlers : list StaticHandler) (notFound : option Target)
    (onError : option ErrorHook) (baseHeaders : option HeadersInit)
    (request : Request) : Outcome Response :=
  staticResponse ← try_static staticHandlers request baseHeaders;
  match staticResponse with
  | Some response => Return response
  | None =>
    match notFound with
    | Some entry =>
        let ctx := createContext request localsFactory in
        match resolveEntry entry ctx baseHeaders with
        | Return response => Return response
        | Throw error =>
            match
              match onError with
              | Some hook => handleError hook error ctx baseHeaders
              | None => None
              end
            with
            | Some recovery => Return recovery
            | None => Return (internalServerError baseHeaders)
            end
        end
    | None => Return (notFoundResponse baseHeaders)
    end
  end.

(** A running server, seen as the function from a request to its response;
    [Throw] is an exception that reaches the runtime. *)
Definition Server : Type := Request -> Outcome Response.

(** [Bun.serve({ routes, fetch })]: the runtime serves a request with the
    route its router selects and calls [fetch] only for the requests that
    no route matches. *)
Definition Bun_serve (routes : option (list (string * NativeRouteHandler)))
    (fetch : Request -> Outcome Response) : Server :=
  fun request =>
    match routes with
    | Some mapped =>
        match select_route (map fst mapped) (pathname request) with
        | Some pattern =>
            match object_get mapped pattern with
            | Some handler => handler request
            | None => fetch request
            end
        | None => fetch request
        end
    | None => fetch request
    end.

Definition createServer (options : HyperServerOptions) : Outcome Server :=
  let staticHandlers := buildStaticHandlers (static options) in
  mappedRoutes ←
    match routes options with
    | Some routes => mapped ← mapRoutes routes (baseHeaders options) (onError options);
                     Return (Some mapped)
    | None => Return None
    end;
  let fetchHandler :=
    fetchHandler staticHandlers (notFound options) (onError options) (baseHeaders options) in
  Return (Bun_serve mappedRoutes fetchHandler).

End Core.

(** ** The JSX runtime ([jsx.tsx]): setup *)

Record ComponentReference : Type := {
  modulePath : string;
  exportName : string;
}.

Section Jsx.
Context `{HostRuntime}.

(** A component given by a specifier string, by the component itself, by
    [{ module, export? }] or by [{ component, module?, export? }];
    [SpecInvalid] is any other value. *)
Inductive ComponentSpec : Type :=
| SpecString (specifier : string)
| SpecFunction (fn : ComponentType)
| SpecModule (module : string) (export : option string)
| SpecComponent (fn : ComponentType) (module : option string) (export : option string)
| SpecInvalid.

Record NormalizedComponent : Type := {
  reference : option ComponentReference;
  component : option ComponentType;
}.

Inductive Hydrate : Type :=
| HydrateBool (b : bool)
| HydrateFunction (f : HyperContext -> Outcome bool).

Inductive Title : Type :=
| TitleString (s : string)
| TitleFunction (f : HyperContext -> Outcome string).

Record JSXPage : Type := {
  page_component : ComponentSpec;
  page_title : Title;
  getProps : option (HyperContext -> Outcome (option JsObject));
  hydrate : option Hydrate;
}.

Record PrepareJSXInput : Type := {
  pages : list (string * JSXPage);
  baseDir : string;
  publicDir : string;
  publicPrefix : string;
  clientFileName : string;
  layout : option ComponentSpec;
  notFoundPage : option JSXPage;
  userStatic : list StaticConfig;
}.

Record JSXPreparationResult : Type := {
  prepared_prefix : string;
  scriptHref : string;
  styleHrefs : list string;
  descriptors : list (string * NormalizedComponent);
  bundleDescriptors : list (string * ComponentReference);
  layoutDescriptor : option NormalizedComponent;
  notFoundDescriptor : option NormalizedComponent;
  staticEntries : list StaticConfig;
}.

Definition DEFAULT_CLIENT_FILENAME : string := "hyperbun-client".
Definition NOT_FOUND_KEY : string := "__hyperbun_not_found__".

Definition parseComponentSpecifier (specifier : string) : Outcome (string * string) :=
  let parts := Js.split "#" specifier in
  let modulePath := nth 0 parts "" in
  let exportName := parts !! 1%nat in
  if String.eqb modulePath "" then
    Throw (Error ("Invalid component specifier " +:+ Js.dquote +:+ specifier +:+ Js.dquote
                  +:+ ". Expected " +:+ Js.dquote +:+ "<path>#<export>" +:+ Js.dquote
                  +:+ " or " +:+ Js.dquote +:+ "<path>" +:+ Js.dquote +:+ "."))
  else Return (modulePath, default "default" exportName).

Definition normalizeComponentSpec (spec : ComponentSpec) (baseDir : string)
  : Outcome NormalizedComponent :=
  match spec with
  | SpecFunction fn => Return {| reference := None; component := Some fn |}
  | SpecString specifier =>
      '(modulePath, exportName) ← parseComponentSpecifier specifier;
      Return {| reference := Some {| modulePath := Path.resolve cwd [baseDir; modulePath];
                                     exportName := exportName |};
                component := None |}
  | SpecComponent fn moduleValue exportValue =>
      let exportValue := default "default" exportValue in
      Return {| component := Some fn;
                reference :=
                  match moduleValue with
                  | Some moduleValue =>
                      if String.eqb moduleValue "" then None
                      else Some {| modulePath := Path.resolve cwd [baseDir; moduleValue];
                                   exportName := exportValue |}
                  | None => None
                  end |}
  | SpecModule module export =>
      let exportName := default "default" export in
      Return {| reference := Some {| modulePath := Path.resolve cwd [baseDir; module];
                                     exportName := exportName |};
                component := None |}
  | SpecInvalid =>
      Throw (TypeError "Unsupported component specification provided to HyperBun JSX server")
  end.

Fixpoint buildComponentDescriptors_loop (entries : list (string * JSXPage)) (baseDir : string)
    (descriptors : list (string * NormalizedComponent))
  : Outcome (list (string * NormalizedComponent)) :=
  match entries with
  | [] => Return descriptors
  | (route, page) :: rest =>
      descriptor ← normalizeComponentSpec (page_component page) baseDir;
      buildComponentDescriptors_loop rest baseDir (object_set descriptors route descriptor)
  end.

Definition buildComponentDescriptors (pages : list (string * JSXPage)) (baseDir : string)
  : Outcome (list (string * NormalizedComponent)) :=
  buildComponentDescriptors_loop pages baseDir [].

Definition wantsHydration (hydrate : option Hydrate) : bool :=
  match hydrate with
  | None => true
  | Some (HydrateBool b) => b
  | Some (HydrateFunction _) => true
  end.

Definition ensureHydratableCapability (route : string) (hydrate : option Hydrate)
    (descriptor : NormalizedComponent) (isNotFound : bool) : Outcome unit :=
  if wantsHydration hydrate && negb (bool_decide (is_Some (reference descriptor))) then
    let target := if isNotFound then "notFoundPage"
                  else "page " +:+ Js.dquote +:+ route +:+ Js.dquote in
    Throw (Error (target +:+ " is configured to hydrate but no module reference was provided. "
                  +:+ "Provide a module path (e.g. './entry.tsx#Component') or set hydrate to false."))
  else Return tt.

Definition normalizePrefix (prefix : string) : string :=
  let prefix := if negb (Js.startsWith "/" prefix) then "/" +:+ prefix else prefix in
  if (1 <? String.length prefix)%nat && Js.endsWith_slash prefix
  then Js.slice_drop_last prefix else prefix.

Definition mergeStatic (staticDefs : list StaticConfig) (generated : StaticConfig)
  : list StaticConfig :=
  staticDefs ++ [generated].

(** The loop of [prepareJSXEnvironment] over the descriptors. *)
Fixpoint check_pages (entries : list (string * NormalizedComponent))
    (pages : list (string * JSXPage)) (bundleDescriptors : list (string * ComponentReference))
  : Outcome (list (string * ComponentReference)) :=
  match entries with
  | [] => Return bundleDescriptors
  | (route, descriptor) :: rest =>
      match object_get pages route with
      | None => Throw (Error ("No page configuration found for route "
                              +:+ Js.dquote +:+ route +:+ Js.dquote))
      | Some page =>
          _ ← ensureHydratableCapability route (hydrate page) descriptor false;
          check_pages rest pages
            (match reference descriptor with
             | Some ref => object_set bundleDescriptors route ref
             | None => bundleDescriptors
             end)
      end
  end.

(** The layout as the test [layout ? ... : undefined] sees it: of the
    specifier strings only the empty one is falsy, functions and objects
    are truthy, and a falsy value of another kind ([null], [0]) is taken
    as no layout given, so that [SpecInvalid] is a truthy one here. *)
Definition truthy_layout (layout : option ComponentSpec) : option ComponentSpec :=
  match layout with
  | Some (SpecString specifier) => if String.eqb specifier "" then None else layout
  | _ => layout
  end.

Definition prepareJSXEnvironment (input : PrepareJSXInput) : Outcome JSXPreparationResult :=
  if (length (pages input) =? 0)%nat then
    Throw (Error "createJSXServer requires at least one page definition")
  else
    let prefix := normalizePrefix (publicPrefix input) in
    let scriptHref :=
      (if String.eqb prefix "/" then "" else prefix) +:+ "/" +:+ clientFileName input +:+ ".js" in
    descriptors ← buildComponentDescriptors (pages input) (baseDir input);
    bundleDescriptors ← check_pages descriptors (pages input) [];
    layoutDescriptor ←
      match truthy_layout (layout input) with
      | Some layout => d ← normalizeComponentSpec layout (baseDir input); Return (Some d)
      | None => Return None
      end;
    '(notFoundDescriptor, bundleDescriptors) ←
      match notFoundPage input with
      | Some notFoundPage =>
          d ← normalizeComponentSpec (page_component notFoundPage) (baseDir input);
          _ ← ensureHydratableCapability "notFound" (hydrate notFoundPage) d true;
          Return (Some d,
                  match reference d with
                  | Some ref => object_set bundleDescriptors NOT_FOUND_KEY ref
                  | None => bundleDescriptors
                  end)
      | None => Return (None, bundleDescriptors)
      end;
    let staticEntries :=
      mergeStatic (userStatic input)
        {| dir := publicDir input; prefix := Some prefix; index := None; maxAge := None |} in
    Return {| prepared_prefix := prefix;
              scriptHref := scriptHref;
              styleHrefs := [];
              descriptors := descriptors;
              bundleDescriptors := bundleDescriptors;
              layoutDescriptor := layoutDescriptor;
              notFoundDescriptor := notFoundDescriptor;
              staticEntries := staticEntries |}.

(** ** The JSX runtime: the bootstrap payload *)

Definition sanitizeScript (value : string) : string :=
  Js.replaceAll "-->" "--\>" (Js.replaceAll "</" "<\/" value).

Definition serializeProps (props : JsObject) : string :=
  Js.replaceAll "<" "\u003c" (JSON_stringify props).

Record HydrationScripts : Type := {
  (** the inner HTML of the inline script *)
  bootstrap : string;
  (** the [src] of the module script *)
  module_src : string;
}.

Definition HyperBunHydrationScripts (hydrate : bool) (route scriptPath : string)
    (serializedProps : option string) : option HydrationScripts :=
  if negb hydrate then None
  else
    let bootstrap :=
      sanitizeScript
        ("globalThis.__HYPERBUN_ROUTE__=" +:+ JSON_stringify_string route +:+ ";" +:+
         match serializedProps with
         | Some serialized =>
             if String.eqb serialized "" then ""
             else "globalThis.__HYPERBUN_PROPS__=" +:+ serialized +:+ ";"
         | None => ""
         end) in
    Some {| bootstrap := bootstrap; module_src := scriptPath |}.


End Jsx.

(** ** The JSX runtime: the server *)

Section JsxPages.
Context `{HostRuntime}.

Record PageHandlerArgs : Type := {
  arg_routeKey : string;
  arg_descriptor : NormalizedComponent;
  arg_hydrate : option Hydrate;
  arg_scriptHref : string;
  arg_styleHrefs : list string;
  arg_getProps : option (HyperContext -> Outcome (option JsObject));
  arg_getTitle : Title;
}.

Record JSXServerOptions : Type := {
  jsx_pages : list (string * JSXPage);
  jsx_baseDir : string;
  jsx_publicDir : string;
  jsx_publicPrefix : option string;
  jsx_apiRoutes : option RouteTable;
  jsx_static : list StaticConfig;
  jsx_clientFileName : option string;
  jsx_clientImports : list string;
  jsx_skipClientBuild : option bool;
  jsx_cacheDir : option string;
  jsx_notFoundPage : option JSXPage;
  jsx_layout : option ComponentSpec;
  jsx_onError : option ErrorHook;
  jsx_baseHeaders : option HeadersInit;
}.

End JsxPages.

(** What the JSX server asks of the bundler and of React: the hydration
    bundle build, the discovery of the built style sheets, and the page
    handler that renders a component inside the layout. *)
Class JsxHost `{HostRuntime} : Type := {
  (** [Bun.env.HYPERBUN_SKIP_CLIENT_BUILD === "1"] *)
  env_skip_client_build : bool;
  buildClientBundle :
    list (string * ComponentReference) -> string -> string -> string -> string -> string ->
    list string -> Outcome (list string);
  discoverClientStyleAssets : string -> string -> string -> list string;
  createPageHandler : PageHandlerArgs -> Handler;
}.

Section JsxServer.
Context `{JsxHost}.

(** [{ ...a, ...b }] *)
Definition object_spread {V} (a b : list (string * V)) : list (string * V) :=
  fold_left (fun obj '(key, value) => object_set obj key value) b a.

Fixpoint page_handlers (entries : list (string * NormalizedComponent))
    (pages : list (string * JSXPage)) (scriptHref : string) (styleHrefs : list string)
    (pageHandlers : RouteTable) : Outcome RouteTable :=
  match entries with
  | [] => Return pageHandlers
  | (route, descriptor) :: rest =>
      match object_get pages route with
      | None => Throw (Error ("No page configuration found for route "
                              +:+ Js.dquote +:+ route +:+ Js.dquote))
      | Some page =>
          page_handlers rest pages scriptHref styleHrefs
            (object_set pageHandlers route
               (EntryHandler
                  (createPageHandler
                     {| arg_routeKey := route;
                        arg_descriptor := descriptor;
                        arg_hydrate := hydrate page;
                        arg_scriptHref := scriptHref;
                        arg_styleHrefs := styleHrefs;
                        arg_getProps := getProps page;
                        arg_getTitle := page_title page |})))
      end
  end.

Definition createJSXServer (options : JSXServerOptions) : Outcome Server :=
  let publicPrefix := default "/public" (jsx_publicPrefix options) in
  let clientFileName := default DEFAULT_CLIENT_FILENAME (jsx_clientFileName options) in
  let skipClientBuild := default env_skip_client_build (jsx_skipClientBuild options) in
  let cacheDir :=
    default (Path.resolve cwd [jsx_publicDir options; ".."; ".hyperbun"]) (jsx_cacheDir options) in
  prepared ←
    prepareJSXEnvironment
      {| pages := jsx_pages options;
         baseDir := jsx_baseDir options;
         publicDir := jsx_publicDir options;
         publicPrefix := publicPrefix;
         clientFileName := clientFileName;
         layout := jsx_layout options;
         notFoundPage := jsx_notFoundPage options;
         userStatic := jsx_static options |};
  styleHrefs ←
    (if negb skipClientBuild then
       buildClientBundle (bundleDescriptors prepared) (jsx_publicDir options) cacheDir
         clientFileName (prepared_prefix prepared) (jsx_baseDir options)
         (jsx_clientImports options)
     else
       Return (discoverClientStyleAssets (jsx_publicDir options) (prepared_prefix prepared)
                 clientFileName));
  pageHandlers ←
    page_handlers (descriptors prepared) (jsx_pages options) (scriptHref prepared) styleHrefs [];
  let combinedRoutes := object_spread (default [] (jsx_apiRoutes options)) pageHandlers in
  let notFoundHandler :=
    match notFoundDescriptor prepared, jsx_notFoundPage options with
    | Some descriptor, Some notFoundPage =>
        Some (createPageHandler
                {| arg_routeKey := NOT_FOUND_KEY;
                   arg_descriptor := descriptor;
                   arg_hydrate := hydrate notFoundPage;
                   arg_scriptHref := scriptHref prepared;
                   arg_styleHrefs := styleHrefs;
                   arg_getProps := getProps notFoundPage;
                   arg_getTitle := page_title notFoundPage |})
    | _, _ => None
    end in
  createServer
    {| routes := Some combinedRoutes;
       static := staticEntries prepared;
       notFound := TargetHandler <$> notFoundHandler;
       onError := jsx_onError options;
       baseHeaders := jsx_baseHeaders options |}.

End JsxServer.

(** ** The rules as the specification words them *)

Section SpecWords.
Context `{HostRuntime}.

(** The headers of a response made from a body alone. *)
Definition implicit_headers (b : Body) : gmap string string :=
  match recorded_content_type b with
  | Some ct => {["content-type" := ct]}
  | None => ∅
  end.

Definition text_response (text : string) : Response :=
  {| status := 200; headers := implicit_headers (BodyText text); body := BodyText text |}.

(** What each kind of handler result becomes, before the base headers are
    merged: a response is kept; [null] and [undefined] give an empty 204;
    a string gives a text body; a number, a boolean or a bigint gives its
    printed form as a text body; a binary-like value is the body as it is,
    with no header of the normaliser's; any other object gives its JSON
    text with content type [application/json]. *)
Definition normalised_by_variant (result : JsValue) : Response :=
  match result with
  | VResponse response => response
  | VNull | VUndefined =>
      {| status := 204; headers := implicit_headers BodyNull; body := BodyNull |}
  | VString s => text_response s
  | VNumber n => text_response (Number_toString n)
  | VBigInt n => text_response (BigInt_toString n)
  | VBoolean b => text_response (if b then "true" else "false")
  | VBinary data =>
      {| status := 200; headers := implicit_headers (BodyBinary data); body := BodyBinary data |}
  | VObject o =>
      {| status := 200;
         headers := {["content-type" := "application/json" +:+ json_content_type_parameters]};
         body := BodyText (JSON_stringify o) |}
  | VFunction source => text_response source
  | VSymbol description => text_response ("Symbol(" +:+ description +:+ ")")
  end.

End SpecWords.

(** ** Words of the specification used in the statements *)

(** The [Headers] object of a base-header configuration. *)
Definition base_headers (baseHeaders : option HeadersInit) : gmap string string :=
  match baseHeaders with
  | Some init => Headers.create init
  | None => ∅
  end.



Definition proper (s : string) : Prop := Path.proper_segment s = true.

Section ErrorWords.
Context `{HostRuntime}.


End ErrorWords.

Section DispatchWords.
Context `{HostRuntime}.

(** A key a method table may have: a verb of [METHODS] or the wildcard,
    in any letter case. *)
Definition recognised_key (key : string) : bool :=
  String.eqb (Js.toUpperCase key) "ALL" || bool_decide (Js.toUpperCase key ∈ METHODS).







End DispatchWords.

(** ** A small runtime to compute with

    One working directory and a given set of files, numbers as naturals
    in decimal, data objects given by their JSON text, and a router that
    matches a path against the patterns literally.  [example_runtime] has
    one public file. *)

Definition example_disk (files : string -> bool) : HostRuntime :=
  {| cwd := "/srv/app";
     file_exists := files;
     file_type := fun _ => "text/html;charset=utf-8";
     file_size := fun _ => "21";
     decodeURIComponent := fun s => if Js.has_char "%" s then None else Some s;
     uri_error_message := fun _ => "URI error";
     JsNumber := nat;
     Number_toString := fun n => NilZero.string_of_uint (Nat.to_uint n);
     Math_max_0 := fun n => n;
     JsBigInt := nat;
     BigInt_toString := fun n => NilZero.string_of_uint (Nat.to_uint n);
     JsObject := string;
     JSON_stringify := fun json => json;
     JSON_stringify_string := fun s => Js.dquote +:+ s +:+ Js.dquote;
     recorded_content_type := fun _ => None;
     json_content_type_parameters := ";charset=utf-8";
     select_route := fun patterns path => List.find (String.eqb path) patterns;
     ComponentType := string |}.

Definition example_runtime : HostRuntime :=
  example_disk (fun p => String.eqb p "/srv/app/public/index.html").

Definition example_request (verb path : string) : Request :=
  {| method := verb; pathname := path; params := None |}.

Section ServerWords.
Context `{HostRuntime}.

(** The route the runtime's router serves a request with: the entry of
    the route table under the pattern the router selects. *)
Definition route_selected (options : HyperServerOptions) (request : Request)
  : option (string * RouteEntry) :=
  match routes options with
  | Some table =>
      match select_route (map fst table) (pathname request) with
      | Some pattern =>
          match object_get table pattern with
          | Some entry => Some (pattern, entry)
          | None => None
          end
      | None => None
      end
  | None => None
  end.

(** The patterns of a route table are the keys of an object: no two are equal. *)
Definition distinct_patterns (options : HyperServerOptions) : Prop :=
  match routes options with
  | Some table => NoDup (map fst table)
  | None => True
  end.


(** The handlers [mapRoutes] builds, pattern by pattern. *)
Definition handlers_of (baseHeaders : option HeadersInit) (onError : option ErrorHook)
    (table : RouteTable) (mapped : list (string * NativeRouteHandler)) : Prop :=
  Forall2 (fun route made =>
             route.1 = made.1
             /\ createRouteHandler route.2 route.1 baseHeaders onError = Return made.2)
          table mapped.

End ServerWords.

Section JsxWords.
Context `{JsxHost}.

(** Does a component specification name a module to load the component from? *)
Definition has_module_reference (spec : ComponentSpec) : bool :=
  match spec with
  | SpecString _ => true
  | SpecModule _ _ => true
  | SpecComponent _ (Some module) _ => negb (String.eqb module "")
  | SpecComponent _ None _ => false
  | SpecFunction _ => false
  | SpecInvalid => false
  end.

(** A page that asks for hydration and names no module. *)
Definition hydrates_without_reference (page : JSXPage) : bool :=
  wantsHydration (hydrate page) && negb (has_module_reference (page_component page)).

(** The input [createJSXServer] prepares the environment from. *)
Definition prepare_input_of (options : JSXServerOptions) : PrepareJSXInput :=
  {| pages := jsx_pages options;
     baseDir := jsx_baseDir options;
     publicDir := jsx_publicDir options;
     publicPrefix := default "/public" (jsx_publicPrefix options);
     clientFileName := default DEFAULT_CLIENT_FILENAME (jsx_clientFileName options);
     layout := jsx_layout options;
     notFoundPage := jsx_notFoundPage options;
     userStatic := jsx_static options |}.

(** The descriptors [buildComponentDescriptors] makes, page by page. *)
Definition descriptors_of (baseDir : string) (pages : list (string * JSXPage))
    (made : list (string * NormalizedComponent)) : Prop :=
  Forall2 (fun page descriptor =>
             page.1 = descriptor.1
             /\ normalizeComponentSpec (page_component page.2) baseDir = Return descriptor.2)
          pages made.

End JsxWords.

(** Every [<] of a text written as the six characters of its escape. *)
Fixpoint escape_lt (s : string) : string :=
  match s with
  | EmptyString => EmptyString
  | String c s' =>
      if Ascii.eqb c "<" then "\u003c" +:+ escape_lt s' else String c (escape_lt s')
  end.

(** ** Example configurations *)

Definition example_response (text : string) : Response :=
  {| status := 200; headers := ∅; body := BodyText text |}.

(** [{ GET: <a response> }] *)
Definition example_table : list (string * option (Target (H := example_runtime))) :=
  [("GET", Some (TargetResponse (example_response "ok")))].

(** [{ get: <a response>, all: <a response> }] *)
Definition example_lowercase_table : list (string * option (Target (H := example_runtime))) :=
  [("get", Some (TargetResponse (example_response "read")));
   ("all", Some (TargetResponse (example_response "any")))].

(** A handler that throws and a hook that answers with status 555. *)
Definition example_failing_handler : Handler (H := example_runtime) :=
  fun _ => Throw (Error "boom").

Definition example_hook : ErrorHook (H := example_runtime) :=
  fun _ _ => Return (Some {| status := 555;
                             headers := {["content-type" := "application/json"]};
                             body := BodyText "handled" |}).

(** One route, [/], and one static directory, [public]. *)
Definition example_options : HyperServerOptions (H := example_runtime) :=
  {| routes := Some [("/", EntryResponse (example_response "routed"))];
     static := [{| dir := "public"; prefix := None; index := None; maxAge := None |}];
     notFound := None;
     onError := None;
     baseHeaders := None |}.

(** A route table with the method table [{ FETCH: undefined }]. *)
Definition example_unknown_key_table : list (string * option (Target (H := example_runtime))) :=
  [("FETCH", None)].

Definition example_unknown_key_options : HyperServerOptions (H := example_runtime) :=
  {| routes := Some [("/resource", EntryTable example_unknown_key_table)];
     static := [];
     notFound := None;
     onError := None;
     baseHeaders := None |}.

Definition example_jsx_host : JsxHost (H := example_runtime) :=
  {| env_skip_client_build := true;
     buildClientBundle := fun _ _ _ _ _ _ _ => Return [];
     discoverClientStyleAssets := fun _ _ _ => [];
     createPageHandler := fun args _ => Return (VString (arg_routeKey args)) |}.

(** A page given by the component itself, [hydrate] left out. *)
Definition example_component_page : JSXPage (H := example_runtime) :=
  {| page_component := SpecFunction (H := example_runtime) "Home";
     page_title := TitleString "Home";
     getProps := None;
     hydrate := None |}.

Definition example_jsx_options : JSXServerOptions (H := example_runtime) :=
  {| jsx_pages := [("/", example_component_page)];
     jsx_baseDir := "/srv/app/src";
     jsx_publicDir := "/srv/app/public";
     jsx_publicPrefix := None;
     jsx_apiRoutes := None;
     jsx_static := [];
     jsx_clientFileName := None;
     jsx_clientImports := [];
     jsx_skipClientBuild := None;
     jsx_cacheDir := None;
     jsx_notFoundPage := None;
     jsx_layout := None;
     jsx_onError := None;
     jsx_baseHeaders := None |}.

(** ** More of [core.ts]: the response helpers *)

Section ResponseHelpers.
Context `{HostRuntime}.

(** A [ResponseInit]: the optional status and headers. *)
Record ResponseInit : Type := {
  init_status : option nat;
  init_headers : option HeadersInit;
}.

(** [new Response(body, init)] for a text body. *)
Definition Response_of_text (content : string) (init : option ResponseInit) : Response :=
  Response_new (BodyText content) (init ≫= init_status)
    (Headers.create <$> (init ≫= init_headers)).


Definition text (content : string) (init : option ResponseInit) : Response :=
  let response := Response_of_text content init in
  if negb (Headers.has (headers response) "Content-Type")
  then {| status := status response;
          headers := Headers.set (headers response) "Content-Type" "text/plain; charset=utf-8";
          body := body response |}
  else response.

(** ** Parts of [createStaticHandler], named for the statements *)

(** The sanitised prefix of a static configuration. *)
Definition static_prefix (config : StaticConfig) : string :=
  sanitisePrefix (default "/" (prefix config)).

(** The part of a request path below the prefix, when the path is under it. *)
Definition static_relative (config : StaticConfig) (path : string) : option string :=
  let prefix := static_prefix config in
  let trimmedPrefix := if String.eqb prefix "/" then "/" else Js.slice_drop_last prefix in
  if String.eqb prefix "/" then
    Some (if (1 <? String.length path)%nat then Js.slice_from 1 path else "")
  else if Js.startsWith prefix path then Some (Js.slice_from (String.length prefix) path)
  else if String.eqb path trimmedPrefix then Some ""
  else None.

(** The headers of a served file. *)
Definition static_headers (config : StaticConfig) (targetPath : string)
    (baseHeaders : option HeadersInit) : gmap string string :=
  let headers := Headers.create (default [] baseHeaders) in
  let headers :=
    if negb (String.eqb (file_type targetPath) "")
    then Headers.set headers "Content-Type" (file_type targetPath) else headers in
  let headers :=
    match maxAge config with
    | Some age =>
        Headers.set headers "Cache-Control"
          ("public, max-age=" +:+ Number_toString (Math_max_0 age))
    | None => headers
    end in
  Headers.set headers "Content-Length" (file_size targetPath).

(** The same request with another method. *)
Definition with_method (verb : string) (request : Request) : Request :=
  {| method := verb; pathname := pathname request; params := params request |}.

(** A route entry [createRouteHandler] accepts. *)
Definition valid_entry (entry : RouteEntry) : bool :=
  match entry with
  | EntryInvalid => false
  | EntryTable table => forallb (fun kv => recognised_key kv.1) table
  | EntryHandler _ | EntryResponse _ => true
  end.

End ResponseHelpers.

(** What [normaliseMethodTable] keeps true of its two collections: the
    allowed verbs are listed once each, they are the keys of the map other
    than the wildcard, and every key of the map is the wildcard or a verb
    of [METHODS]. *)
Definition table_invariant `{HostRuntime} (table : NormalisedTable) : Prop :=
  NoDup (allowed table)
  /\ (forall verb, verb ∈ allowed table <-> verb <> "ALL" /\ is_Some (methods table !! verb))
  /\ (forall verb, is_Some (methods table !! verb) -> verb = "ALL" \/ verb ∈ METHODS).

(** ** Example configurations for the further properties *)

(** The directory [public], cached for an hour. *)
Definition example_static_config : StaticConfig (H := example_runtime) :=
  {| dir := "public"; prefix := None; index := None;
     maxAge := Some (3600%nat : JsNumber (HostRuntime := example_runtime)) |}.

(** Two routes: a handler and the method table [{ GET: ... }]. *)
Definition example_route_table : RouteTable (H := example_runtime) :=
  [("/", EntryHandler (fun _ => Return (VString "home")));
   ("/resource", EntryTable example_table)].

(** ** More of [jsx.tsx]: hydration at request time *)

Section Hydration.
Context `{HostRuntime}.

Definition resolveHydrate (hydrate : option Hydrate) (ctx : HyperContext) : Outcome bool :=
  match hydrate with
  | Some (HydrateFunction f) => f ctx
  | None => Return true
  | Some (HydrateBool b) => Return b
  end.

End Hydration.

(** A page given by a specifier, [hydrate] left out, and the input of a
    preparation with this page alone. *)
Definition example_module_page : JSXPage (H := example_runtime) :=
  {| page_component := SpecString (H := example_runtime) "./pages/Home.tsx#Home";
     page_title := TitleString "Home";
     getProps := None;
     hydrate := None |}.

Definition example_prepare_input : PrepareJSXInput (H := example_runtime) :=
  {| pages := [("/", example_module_page)];
     baseDir := "/srv/app/src";
     publicDir := "/srv/app/public";
     publicPrefix := "/public";
     clientFileName := DEFAULT_CLIENT_FILENAME;
     layout := None;
     notFoundPage := None;
     userStatic := [example_static_config] |}.

(** ** More of [jsx.tsx]: loading components and rendering pages *)

Section Loading.
Context `{HostRuntime}.

(** An imported module, read at an export name: the export when it is a
    function, [None] when it is missing or is something else. *)
Definition JsModule : Type := string -> option ComponentType.

Definition cacheKey (reference : ComponentReference) : string :=
  modulePath reference +:+ "#" +:+ exportName reference.

(** [loadComponent(descriptor, cache)], with the dynamic [import] of a
    module path as [importModule] and the cache, a [Map] from cache keys
    to loaded components, as a finite map; the cache after the call is
    returned beside the outcome. *)
Definition loadComponent (importModule : string -> Outcome JsModule)
    (descriptor : NormalizedComponent) (cache : gmap string ComponentType)
  : Outcome ComponentType * gmap string ComponentType :=
  match component descriptor with
  | Some component => (Return component, cache)
  | None =>
    match reference descriptor with
    | None => (Throw (Error "Component descriptor missing module reference"), cache)
    | Some reference =>
      match cache !! cacheKey reference with
      | Some cached => (Return cached, cache)
      | None =>
        match importModule (modulePath reference) with
        | Throw error => (Throw error, cache)
        | Return module =>
          match module (exportName reference) with
          | None =>
              (Throw (Error ("Export " +:+ Js.dquote +:+ exportName reference +:+ Js.dquote
                             +:+ " from module " +:+ Js.dquote +:+ modulePath reference
                             +:+ Js.dquote +:+ " is not a React component")),
               cache)
          | Some component => (Return component, <[cacheKey reference := component]> cache)
          end
        end
      end
    end
  end.

(** [error.message] and the same error with another message. *)
Definition message_of (error : JsError) : string :=
  match error with
  | TypeError message | Error message | URIError message => message
  end.

Definition with_message (error : JsError) (message : string) : JsError :=
  match error with
  | TypeError _ => TypeError message
  | Error _ => Error message
  | URIError _ => URIError message
  end.

Definition isSuspenseWithoutBoundaryError (error : JsError) : bool :=
  let message := message_of error in
  Js.includes "A component suspended while responding to synchronous input" message
  || Js.includes "A component suspended while rendering, but no fallback UI was specified"
       message
  || Js.includes "A React component suspended while rendering, but no fallback UI was specified"
       message.

Definition newline : string := String (Ascii.ascii_of_nat 10) "".

Definition suspense_hint : string :=
  newline +:+ newline
  +:+ "HyperBun hint: A component suspended during render without a surrounding <Suspense> fallback. "
  +:+ "Wrap the subtree that might suspend in <Suspense fallback={...}> (for example in your layout) or load it eagerly.".

(** [appendSuspenseHint(error)]: the error after the call. *)
Definition appendSuspenseHint (error : JsError) : JsError :=
  if negb (Js.includes "HyperBun hint" (message_of error))
  then with_message error (message_of error +:+ suspense_hint)
  else error.




End Loading.

(** ** The scaffolding command ([create-hyperbun/bin/index.js]) *)

Module Cli.

Definition DEFAULT_TEMPLATE : string := "default".
Definition DEFAULT_HYPERBUN_VERSION : string := "^0.1.0".

(** The [options] object of [parseArgs]; [skipPrompts] is absent until
    [-y] sets it. *)
Record Options : Type := {
  template : string;
  git : bool;
  install : string;
  force : bool;
  help : bool;
  version : bool;
  hyperbunVersion : string;
  skipPrompts : option bool;
}.

Definition initial_options : Options :=
  {| template := DEFAULT_TEMPLATE;
     git := true;
     install := "auto";
     force := false;
     help := false;
     version := false;
     hyperbunVersion := DEFAULT_HYPERBUN_VERSION;
     skipPrompts := None |}.

(** The assignments [options.<field> = value]. *)
Definition set_template (o : Options) (value : string) : Options :=
  {| template := value; git := git o; install := install o; force := force o; help := help o;
     version := version o; hyperbunVersion := hyperbunVersion o; skipPrompts := skipPrompts o |}.

Definition set_git (o : Options) (value : bool) : Options :=
  {| template := template o; git := value; install := install o; force := force o;
     help := help o; version := version o; hyperbunVersion := hyperbunVersion o;
     skipPrompts := skipPrompts o |}.

Definition set_install (o : Options) (value : string) : Options :=
  {| template := template o; git := git o; install := value; force := force o; help := help o;
     version := version o; hyperbunVersion := hyperbunVersion o; skipPrompts := skipPrompts o |}.

Definition set_force (o : Options) (value : bool) : Options :=
  {| template := template o; git := git o; install := install o; force := value;
     help := help o; version := version o; hyperbunVersion := hyperbunVersion o;
     skipPrompts := skipPrompts o |}.

Definition set_help (o : Options) (value : bool) : Options :=
  {| template := template o; git := git o; install := install o; force := force o;
     help := value; version := version o; hyperbunVersion := hyperbunVersion o;
     skipPrompts := skipPrompts o |}.

Definition set_version (o : Options) (value : bool) : Options :=
  {| template := template o; git := git o; install := install o; force := force o;
     help := help o; version := value; hyperbunVersion := hyperbunVersion o;
     skipPrompts := skipPrompts o |}.

Definition set_hyperbunVersion (o : Options) (value : string) : Options :=
  {| template := template o; git := git o; install := install o; force := force o;
     help := help o; version := version o; hyperbunVersion := value;
     skipPrompts := skipPrompts o |}.

Definition set_skipPrompts (o : Options) (value : bool) : Options :=
  {| template := template o; git := git o; install := install o; force := force o;
     help := help o; version := version o; hyperbunVersion := hyperbunVersion o;
     skipPrompts := Some value |}.

(** [arg.split("=", 2)[1] ?? fallback] *)
Definition value_after_equals (arg fallback : string) : string :=
  default fallback (Js.split "=" arg !! 1%nat).

(** [next && !next.startsWith("-")] for the argument after a flag *)
Definition is_value (next : string) : bool :=
  negb (String.eqb next "") && negb (Js.startsWith "-" next).

(** The [for] loop of [parseArgs]; a flag that takes the next argument as
    its value skips it. *)
Fixpoint parseArgs_loop (rawArgs : list string) (options : Options)
    (positionals : list string) : Options * list string :=
  match rawArgs with
  | [] => (options, positionals)
  | arg :: rest =>
    if String.eqb arg "--" then (options, positionals ++ rest)
    else if String.eqb arg "-h" || String.eqb arg "--help" then
      parseArgs_loop rest (set_help options true) positionals
    else if String.eqb arg "-v" || String.eqb arg "--version" then
      parseArgs_loop rest (set_version options true) positionals
    else if String.eqb arg "--force" then
      parseArgs_loop rest (set_force options true) positionals
    else if String.eqb arg "--no-git" then
      parseArgs_loop rest (set_git options false) positionals
    else if String.eqb arg "--git" then
      parseArgs_loop rest (set_git options true) positionals
    else if String.eqb arg "--no-install" then
      parseArgs_loop rest (set_install options "skip") positionals
    else if Js.startsWith "--install=" arg then
      parseArgs_loop rest (set_install options (value_after_equals arg "auto")) positionals
    else if String.eqb arg "--install" || String.eqb arg "-i" then
      match rest with
      | next :: rest' =>
          if is_value next then parseArgs_loop rest' (set_install options next) positionals
          else parseArgs_loop rest (set_install options "auto") positionals
      | [] => parseArgs_loop rest (set_install options "auto") positionals
      end
    else if Js.startsWith "--template=" arg then
      parseArgs_loop rest (set_template options (value_after_equals arg DEFAULT_TEMPLATE))
        positionals
    else if String.eqb arg "--template" || String.eqb arg "-t" then
      match rest with
      | next :: rest' =>
          if is_value next then parseArgs_loop rest' (set_template options next) positionals
          else parseArgs_loop rest options positionals
      | [] => parseArgs_loop rest options positionals
      end
    else if Js.startsWith "--hyperbun-version=" arg then
      parseArgs_loop rest
        (set_hyperbunVersion options (value_after_equals arg DEFAULT_HYPERBUN_VERSION))
        positionals
    else if String.eqb arg "--hyperbun-version" then
      match rest with
      | next :: rest' =>
          if is_value next then
            parseArgs_loop rest' (set_hyperbunVersion options next) positionals
          else parseArgs_loop rest options positionals
      | [] => parseArgs_loop rest options positionals
      end
    else if String.eqb arg "-y" || String.eqb arg "--yes" then
      parseArgs_loop rest (set_skipPrompts options true) positionals
    else if Js.startsWith "-" arg then
      (* an unknown option: a warning is printed *)
      parseArgs_loop rest options positionals
    else parseArgs_loop rest options (positionals ++ [arg])
  end.

Definition parseArgs (rawArgs : list string) : Options * list string :=
  parseArgs_loop rawArgs initial_options [].

(** *** [toValidPackageName]

    The text is read as ASCII: a character is a byte, as for a directory
    name typed on the command line. *)

(** The white space [trim] removes. *)
Definition is_space (c : ascii) : bool :=
  let n := nat_of_ascii c in
  ((9 <=? n)%nat && (n <=? 13)%nat) || (n =? 32)%nat.

Fixpoint trimStart (s : string) : string :=
  match s with
  | EmptyString => EmptyString
  | String c s' => if is_space c then trimStart s' else s
  end.

Fixpoint trimEnd (s : string) : string :=
  match s with
  | EmptyString => EmptyString
  | String c s' =>
      match trimEnd s' with
      | EmptyString => if is_space c then EmptyString else String c EmptyString
      | kept => String c kept
      end
  end.

(** [s.trim()] *)
Definition trim (s : string) : string := trimEnd (trimStart s).

(** The class [[a-z0-9._-]] *)
Definition is_name_char (c : ascii) : bool :=
  let n := nat_of_ascii c in
  ((97 <=? n)%nat && (n <=? 122)%nat) || ((48 <=? n)%nat && (n <=? 57)%nat)
  || Ascii.eqb c "." || Ascii.eqb c "_" || Ascii.eqb c "-".

(** [s.replace(/[^...]+/g, "-")] for the class [keep]: every maximal run
    of characters outside the class becomes one dash; [in_run] tells that
    the character before was outside the class. *)
Fixpoint replace_runs (keep : ascii -> bool) (in_run : bool) (s : string) : string :=
  match s with
  | EmptyString => EmptyString
  | String c s' =>
      if keep c then String c (replace_runs keep false s')
      else if in_run then replace_runs keep true s'
      else String "-" (replace_runs keep true s')
  end.

(** [s.replace(/^[-.]+/, "")] *)
Fixpoint strip_leading (s : string) : string :=
  match s with
  | EmptyString => EmptyString
  | String c s' => if Ascii.eqb c "-" || Ascii.eqb c "." then strip_leading s' else s
  end.

Definition toValidPackageName (value : string) : string :=
  let lower := replace_runs is_name_char false (Js.toLowerCase (trim value)) in
  let collapsed :=
    strip_leading (replace_runs (fun c => negb (Ascii.eqb c "-")) false lower) in
  if (String.length collapsed =? 0)%nat then "hyperbun-app" else collapsed.

(** Every character of a text is in a class. *)
Fixpoint all_chars (class : ascii -> bool) (s : string) : bool :=
  match s with
  | EmptyString => true
  | String c s' => class c && all_chars class s'
  end.

End Cli.

(** ** More of [jsx.tsx]: the routes of the JSX server *)

Section JsxRoutes.
Context `{JsxHost}.

(** The handler [createJSXServer] makes for a page. *)
Definition page_handler_of (route : string) (page : JSXPage) (descriptor : NormalizedComponent)
    (scriptHref : string) (styleHrefs : list string) : Handler :=
  createPageHandler
    {| arg_routeKey := route;
       arg_descriptor := descriptor;
       arg_hydrate := hydrate page;
       arg_scriptHref := scriptHref;
       arg_styleHrefs := styleHrefs;
       arg_getProps := getProps page;
       arg_getTitle := page_title page |}.

(** The page handlers the loop of [createJSXServer] makes, entry by entry. *)
Definition page_handlers_of (pages : list (string * JSXPage)) (scriptHref : string)
    (styleHrefs : list string) (entries : list (string * NormalizedComponent))
    (made : RouteTable) : Prop :=
  Forall2 (fun entry route =>
             route.1 = entry.1
             /\ exists page,
                  object_get pages entry.1 = Some page
                  /\ route.2
                     = EntryHandler (page_handler_of entry.1 page entry.2 scriptHref styleHrefs))
          entries made.

End JsxRoutes.

(** The example page, with an API route under the same pattern. *)
Definition example_shadowing_options : JSXServerOptions (H := example_runtime) :=
  {| jsx_pages := [("/", example_module_page)];
     jsx_baseDir := "/srv/app/src";
     jsx_publicDir := "/srv/app/public";
     jsx_publicPrefix := None;
     jsx_apiRoutes := Some [("/", EntryResponse (example_response "api"));
                            ("/api/time", EntryResponse (example_response "now"))];
     jsx_static := [];
     jsx_clientFileName := None;
     jsx_clientImports := [];
     jsx_skipClientBuild := None;
     jsx_cacheDir := None;
     jsx_notFoundPage := None;
     jsx_layout := None;
     jsx_onError := None;
     jsx_baseHeaders := None |}.

(** * [core.ts] with the checks of the runtime

    The definitions above read [new Headers], [Response.json] and
    [toUpperCase] on the values the runtime accepts and on ASCII.  The
    definitions of this part follow the same source lines and keep what
    the runtime does with the other values: [new Headers] raises a
    [TypeError] for a name or a value it refuses, its iteration gives
    every [Set-Cookie] value apart, [Response.json] raises a [TypeError]
    for an object it cannot serialise, and [toUpperCase] follows
    Unicode. *)

(** ** The header list of a [Headers] object (Fetch standard) *)

Module HeaderList.

Fixpoint every (class : ascii -> bool) (s : string) : bool :=
  match s with
  | EmptyString => true
  | String c s' => class c && every class s'
  end.

(** A character of a token: a letter, a digit or one of
    [! # $ % & ' * + - . ^ _ ` | ~]. *)
Definition is_tchar (c : ascii) : bool :=
  let n := nat_of_ascii c in
  ((48 <=? n)%nat && (n <=? 57)%nat) || ((65 <=? n)%nat && (n <=? 90)%nat)
  || ((97 <=? n)%nat && (n <=? 122)%nat)
  || Js.has_char c "!#$%&'*+-.^_`|~".

(** A header name is a non-empty token. *)
Definition valid_name (name : string) : bool :=
  negb (String.eqb name "") && every is_tchar name.

(** HTTP white space: tab, line feed, carriage return and space. *)
Definition is_whitespace (c : ascii) : bool :=
  let n := nat_of_ascii c in
  (n =? 9)%nat || (n =? 10)%nat || (n =? 13)%nat || (n =? 32)%nat.

Fixpoint strip_start (s : string) : string :=
  match s with
  | EmptyString => EmptyString
  | String c s' => if is_whitespace c then strip_start s' else s
  end.

Fixpoint strip_end (s : string) : string :=
  match s with
  | EmptyString => EmptyString
  | String c s' =>
      match strip_end s' with
      | EmptyString => if is_whitespace c then EmptyString else String c EmptyString
      | kept => String c kept
      end
  end.

(** A value is normalised by removing the white space at its ends. *)
Definition strip (value : string) : string := strip_end (strip_start value).

(** A character of ASCII. *)
Definition is_ascii (c : ascii) : bool := (nat_of_ascii c <? 128)%nat.

(** A normalised value holds no NUL, line feed or carriage return. *)
Definition valid_value (value : string) : bool :=
  every (fun c => let n := nat_of_ascii c in
                  negb ((n =? 0)%nat || (n =? 10)%nat || (n =? 13)%nat)) value.

(** One header of the list: the name lower-cased (names are compared
    without regard to case and iterated lower-cased), the value
    normalised; [None] when the name or the value is refused. *)
Definition normalize (entry : string * string) : option (string * string) :=
  let value := strip entry.2 in
  if valid_name entry.1 && valid_value value
  then Some (Js.toLowerCase entry.1, value) else None.

(** [new Headers(init)]: the headers appended in order; [None] when the
    constructor raises a [TypeError]. *)
Fixpoint fill (init : HeadersInit) : option (list (string * string)) :=
  match init with
  | [] => Some []
  | entry :: rest =>
      match normalize entry with
      | None => None
      | Some header =>
          match fill rest with
          | None => None
          | Some filled => Some (header :: filled)
          end
      end
  end.

(** The values of the headers of one name, in order. *)
Definition values (hs : list (string * string)) (name : string) : list string :=
  map snd (List.filter (fun header => String.eqb header.1 name) hs).

(** [headers.get(name)]: the values joined by a comma and a space. *)
Definition get (hs : list (string * string)) (name : string) : option string :=
  match values hs (Js.toLowerCase name) with
  | [] => None
  | found => Some (Js.join ", " found)
  end.

(** The names of the list, sorted, each once. *)
Fixpoint insert_name (name : string) (names : list string) : list string :=
  match names with
  | [] => [name]
  | first :: rest =>
      if String.eqb name first then names
      else if String.leb name first then name :: names
      else first :: insert_name name rest
  end.

Definition names (hs : list (string * string)) : list string :=
  fold_right (fun header sorted => insert_name header.1 sorted) [] hs.

(** What [headers.forEach] and the iterators visit ("sort and combine"):
    the names in order, each with its combined value, but every
    [Set-Cookie] value as an entry of its own. *)
Definition entries (hs : list (string * string)) : list (string * string) :=
  flat_map (fun name =>
              if String.eqb name "set-cookie" then map (pair name) (values hs name)
              else [(name, Js.join ", " (values hs name))])
           (names hs).

(** The headers of a response made from the list: what [get] answers
    for each name. *)
Definition to_map (hs : list (string * string)) : gmap string string :=
  Headers.create hs.

End HeaderList.

(** What the base headers give for a name, in the words of the
    specification: the values configured under that name, letter case
    aside, each without the white space at its ends, joined by a comma and
    a space; nothing when no value is configured under the name. *)
Definition base_value (init : HeadersInit) (name : string) : option string :=
  match List.filter (fun entry => String.eqb (Js.toLowerCase entry.1) (Js.toLowerCase name))
          init with
  | [] => None
  | configured => Some (Js.join ", " (map (fun entry => HeaderList.strip entry.2) configured))
  end.

(** ** The checks of the runtime *)

Class RuntimeChecks `{HostRuntime} : Type := {
  (** [s.toUpperCase()], which follows Unicode: it also maps letters
      outside ASCII, some of them to ASCII letters *)
  String_toUpperCase : string -> string;
  (** does [Response.json(data)] refuse the object (a [BigInt] inside, a
      cycle), and the message of the [TypeError] it then raises *)
  JSON_refuses : JsObject -> bool;
  json_error_message : JsObject -> string;
  (** does [new Headers] refuse a header value that holds characters
      outside ASCII (the standard has it refuse a character above
      U+00FF, as the value is to be a byte string); it is asked of such
      values alone *)
  Headers_refuses_value : string -> bool;
  (** the message of the [TypeError] of [new Headers(init)] *)
  headers_error_message : HeadersInit -> string;
}.

Module Checked.
Section Core.
Context `{RuntimeChecks}.

(** A value with characters outside ASCII that the runtime refuses. *)
Definition refused_value (value : string) : bool :=
  negb (HeaderList.every HeaderList.is_ascii value) && Headers_refuses_value value.

(** [new Headers(init)] *)
Definition Headers_new (init : HeadersInit) : Outcome (list (string * string)) :=
  match HeaderList.fill init with
  | Some base =>
      if existsb (fun entry => refused_value entry.2) init
      then Throw (TypeError (headers_error_message init))
      else Return base
  | None => Throw (TypeError (headers_error_message init))
  end.

(** [Response.json(data)] *)
Definition Response_json (data : JsObject) : Outcome Response :=
  if JSON_refuses data then Throw (TypeError (json_error_message data))
  else Return (Response_json data).

(** One call of the function [applyBaseHeaders] gives to [forEach]. *)
Definition add_missing (response : Response) (entry : string * string) : Response :=
  if negb (Headers.has (headers response) entry.1)
  then {| status := status response;
          headers := Headers.set (headers response) entry.1 entry.2;
          body := body response |}
  else response.

Definition applyBaseHeaders (response : Response) (baseHeaders : option HeadersInit)
  : Outcome Response :=
  match baseHeaders with
  | None => Return response
  | Some init =>
      base ← Headers_new init;
      Return (fold_left add_missing (HeaderList.entries base) response)
  end.

Definition normaliseResponse (result : JsValue) (baseHeaders : option HeadersInit)
  : Outcome Response :=
  match as_Response result with
  | Some response => applyBaseHeaders response baseHeaders
  | None =>
    match result with
    | VUndefined | VNull =>
        let res := Response_new BodyNull (Some 204) None in
        applyBaseHeaders res baseHeaders
    | _ =>
      if JsType_eqb (typeof result) TString then
        applyBaseHeaders (Response_new (BodyText (String_of result)) None None) baseHeaders
      else if JsType_eqb (typeof result) TNumber
              || JsType_eqb (typeof result) TBoolean
              || JsType_eqb (typeof result) TBigInt then
        applyBaseHeaders (Response_new (BodyText (String_of result)) None None) baseHeaders
      else
        match isBinaryLike result with
        | Some data => applyBaseHeaders (Response_new (BodyBinary data) None None) baseHeaders
        | None =>
          match result with
          | VObject o =>
              response ← Response_json o;
              applyBaseHeaders response baseHeaders
          | _ => applyBaseHeaders (Response_new (BodyText (String_of result)) None None) baseHeaders
          end
        end
    end
  end.

(** [applyBaseHeaders(new Response("Internal Server Error", { status: 500 }), baseHeaders)] *)
Definition internalServerError (baseHeaders : option HeadersInit) : Outcome Response :=
  applyBaseHeaders (Response_new (BodyText "Internal Server Error") (Some 500) None) baseHeaders.

(** ** The error boundary *)

(** The [try] of [handleError] covers the hook and the merge of its
    response; the merge of the [catch] block is outside it. *)
Definition handleError (onError : ErrorHook) (error : JsError) (ctx : HyperContext)
    (baseHeaders : option HeadersInit) : Outcome (option Response) :=
  match
    result ← onError error ctx;
    match result with
    | Some result => merged ← applyBaseHeaders result baseHeaders; Return (Some merged)
    | None => Return None
    end
  with
  | Return answer => Return answer
  | Throw secondary =>
      response ← internalServerError baseHeaders;
      Return (Some response)
  end.

(** The [try] of [executeHandler] covers the handler and the
    normalisation of its result; the [catch] block is not covered. *)
Definition executeHandler (handler : Handler) (request : Request)
    (locals : list (string * JsValue)) (baseHeaders : option HeadersInit)
    (onError : option ErrorHook) : Outcome Response :=
  let ctx := createContext request locals in
  match result ← handler ctx; normaliseResponse result baseHeaders with
  | Return response => Return response
  | Throw error =>
      recovery ←
        match onError with
        | Some hook => handleError hook error ctx baseHeaders
        | None => Return None
        end;
      match recovery with
      | Some recovery => Return recovery
      | None => internalServerError baseHeaders
      end
  end.

(** The [catch] of [cloneResponse] builds the response again from its
    parts and merges once more. *)
Definition cloneResponse (response : Response) (baseHeaders : option HeadersInit)
  : Outcome Response :=
  let cloned := response in
  match applyBaseHeaders cloned baseHeaders with
  | Return merged => Return merged
  | Throw _ =>
      applyBaseHeaders
        {| status := status response; headers := headers response; body := body response |}
        baseHeaders
  end.

Definition resolveEntry (entry : Target) (ctx : HyperContext)
    (baseHeaders : option HeadersInit) : Outcome Response :=
  match entry with
  | TargetResponse response => cloneResponse response baseHeaders
  | TargetHandler handler =>
      result ← handler ctx;
      normaliseResponse result baseHeaders
  end.

(** ** Method tables *)

Definition normalise_key (acc : NormalisedTable) (key : string) (value : option Target)
  : Outcome NormalisedTable :=
  let methodKey := String_toUpperCase key in
  if String.eqb methodKey "ALL" then
    match value with
    | Some v => Return {| methods := <["ALL" := v]> (methods acc); allowed := allowed acc |}
    | None => Return acc
    end
  else if bool_decide (methodKey ∈ METHODS) then
    match value with
    | Some v => Return {| methods := <[methodKey := v]> (methods acc);
                          allowed := set_add (allowed acc) methodKey |}
    | None => Return acc
    end
  else Throw (TypeError ("Unsupported HTTP method key " +:+ Js.dquote +:+ key +:+ Js.dquote)).

Fixpoint normalise_keys (entry : MethodTable) (acc : NormalisedTable) : Outcome NormalisedTable :=
  match entry with
  | [] => Return acc
  | (key, value) :: rest =>
      acc' ← normalise_key acc key value;
      normalise_keys rest acc'
  end.

Definition normaliseMethodTable (entry : MethodTable) : Outcome NormalisedTable :=
  normalise_keys entry {| methods := ∅; allowed := [] |}.

(** [new Response("Method Not Allowed", ...)] with the base headers merged *)
Definition methodNotAllowed (allowHeader : string) (baseHeaders : option HeadersInit)
  : Outcome Response :=
  headers ←
    (if String.eqb allowHeader "" then Return None
     else allow ← Headers_new [("Allow", allowHeader)];
          Return (Some (HeaderList.to_map allow)));
  applyBaseHeaders (Response_new (BodyText "Method Not Allowed") (Some 405) headers) baseHeaders.

Definition createRouteHandler (entry : RouteEntry) (pattern : string)
    (baseHeaders : option HeadersInit) (onError : option ErrorHook)
  : Outcome NativeRouteHandler :=
  match entry with
  | EntryResponse response => Return (fun _ => cloneResponse response baseHeaders)
  | EntryHandler handler =>
      Return (fun request => executeHandler handler request localsFactory baseHeaders onError)
  | EntryTable entry =>
      table ← normaliseMethodTable entry;
      let allowHeader := Js.join ", " (allowed table) in
      Return (fun request =>
                let method := String_toUpperCase (method request) in
                match select_target table method with
                | None => methodNotAllowed allowHeader baseHeaders
                | Some (TargetResponse selected) => cloneResponse selected baseHeaders
                | Some (TargetHandler selected) =>
                    executeHandler selected request localsFactory baseHeaders onError
                end)
  | EntryInvalid =>
      Throw (TypeError ("Unsupported route entry for pattern "
                        +:+ Js.dquote +:+ pattern +:+ Js.dquote))
  end.

Fixpoint mapRoutes_loop (entries : RouteTable) (baseHeaders : option HeadersInit)
    (onError : option ErrorHook) (mapped : list (string * NativeRouteHandler))
  : Outcome (list (string * NativeRouteHandler)) :=
  match entries with
  | [] => Return mapped
  | (pattern, entry) :: rest =>
      handler ← createRouteHandler entry pattern baseHeaders onError;
      mapRoutes_loop rest baseHeaders onError (object_set mapped pattern handler)
  end.

Definition mapRoutes (routes : RouteTable) (baseHeaders : option HeadersInit)
    (onError : option ErrorHook) : Outcome (list (string * NativeRouteHandler)) :=
  mapRoutes_loop routes baseHeaders onError [].

(** ** Static handlers *)

Definition createStaticHandler (config : StaticConfig) : StaticHandler :=
  let root := Path.resolve cwd [dir config] in
  let prefix := sanitisePrefix (default "/" (prefix config)) in
  let trimmedPrefix := if String.eqb prefix "/" then "/" else Js.slice_drop_last prefix in
  let indexFile := default "index.html" (index config) in
  let maxAge := maxAge config in
  fun request baseHeaders =>
    if negb (String.eqb (method request) "GET") && negb (String.eqb (method request) "HEAD")
    then Return None
    else
      let relative :=
        if String.eqb prefix "/" then
          Some (if (1 <? String.length (pathname request))%nat
                then Js.slice_from 1 (pathname request) else "")
        else if Js.startsWith prefix (pathname request) then
          Some (Js.slice_from (String.length prefix) (pathname request))
        else if String.eqb (pathname request) trimmedPrefix then Some ""
        else None in
      match relative with
      | None => Return None
      | Some relative =>
        match decodeURIComponent relative with
        | None => Throw (URIError (uri_error_message relative))
        | Some decoded =>
          match resolveStaticPath root decoded indexFile with
          | None => Return None
          | Some targetPath =>
            if negb (file_exists targetPath) then Return None
            else
              base ← Headers_new (default [] baseHeaders);
              let headers := HeaderList.to_map base in
              let headers :=
                if negb (String.eqb (file_type targetPath) "")
                then Headers.set headers "Content-Type" (file_type targetPath) else headers in
              let headers :=
                match maxAge with
                | Some age =>
                    Headers.set headers "Cache-Control"
                      ("public, max-age=" +:+ Number_toString (Math_max_0 age))
                | None => headers
                end in
              let headers := Headers.set headers "Content-Length" (file_size targetPath) in
              if String.eqb (method request) "HEAD"
              then Return (Some (Response_new BodyNull (Some 200) (Some headers)))
              else Return (Some (Response_new (BodyFile targetPath) (Some 200) (Some headers)))
          end
        end
      end.

Definition buildStaticHandlers (staticDefs : list StaticConfig) : list StaticHandler :=
  map createStaticHandler staticDefs.

(** ** The server *)

Definition notFoundResponse (baseHeaders : option HeadersInit) : Outcome Response :=
  applyBaseHeaders (Response_new (BodyText "Not Found") (Some 404) None) baseHeaders.

(** The [try] of the fetch handler covers the not-found entry alone. *)
Definition fetchHandler (staticHandlers : list StaticHandler) (notFound : option Target)
    (onError : option ErrorHook) (baseHeaders : option HeadersInit)
    (request : Request) : Outcome Response :=
  staticResponse ← try_static staticHandlers request baseHeaders;
  match staticResponse with
  | Some response => Return response
  | None =>
    match notFound with
    | Some entry =>
        let ctx := createContext request localsFactory in
        match resolveEntry entry ctx baseHeaders with
        | Return response => Return response
        | Throw error =>
            recovery ←
              match onError with
              | Some hook => handleError hook error ctx baseHeaders
              | None => Return None
              end;
            match recovery with
            | Some recovery => Return recovery
            | None => internalServerError baseHeaders
            end
        end
    | None => notFoundResponse baseHeaders
    end
  end.

Definition createServer (options : HyperServerOptions) : Outcome Server :=
  let staticHandlers := buildStaticHandlers (static options) in
  mappedRoutes ←
    match routes options with
    | Some routes => mapped ← mapRoutes routes (baseHeaders options) (onError options);
                     Return (Some mapped)
    | None => Return None
    end;
  let fetchHandler :=
    fetchHandler staticHandlers (notFound options) (onError options) (baseHeaders options) in
  Return (Bun_serve mappedRoutes fetchHandler).

End Core.
End Checked.

(** ** Example runtimes with their checks *)

(** The two bytes of the long s (U+017F) in UTF-8; its upper case is [S]. *)
Definition long_s : string := String (ascii_of_nat 197) (String (ascii_of_nat 191) "").

(** Upper-casing for the examples: the ASCII letters and the long s. *)
Fixpoint example_toUpperCase (s : string) : string :=
  match s with
  | EmptyString => EmptyString
  | String a s' =>
      match s' with
      | String b rest =>
          if (nat_of_ascii a =? 197)%nat && (nat_of_ascii b =? 191)%nat
          then String "S" (example_toUpperCase rest)
          else String (Js.upper_char a) (example_toUpperCase s')
      | EmptyString => String (Js.upper_char a) EmptyString
      end
  end.

(** The checks beside [example_runtime], whose data objects are JSON
    texts and so are never refused. *)
Definition example_checks : RuntimeChecks (H := example_runtime) :=
  {| String_toUpperCase := example_toUpperCase;
     JSON_refuses := fun _ => false;
     json_error_message := fun _ => "JSON.stringify cannot serialize the value";
     Headers_refuses_value :=
       fun value => negb (HeaderList.every (fun c => (nat_of_ascii c <? 196)%nat) value);
     headers_error_message := fun _ => "Invalid header" |}.

(** A value of a field of a flat data object. *)
Inductive JsField : Type :=
| FieldString (s : string)
| FieldNumber (n : nat)
| FieldBigInt (n : nat).

Definition field_json (field : JsField) : string :=
  match field with
  | FieldString s => Js.dquote +:+ s +:+ Js.dquote
  | FieldNumber n => NilZero.string_of_uint (Nat.to_uint n)
  | FieldBigInt n => NilZero.string_of_uint (Nat.to_uint n) +:+ "n"
  end.

Definition is_bigint (field : JsField) : bool :=
  match field with FieldBigInt _ => true | _ => false end.

(** A runtime whose data objects are flat records such as [{ n: 1n }]. *)
Definition example_data_runtime : HostRuntime :=
  {| cwd := "/srv/app";
     file_exists := fun p => String.eqb p "/srv/app/public/index.html";
     file_type := fun _ => "text/html;charset=utf-8";
     file_size := fun _ => "21";
     decodeURIComponent := fun s => if Js.has_char "%" s then None else Some s;
     uri_error_message := fun _ => "URI error";
     JsNumber := nat;
     Number_toString := fun n => NilZero.string_of_uint (Nat.to_uint n);
     Math_max_0 := fun n => n;
     JsBigInt := nat;
     BigInt_toString := fun n => NilZero.string_of_uint (Nat.to_uint n);
     JsObject := list (string * JsField);
     JSON_stringify := fun fields =>
       "{" +:+ Js.join ","
                 (map (fun field => Js.dquote +:+ field.1 +:+ Js.dquote +:+ ":"
                                    +:+ field_json field.2) fields)
           +:+ "}";
     JSON_stringify_string := fun s => Js.dquote +:+ s +:+ Js.dquote;
     recorded_content_type := fun _ => None;
     json_content_type_parameters := ";charset=utf-8";
     select_route := fun patterns path => List.find (String.eqb path) patterns;
     ComponentType := string |}.

Definition has_bigint (fields : list (string * JsField)) : bool :=
  existsb (fun field => is_bigint field.2) fields.

(** Its checks: an object with a [BigInt] in it is refused. *)
Definition example_data_checks : RuntimeChecks (H := example_data_runtime) :=
  {| String_toUpperCase := example_toUpperCase;
     JSON_refuses := has_bigint : JsObject (HostRuntime := example_data_runtime) -> bool;
     json_error_message := fun _ => "JSON.stringify cannot serialize BigInt.";
     Headers_refuses_value :=
       fun value => negb (HeaderList.every (fun c => (nat_of_ascii c <? 196)%nat) value);
     headers_error_message := fun _ => "Invalid header" |}.

(** ** Words of the specification for the checked code *)

(** A base-header configuration with well-formed headers: every name is
    a token and every value, without the white space at its ends, holds no
    NUL, line feed or carriage return. *)
Definition acceptable_headers (init : HeadersInit) : bool :=
  forallb (fun entry => HeaderList.valid_name entry.1
                        && HeaderList.valid_value (HeaderList.strip entry.2)) init.

(** What a base-header configuration gives for a name. *)
Definition base_value_of (baseHeaders : option HeadersInit) (name : string) : option string :=
  match baseHeaders with
  | Some init => base_value init name
  | None => None
  end.

(** [merged] is [response] with base headers merged in: the status, the
    body and every header of [response] are kept, and a name that
    [response] lacks has the value the base headers give it, if any.  Of
    [Set-Cookie] this says only whether the name is there. *)
Definition merged_with (baseHeaders : option HeadersInit) (response merged : Response) : Prop :=
  status merged = status response
  /\ body merged = body response
  /\ (forall name value,
        Headers.get (headers response) name = Some value ->
        Headers.get (headers merged) name = Some value)
  /\ (forall name,
        Js.toLowerCase name <> "set-cookie" ->
        Headers.get (headers response) name = None ->
        Headers.get (headers merged) name = base_value_of baseHeaders name)
  /\ (Headers.get (headers response) "set-cookie" = None ->
      (is_Some (Headers.get (headers merged) "set-cookie")
       <-> is_Some (base_value_of baseHeaders "set-cookie"))).

Section CheckedWords.
Context `{RuntimeChecks}.

(** Base headers [new Headers] accepts: none, or a configuration that
    is acceptable and of whose values with characters outside ASCII the
    runtime refuses none. *)
Definition accepted (baseHeaders : option HeadersInit) : bool :=
  match baseHeaders with
  | Some init =>
      acceptable_headers init
      && forallb (fun entry => HeaderList.every HeaderList.is_ascii entry.2
                               || negb (Headers_refuses_value entry.2)) init
  | None => true
  end.

(** A handler result [Response.json] does not refuse. *)
Definition serialisable (result : JsValue) : bool :=
  match result with
  | VObject o => negb (JSON_refuses o)
  | _ => true
  end.

(** A key of a method table the code recognises: its upper-case form is
    the wildcard or one of the seven verbs. *)
Definition recognised_verb (key : string) : bool :=
  String.eqb (String_toUpperCase key) "ALL"
  || bool_decide (String_toUpperCase key ∈ METHODS).

(** A route entry [createRouteHandler] accepts. *)
Definition accepted_entry (entry : RouteEntry) : bool :=
  match entry with
  | EntryInvalid => false
  | EntryTable table => forallb (fun kv => recognised_verb kv.1) table
  | EntryHandler _ | EntryResponse _ => true
  end.

End CheckedWords.

Section CheckedServerWords.
Context `{RuntimeChecks}.

(** The error of [new Headers(baseHeaders)] for base headers it refuses. *)
Definition refused_base_headers (baseHeaders : option HeadersInit) (error : JsError) : Prop :=
  exists init,
    baseHeaders = Some init
    /\ accepted (Some init) = false
    /\ error = TypeError (headers_error_message init).

(** The error of a static handler for a path below its prefix that does
    not percent-decode. *)
Definition undecodable_static_path (config : StaticConfig) (request : Request)
    (error : JsError) : Prop :=
  (method request = "GET" \/ method request = "HEAD")
  /\ exists relative,
       static_relative config (pathname request) = Some relative
       /\ decodeURIComponent relative = None
       /\ error = URIError (uri_error_message relative).

End CheckedServerWords.

Section ClientScriptWords.
Context `{HostRuntime}.

(** The file [<clientFileName>.js] directly in the public directory. *)
Definition client_script_path (input : PrepareJSXInput) : string :=
  Path.render (Path.segments (Path.resolve cwd [publicDir input])
               ++ [clientFileName input +:+ ".js"]).

End ClientScriptWords.

(** A disk after the client build: the bundle is in the public directory. *)
Definition example_built_runtime : HostRuntime :=
  example_disk (fun p => String.eqb p "/srv/app/public/hyperbun-client.js").

Definition example_built_checks : RuntimeChecks (H := example_built_runtime) :=
  {| String_toUpperCase := example_toUpperCase;
     JSON_refuses := fun _ => false;
     json_error_message := fun _ => "JSON.stringify cannot serialize the value";
     Headers_refuses_value :=
       fun value => negb (HeaderList.every (fun c => (nat_of_ascii c <? 196)%nat) value);
     headers_error_message := fun _ => "Invalid header" |}.

(** The preparation of one page, with the public prefix written [assets/]. *)
Definition example_built_input : PrepareJSXInput (H := example_built_runtime) :=
  {| pages := [("/", {| page_component :=
                          SpecString (H := example_built_runtime) "./pages/Home.tsx#Home";
                        page_title := TitleString "Home";
                        getProps := None;
                        hydrate := None |})];
     baseDir := "/srv/app/src";
     publicDir := "public";
     publicPrefix := "assets/";
     clientFileName := DEFAULT_CLIENT_FILENAME;
     layout := None;
     notFoundPage := None;
     userStatic := [] |}.

(** * Properties *)

(** ** Strings *)

Section StringFacts.

Lemma split_nonempty sep s : Js.split sep s <> [].
Proof. destruct s as [|c s]; simpl; [easy|]. destruct (Ascii.eqb c sep); [easy|]. now destruct (Js.split sep s). Qed.

Lemma split_app_sep sep a b :
  Js.split sep (a +:+ String sep b) = Js.split sep a ++ Js.split sep b.
Proof.
  induction a as [|c a IH]; simpl.
  - now rewrite Ascii.eqb_refl.
  - destruct (Ascii.eqb c sep); [now rewrite IH|].
    rewrite IH. pose proof (split_nonempty sep a) as Hne.
    now destruct (Js.split sep a).
Qed.

Lemma split_no_sep sep s : Js.has_char sep s = false -> Js.split sep s = [s].
Proof.
  induction s as [|c s IH]; simpl; [easy|].
  intros Hc. apply orb_false_iff in Hc as [Hc Hs].
  rewrite Hc, (IH Hs). reflexivity.
Qed.

Lemma split_pieces_no_sep sep s : Forall (fun x => Js.has_char sep x = false) (Js.split sep s).
Proof.
  induction s as [|c s IH]; simpl.
  - now repeat constructor.
  - destruct (Ascii.eqb c sep) eqn:Hc; [now constructor|].
    pose proof (split_nonempty sep s) as Hne.
    destruct (Js.split sep s) as [|h t]; [easy|].
    inversion IH; subst. constructor; [|assumption]. simpl. now rewrite Hc.
Qed.

Lemma join_cons sep x y rest :
  Js.join sep (x :: y :: rest) = x +:+ sep +:+ Js.join sep (y :: rest).
Proof. reflexivity. Qed.

Lemma split_join (segs : list string) :
  segs <> [] -> Forall (fun x => Js.has_char "/" x = false) segs ->
  Js.split "/" (Js.join "/" segs) = segs.
Proof.
  induction segs as [|x rest IH]; [easy|]. intros _ Hall.
  inversion Hall as [|? ? Hx Hrest]; subst.
  destruct rest as [|y rest].
  - simpl. now apply split_no_sep.
  - rewrite join_cons. change ("/" +:+ Js.join "/" (y :: rest)) with (String "/" (Js.join "/" (y :: rest))).
    rewrite split_app_sep, (split_no_sep _ _ Hx), IH; [reflexivity|easy|assumption].
Qed.

End StringFacts.

(** ** Paths *)

Section PathFacts.

Lemma proper_inv s :
  proper s -> s <> "" /\ s <> "." /\ s <> ".." /\ Js.has_char "/" s = false.
Proof.
  unfold proper, Path.proper_segment. intros Hp.
  repeat (apply andb_true_iff in Hp as [Hp ?]).
  repeat split; try (intros ->; discriminate).
  now apply negb_true_iff.
Qed.

Lemma proper_intro s :
  String.eqb s "" = false -> String.eqb s "." = false -> String.eqb s ".." = false ->
  Js.has_char "/" s = false -> proper s.
Proof. unfold proper, Path.proper_segment. now intros -> -> -> ->. Qed.

Lemma Forall_removelast {A} (P : A -> Prop) (l : list A) : Forall P l -> Forall P (removelast l).
Proof.
  induction l as [|x l IH]; simpl; [easy|]. intros Hall. inversion Hall; subst.
  destruct l; [constructor|]. constructor; auto.
Qed.

Lemma normalize_step_proper res seg :
  Forall proper res -> Js.has_char "/" seg = false ->
  Forall proper (Path.normalize_step false res seg).
Proof.
  intros Hres Hseg. unfold Path.normalize_step.
  destruct (String.eqb seg "") eqn:E1; [assumption|].
  destruct (String.eqb seg ".") eqn:E2; [assumption|]. simpl.
  destruct (String.eqb seg "..") eqn:E3.
  - destruct (last res); [|assumption].
    destruct (negb _); [|assumption]. now apply Forall_removelast.
  - unfold Js.push. apply Forall_app. split; [assumption|].
    constructor; [|constructor]. now apply proper_intro.
Qed.

Lemma normalize_fold_proper segs : forall res,
  Forall proper res -> Forall (fun x => Js.has_char "/" x = false) segs ->
  Forall proper (fold_left (Path.normalize_step false) segs res).
Proof.
  induction segs as [|seg segs IH]; simpl; [easy|].
  intros res Hres Hall. inversion Hall; subst.
  apply IH; [|assumption]. now apply normalize_step_proper.
Qed.

(** Segments that are empty or proper are normalised by dropping the empty ones. *)
Lemma normalize_fold_clean a segs : forall res,
  Forall (fun x => x = "" \/ proper x) segs ->
  fold_left (Path.normalize_step a) segs res
  = res ++ List.filter (fun s => negb (String.eqb s "")) segs.
Proof.
  induction segs as [|seg segs IH]; simpl; intros res Hall.
  - now rewrite app_nil_r.
  - inversion Hall as [|? ? Hseg Hrest]; subst. rewrite (IH _ Hrest).
    destruct Hseg as [->|Hp]; [reflexivity|].
    destruct (proper_inv _ Hp) as (H1 & H2 & H3 & _).
    apply String.eqb_neq in H1, H2, H3.
    unfold Path.normalize_step. rewrite H1, H2, H3. simpl.
    unfold Js.push. now rewrite <- app_assoc.
Qed.

Lemma filter_proper_id segs :
  Forall proper segs -> List.filter (fun s => negb (String.eqb s "")) segs = segs.
Proof.
  induction 1 as [|x l Hx _ IH]; simpl; [reflexivity|].
  destruct (proper_inv _ Hx) as (H1 & _). apply String.eqb_neq in H1.
  now rewrite H1, IH.
Qed.

Lemma split_render segs :
  Forall proper segs ->
  Js.split "/" (Path.render segs) = "" :: (if segs is [] then [""] else segs).
Proof.
  intros Hall. unfold Path.render. simpl. f_equal.
  destruct segs as [|x rest]; [reflexivity|].
  apply split_join; [easy|].
  eapply Forall_impl; [exact Hall|]. intros s Hs. now apply proper_inv in Hs.
Qed.

Lemma segments_render segs : Forall proper segs -> Path.segments (Path.render segs) = segs.
Proof.
  intros Hall. unfold Path.segments. rewrite (split_render _ Hall). simpl.
  destruct segs as [|x rest]; [reflexivity|]. now apply filter_proper_id.
Qed.

Lemma normal_spec p :
  Path.normal p = true <-> exists segs, p = Path.render segs /\ Forall proper segs.
Proof.
  unfold Path.normal. split.
  - intros Hn. apply andb_true_iff in Hn as [Heq Hall].
    apply String.eqb_eq in Heq. exists (Path.segments p). split; [assumption|].
    apply List.Forall_forall. intros x Hx. rewrite List.forallb_forall in Hall. now apply Hall.
  - intros (segs & -> & Hall). rewrite (segments_render _ Hall), String.eqb_refl. simpl.
    apply List.forallb_forall. intros x Hx. rewrite List.Forall_forall in Hall. now apply Hall.
Qed.

Lemma resolve_loop_absolute paths : forall acc,
  Exists (fun p => Path.isAbsolute p = true) paths ->
  snd (Path.resolve_loop paths acc) = true.
Proof.
  induction paths as [|p rest IH]; intros acc Hex; [now inversion Hex|].
  simpl. destruct (String.eqb p "") eqn:Hp.
  - apply IH. inversion Hex as [? ? Habs|]; subst; [|assumption].
    apply String.eqb_eq in Hp. subst. discriminate.
  - destruct (Path.isAbsolute p) eqn:Habs; [reflexivity|].
    apply IH. inversion Hex as [? ? Habs'|]; subst; [congruence|assumption].
Qed.

(** With an absolute working directory, [path.resolve] returns a normal
    absolute path. *)
Lemma resolve_normal cwd args :
  Path.isAbsolute cwd = true -> Path.normal (Path.resolve cwd args) = true.
Proof.
  intros Hcwd. apply normal_spec. unfold Path.resolve.
  pose proof (resolve_loop_absolute (rev args ++ [cwd]) "") as Habs.
  destruct (Path.resolve_loop (rev args ++ [cwd]) "") as [resolvedPath resolvedAbsolute].
  simpl in Habs. rewrite Habs.
  - eexists. split; [reflexivity|].
    apply normalize_fold_proper; [constructor|apply split_pieces_no_sep].
  - apply Exists_app. right. now constructor.
Qed.

(** Resolving a normal path gives it back. *)
Lemma resolve_normal_id cwd p : Path.normal p = true -> Path.resolve cwd [p] = p.
Proof.
  intros Hn. apply normal_spec in Hn as (segs & -> & Hall).
  unfold Path.resolve. simpl rev. simpl app.
  change (Path.resolve_loop [Path.render segs; cwd] "")
    with (Path.render segs +:+ String "/" "", true).
  unfold Path.normalizeString, Path.normalize_segments.
  rewrite split_app_sep, (split_render _ Hall). cbn [negb].
  rewrite normalize_fold_clean.
  - simpl. rewrite List.filter_app. simpl. rewrite app_nil_r.
    destruct segs as [|x rest]; [reflexivity|].
    now rewrite (filter_proper_id _ Hall).
  - constructor; [now left|]. apply Forall_app. split.
    + destruct segs as [|x rest]; [constructor; [now left|constructor]|].
      eapply Forall_impl; [exact Hall|]. intros; now right.
    + simpl. constructor; [now left|constructor].
Qed.

Lemma strip_common_spec from to :
  exists common,
    from = common ++ fst (Path.strip_common from to)
    /\ to = common ++ snd (Path.strip_common from to).
Proof.
  revert to. induction from as [|f from IH]; intros to.
  - now exists [].
  - destruct to as [|t to]; [now exists []|]. simpl.
    destruct (String.eqb f t) eqn:Hft; [|now exists []].
    apply String.eqb_eq in Hft. subst t.
    destruct (IH to) as (common & H1 & H2).
    exists (f :: common). simpl. split; congruence.
Qed.

Lemma is_prefix_app l extra : Path.is_prefix l (l ++ extra) = true.
Proof. induction l as [|x l IH]; simpl; [reflexivity|]. now rewrite String.eqb_refl. Qed.

Lemma join_dotdot_starts rest : Js.startsWith ".." (Js.join "/" (".." :: rest)) = true.
Proof. destruct rest; reflexivity. Qed.

End PathFacts.

(** ** Static path resolution stays inside the root *)

Section StaticPathFacts.
Context `{HostRuntime}.

Lemma isWithin_prefix root target :
  Path.normal root = true -> Path.normal target = true ->
  isWithin root target = true ->
  Path.is_prefix (Path.segments root) (Path.segments target) = true.
Proof.
  intros Hroot Htarget Hin. unfold isWithin, Path.relative in Hin.
  destruct (String.eqb root target) eqn:Hsame.
  - apply String.eqb_eq in Hsame. subst target.
    rewrite <- (app_nil_r (Path.segments root)) at 2. apply is_prefix_app.
  - rewrite (resolve_normal_id _ _ Hroot), (resolve_normal_id _ _ Htarget), Hsame in Hin.
    destruct (strip_common_spec (Path.segments root) (Path.segments target))
      as (common & Hfrom & Hto).
    destruct (Path.strip_common (Path.segments root) (Path.segments target)) as [up down].
    simpl in Hfrom, Hto. destruct up as [|u up].
    + rewrite app_nil_r in Hfrom. rewrite Hto, <- Hfrom. apply is_prefix_app.
    + simpl repeat in Hin. simpl app in Hin. rewrite join_dotdot_starts in Hin. discriminate.
Qed.

Lemma isWithin_lexically_within root target :
  Path.normal root = true -> Path.normal target = true ->
  isWithin root target = true -> Path.lexically_within root target = true.
Proof.
  intros Hroot Htarget Hin. unfold Path.lexically_within.
  now rewrite Hroot, Htarget, (isWithin_prefix _ _ Hroot Htarget Hin).
Qed.

Lemma normalise_walk_proper safe segment :
  Forall proper safe -> Js.has_char "/" segment = false ->
  Forall proper (normalise_walk safe segment).
Proof.
  intros Hsafe Hseg. unfold normalise_walk.
  destruct (String.eqb segment "") eqn:E1; [assumption|].
  destruct (String.eqb segment ".") eqn:E2; [assumption|]. simpl.
  destruct (String.eqb segment "..") eqn:E3; [now apply Forall_removelast|].
  unfold Js.push. apply Forall_app. split; [assumption|].
  constructor; [|constructor]. now apply proper_intro.
Qed.

Lemma normalise_fold_proper segments : forall safe,
  Forall proper safe -> Forall (fun x => Js.has_char "/" x = false) segments ->
  Forall proper (fold_left normalise_walk segments safe).
Proof.
  induction segments as [|seg segments IH]; simpl; [easy|].
  intros safe Hsafe Hall. inversion Hall; subst.
  apply IH; [|assumption]. now apply normalise_walk_proper.
Qed.

Lemma removelast_length {A} (l : list A) : length (removelast l) = pred (length l).
Proof.
  induction l as [|x l IH]; [reflexivity|]. simpl.
  destruct l; [reflexivity|]. simpl in *. now rewrite IH.
Qed.

(** C1. Whatever the configured directory, the index file name and the
    decoded relative path are, [resolveStaticPath] answers [null] or a
    normal absolute path whose segments begin with those of the root, so
    a path with [..] segments cannot leave the root.  The segment walk
    keeps only proper segments, and a [..] removes one segment of the
    accumulator when there is one and leaves an empty accumulator empty. *)
Theorem resolveStaticPath_within_root (dir indexFile relative : string) :
  Path.isAbsolute cwd = true ->
  let root := Path.resolve cwd [dir] in
  match resolveStaticPath root relative indexFile with
  | None => True
  | Some target => Path.lexically_within root target = true
  end
  /\ Forall proper (fold_left normalise_walk (Js.split "/" relative) [])
  /\ (forall safe, length (normalise_walk safe "..") = pred (length safe))
  /\ normalise_walk [] ".." = [].
Proof.
  intros Hcwd root. repeat split.
  - assert (Hroot : Path.normal root = true) by now apply resolve_normal.
    unfold resolveStaticPath.
    destruct (isWithin root (Path.resolve cwd [root; normaliseRelativePath relative])) eqn:Hprimary;
      simpl; [|exact I].
    destruct (file_exists _).
    + apply isWithin_lexically_within; auto using resolve_normal.
    + match goal with |- context [isWithin root ?w] => destruct (isWithin root w) eqn:Hindex end;
        simpl; [|exact I].
      destruct (file_exists _); [|exact I].
      apply isWithin_lexically_within; auto using resolve_normal.
  - apply normalise_fold_proper; [constructor|apply split_pieces_no_sep].
  - intros safe. apply removelast_length.
Qed.

End StaticPathFacts.

(** ** Base headers never overwrite *)

Section HeaderFacts.

Lemma lower_char_idem c : Js.lower_char (Js.lower_char c) = Js.lower_char c.
Proof. destruct c as [[] [] [] [] [] [] [] []]; reflexivity. Qed.

Lemma toLowerCase_idem s : Js.toLowerCase (Js.toLowerCase s) = Js.toLowerCase s.
Proof.
  induction s as [|c s IH]; [reflexivity|].
  unfold Js.toLowerCase in *. simpl. now rewrite lower_char_idem, IH.
Qed.







End HeaderFacts.

(** ** Response normalisation *)

Section NormaliseFacts.
Context `{HostRuntime}.

Lemma Response_new_plain (b : Body) (init_status : option nat) :
  Response_new b init_status None
  = {| status := default 200 init_status; headers := implicit_headers b; body := b |}.
Proof.
  unfold Response_new, implicit_headers, Headers.has, Headers.append.
  cbv [default from_option id]. change (Js.toLowerCase "content-type") with "content-type".
  destruct (recorded_content_type b) as [ct|]; [|reflexivity].
  rewrite lookup_empty. rewrite bool_decide_eq_false_2 by (intros [? ?]; discriminate).
  reflexivity.
Qed.

Lemma implicit_headers_get (b : Body) :
  Headers.get (implicit_headers b) "content-type" = recorded_content_type b.
Proof.
  unfold implicit_headers, Headers.get.
  change (Js.toLowerCase "content-type") with "content-type".
  destruct (recorded_content_type b) as [ct|];
    [now rewrite lookup_singleton_eq|now rewrite lookup_empty].
Qed.

Lemma normaliseResponse_unmerged (result : JsValue) :
  normaliseResponse result None = normalised_by_variant result.
Proof.
  destruct result as [| | | | |[]| |data| | |]; try reflexivity;
    cbv [normaliseResponse as_Response typeof JsType_eqb isBinaryLike orb applyBaseHeaders
         String_of normalised_by_variant text_response];
    rewrite ?Response_new_plain; reflexivity.
Qed.


End NormaliseFacts.

(** ** Method tables *)

Section MethodTableFacts.
Context `{HostRuntime}.









End MethodTableFacts.

Section MethodTableTheorems.
Context `{HostRuntime}.

Lemma set_add_elem s x y : In y (set_add s x) <-> In y s \/ y = x.
Proof.
  unfold set_add. case_bool_decide as Hx.
  - split; [now left|]. intros [Hy| ->]; [assumption|]. now apply list_elem_of_In.
  - rewrite in_app_iff. simpl. intuition.
Qed.







End MethodTableTheorems.


Section MethodKeyTheorems.
Context `{HostRuntime}.






End MethodKeyTheorems.

(** ** The order of request handling *)

Section ServerFacts.
Context `{HostRuntime}.

Lemma object_set_fresh {V} (obj : list (string * V)) key value :
  ~ In key (map fst obj) -> object_set obj key value = obj ++ [(key, value)].
Proof.
  induction obj as [|[k v] rest IH]; simpl; [reflexivity|]. intros Hfresh.
  destruct (String.eqb_spec k key); [tauto|]. rewrite IH; tauto.
Qed.

Lemma object_get_app {V} (a b : list (string * V)) key :
  object_get (a ++ b) key
  = match object_get a key with Some v => Some v | None => object_get b key end.
Proof.
  induction a as [|[k v] rest IH]; simpl; [reflexivity|].
  now destruct (String.eqb k key).
Qed.

Lemma mapRoutes_loop_handlers baseHeaders onError table : forall acc mapped,
  mapRoutes_loop table baseHeaders onError acc = Return mapped ->
  NoDup (map fst acc ++ map fst table) ->
  exists made, mapped = acc ++ made /\ handlers_of baseHeaders onError table made.
Proof.
  induction table as [|[pattern entry] rest IH]; intros acc mapped; simpl.
  - intros [= <-] _. exists []. split; [now rewrite app_nil_r|constructor].
  - destruct (createRouteHandler entry pattern baseHeaders onError) as [handler|e] eqn:Hmake;
      simpl; [|discriminate].
    intros Hrun Hnd.
    assert (Hfresh : ~ In pattern (map fst acc)).
    { apply NoDup_app in Hnd as (_ & Hdisj & _). intros Hin.
      apply (Hdisj pattern); [now apply list_elem_of_In|]. now left. }
    rewrite (object_set_fresh _ _ _ Hfresh) in Hrun.
    destruct (IH _ _ Hrun) as (made & -> & Hmade).
    { rewrite map_app. simpl. now rewrite <- app_assoc. }
    exists ((pattern, handler) :: made). split; [now rewrite <- app_assoc|].
    constructor; [easy|assumption].
Qed.

Lemma handlers_of_patterns baseHeaders onError table mapped :
  handlers_of baseHeaders onError table mapped -> map fst mapped = map fst table.
Proof. induction 1 as [|[p e] [p' h] ? ? [Hp _] _ IH]; simpl in *; congruence. Qed.

Lemma handlers_of_get baseHeaders onError table mapped pattern :
  handlers_of baseHeaders onError table mapped ->
  match object_get table pattern with
  | Some entry =>
      exists handler,
        object_get mapped pattern = Some handler
        /\ createRouteHandler entry pattern baseHeaders onError = Return handler
  | None => object_get mapped pattern = None
  end.
Proof.
  induction 1 as [|[p e] [p' h] ? ? [Hp Hmake] _ IH]; simpl in *; [reflexivity|].
  subst p'. destruct (String.eqb_spec p pattern); [subst; eauto|exact IH].
Qed.





(** A created server hands each request to the runtime's router first
    and to [fetchHandler] only when no route is selected. *)
Lemma createServer_serves options server request :
  createServer options = Return server ->
  distinct_patterns options ->
  match route_selected options request with
  | Some (pattern, entry) =>
      exists handler,
        createRouteHandler entry pattern (baseHeaders options) (onError options) = Return handler
        /\ server request = handler request
  | None =>
      server request
      = fetchHandler (buildStaticHandlers (static options)) (notFound options)
          (onError options) (baseHeaders options) request
  end.
Proof.
  unfold createServer, distinct_patterns, route_selected.
  destruct (routes options) as [table|]; simpl.
  - unfold mapRoutes.
    destruct (mapRoutes_loop table (baseHeaders options) (onError options) []) as [mapped|e] eqn:Hmap;
      simpl; [|discriminate].
    intros [= <-] Hnd.
    destruct (mapRoutes_loop_handlers _ _ _ _ _ Hmap Hnd) as (made & -> & Hmade).
    simpl. unfold Bun_serve. rewrite (handlers_of_patterns _ _ _ _ Hmade).
    destruct (select_route (map fst table) (pathname request)) as [pattern|]; [|reflexivity].
    pose proof (handlers_of_get _ _ _ _ pattern Hmade) as Hget.
    destruct (object_get table pattern) as [entry|].
    + destruct Hget as (handler & -> & Hmake). eauto.
    + now rewrite Hget.
  - now intros [= <-] _.
Qed.


End ServerFacts.


(** ** Hydration needs a module reference *)

Section JsxFacts.
Context `{JsxHost}.

Lemma normalize_without_reference spec baseDir descriptor :
  has_module_reference spec = false ->
  normalizeComponentSpec spec baseDir = Return descriptor ->
  reference descriptor = None.
Proof.
  destruct spec as [specifier|fn|module export|fn [module|] export|]; simpl; try discriminate.
  - now intros _ [= <-].
  - intros Hempty [= <-]. simpl. apply negb_false_iff in Hempty. now rewrite Hempty.
  - now intros _ [= <-].
Qed.

Lemma ensure_hydratable_ok route hydrate descriptor isNotFound :
  ensureHydratableCapability route hydrate descriptor isNotFound = Return tt ->
  wantsHydration hydrate = true -> reference descriptor <> None.
Proof.
  unfold ensureHydratableCapability. intros Hok Hwants Hnone.
  rewrite Hwants, Hnone in Hok. rewrite bool_decide_eq_false_2 in Hok; [discriminate|].
  intros [? ?]. discriminate.
Qed.

Lemma buildComponentDescriptors_loop_made baseDir pages : forall acc made,
  buildComponentDescriptors_loop pages baseDir acc = Return made ->
  NoDup (map fst acc ++ map fst pages) ->
  exists fresh, made = acc ++ fresh /\ descriptors_of baseDir pages fresh.
Proof.
  induction pages as [|[route page] rest IH]; intros acc made; simpl.
  - intros [= <-] _. exists []. split; [now rewrite app_nil_r|constructor].
  - destruct (normalizeComponentSpec (page_component page) baseDir) as [descriptor|e] eqn:Hnorm;
      simpl; [|discriminate].
    intros Hrun Hnd.
    assert (Hfresh : ~ In route (map fst acc)).
    { apply NoDup_app in Hnd as (_ & Hdisj & _). intros Hin.
      apply (Hdisj route); [now apply list_elem_of_In|]. now left. }
    rewrite (object_set_fresh _ _ _ Hfresh) in Hrun.
    destruct (IH _ _ Hrun) as (fresh & -> & Hmade).
    { rewrite map_app. simpl. now rewrite <- app_assoc. }
    exists ((route, descriptor) :: fresh). split; [now rewrite <- app_assoc|].
    constructor; [easy|assumption].
Qed.

Lemma check_pages_checked pages entries : forall acc bundle,
  check_pages entries pages acc = Return bundle ->
  Forall (fun entry =>
            exists page,
              object_get pages entry.1 = Some page
              /\ ensureHydratableCapability entry.1 (hydrate page) entry.2 false = Return tt)
         entries.
Proof.
  induction entries as [|[route descriptor] rest IH]; intros acc bundle; simpl; [constructor|].
  destruct (object_get pages route) as [page|] eqn:Hpage; [|discriminate].
  destruct (ensureHydratableCapability route (hydrate page) descriptor false) as [[]|e] eqn:Hok;
    simpl; [|discriminate].
  intros Hrun. constructor; [eauto|]. eapply IH; eauto.
Qed.

Lemma object_get_distinct {V} (obj : list (string * V)) key value :
  NoDup (map fst obj) -> In (key, value) obj -> object_get obj key = Some value.
Proof.
  induction obj as [|[k v] rest IH]; [easy|]. simpl. intros Hnd Hin.
  inversion Hnd as [|? ? Hfresh Hrest]; subst. rewrite list_elem_of_In in Hfresh.
  destruct Hin as [[= -> ->]|Hin]; [now rewrite String.eqb_refl|].
  destruct (String.eqb_spec k key) as [->|_]; [|now apply IH].
  exfalso. apply Hfresh. apply in_map_iff. now exists (key, value).
Qed.

Lemma descriptors_of_elem baseDir pages made route page :
  descriptors_of baseDir pages made -> In (route, page) pages ->
  exists descriptor,
    In (route, descriptor) made
    /\ normalizeComponentSpec (page_component page) baseDir = Return descriptor.
Proof.
  induction 1 as [|[r p] [r' d] ? ? [Hr Hnorm] _ IH]; [easy|]. simpl in *. subst r'.
  intros [[= -> ->]|Hin].
  - exists d. split; [now left|assumption].
  - destruct (IH Hin) as (descriptor & Hd & Hn). exists descriptor. split; [now right|assumption].
Qed.

(** A page of the page table that hydrates without a module reference
    stops the preparation. *)
Lemma prepare_fails_on_page input route page :
  NoDup (map fst (pages input)) ->
  In (route, page) (pages input) ->
  hydrates_without_reference page = true ->
  exists e, prepareJSXEnvironment input = Throw e.
Proof.
  intros Hnd Hin Hbad. apply andb_true_iff in Hbad as [Hwants Hnoref].
  apply negb_true_iff in Hnoref. unfold prepareJSXEnvironment.
  destruct (pages input) as [|first others] eqn:Hpages; [easy|].
  rewrite <- Hpages in *. replace (length (pages input) =? 0)%nat with false
    by (rewrite Hpages; reflexivity).
  unfold buildComponentDescriptors.
  destruct (buildComponentDescriptors_loop (pages input) (baseDir input) []) as [made|e] eqn:Hbuild;
    simpl; [|eauto].
  destruct (buildComponentDescriptors_loop_made _ _ _ _ Hbuild Hnd) as (fresh & -> & Hmade).
  simpl. destruct (check_pages fresh (pages input) []) as [bundle|e] eqn:Hcheck; simpl; [|eauto].
  exfalso.
  destruct (descriptors_of_elem _ _ _ _ _ Hmade Hin) as (descriptor & Hd & Hnorm).
  pose proof (check_pages_checked _ _ _ _ Hcheck) as Hchecked.
  rewrite List.Forall_forall in Hchecked.
  destruct (Hchecked _ Hd) as (page' & Hget & Hok). simpl in Hget, Hok.
  rewrite (object_get_distinct _ _ _ Hnd Hin) in Hget. injection Hget as <-.
  apply (ensure_hydratable_ok _ _ _ _ Hok Hwants).
  eapply normalize_without_reference; eauto.
Qed.

(** So does a not-found page that hydrates without a module reference. *)
Lemma prepare_fails_on_notFoundPage input page :
  notFoundPage input = Some page ->
  hydrates_without_reference page = true ->
  exists e, prepareJSXEnvironment input = Throw e.
Proof.
  intros Hpage Hbad. apply andb_true_iff in Hbad as [Hwants Hnoref].
  apply negb_true_iff in Hnoref. unfold prepareJSXEnvironment.
  destruct (length (pages input) =? 0)%nat; [eauto|].
  destruct (buildComponentDescriptors _ _) as [made|e]; simpl; [|eauto].
  destruct (check_pages _ _ _) as [bundle|e]; simpl; [|eauto].
  destruct (truthy_layout (layout input)) as [layout|]; simpl.
  - destruct (normalizeComponentSpec layout _) as [d|e]; simpl; [|eauto].
    rewrite Hpage.
    destruct (normalizeComponentSpec (page_component page) _) as [descriptor|e] eqn:Hnorm;
      simpl; [|eauto].
    unfold ensureHydratableCapability.
    rewrite Hwants, (normalize_without_reference _ _ _ Hnoref Hnorm).
    rewrite bool_decide_eq_false_2 by (intros [? ?]; discriminate). simpl. eauto.
  - rewrite Hpage.
    destruct (normalizeComponentSpec (page_component page) _) as [descriptor|e] eqn:Hnorm;
      simpl; [|eauto].
    unfold ensureHydratableCapability.
    rewrite Hwants, (normalize_without_reference _ _ _ Hnoref Hnorm).
    rewrite bool_decide_eq_false_2 by (intros [? ?]; discriminate). simpl. eauto.
Qed.

(** C8. When a page of the page table, or the not-found page, asks for
    hydration (its [hydrate] is left out, is [true] or is a function) and
    its component names no module to load, preparing the JSX environment
    throws, and so does [createJSXServer], which prepares before it builds
    or serves anything: the error belongs to setup.  A page whose
    [hydrate] is [false] passes the hydration check whatever its component. *)
Theorem hydration_without_module_fails_setup (options : JSXServerOptions) :
  NoDup (map fst (jsx_pages options)) ->
  (exists route page,
      In (route, page) (jsx_pages options) /\ hydrates_without_reference page = true)
  \/ (exists page,
        jsx_notFoundPage options = Some page /\ hydrates_without_reference page = true) ->
  (exists e,
      prepareJSXEnvironment (prepare_input_of options) = Throw e
      /\ createJSXServer options = Throw e)
  /\ (forall route descriptor isNotFound,
        ensureHydratableCapability route (Some (HydrateBool false)) descriptor isNotFound
        = Return tt).
Proof.
  intros Hnd Hbad. split; [|reflexivity].
  assert (Hthrow : exists e, prepareJSXEnvironment (prepare_input_of options) = Throw e).
  { destruct Hbad as [(route & page & Hin & Hpage)|(page & Hnf & Hpage)].
    - now apply (prepare_fails_on_page (prepare_input_of options) route page).
    - now apply (prepare_fails_on_notFoundPage (prepare_input_of options) page). }
  destruct Hthrow as [e He]. exists e. split; [exact He|].
  unfold createJSXServer. unfold prepare_input_of in He. now rewrite He.
Qed.

End JsxFacts.

(** ** The bootstrap payload *)

Section ScriptFacts.

Lemma startsWith_true p : forall s,
  Js.startsWith p s = true -> exists rest, s = p +:+ rest.
Proof.
  induction p as [|a p IH]; intros s; simpl; [eauto|].
  destruct s as [|b s]; [discriminate|]. intros Hs.
  apply andb_true_iff in Hs as [Hab Hp]. apply Ascii.eqb_eq in Hab. subst b.
  destruct (IH _ Hp) as [rest ->]. eauto.
Qed.

Lemma replaceAll_nomatch pat rep c s :
  Js.startsWith pat (String c s) = false ->
  Js.replaceAll pat rep (String c s) = String c (Js.replaceAll pat rep s).
Proof. intros Hno. unfold Js.replaceAll. cbn [Js.replace_go]. now rewrite Hno. Qed.

Lemma ascii_eqb_other (a b : ascii) : b <> a -> Ascii.eqb a b = false.
Proof. intros Hne. apply Ascii.eqb_neq. congruence. Qed.

Lemma replaceAll_lt s : Js.replaceAll "<" "\u003c" s = escape_lt s.
Proof.
  induction s as [|c s IH]; [reflexivity|]. cbn [escape_lt].
  destruct (Ascii.eqb_spec c "<") as [->|Hc].
  - unfold Js.replaceAll in *. cbn [Js.replace_go Js.startsWith].
    rewrite Ascii.eqb_refl. cbn [andb String.length Nat.sub]. now rewrite IH.
  - rewrite replaceAll_nomatch, IH; [reflexivity|].
    cbn [Js.startsWith]. now rewrite ascii_eqb_other.
Qed.

Lemma escape_lt_clean s : Js.includes "<" (escape_lt s) = false.
Proof.
  induction s as [|c s IH]; [reflexivity|]. cbn [escape_lt].
  destruct (Ascii.eqb_spec c "<") as [->|Hc].
  - simpl. exact IH.
  - cbn [Js.includes Js.startsWith]. now rewrite IH, ascii_eqb_other.
Qed.

Lemma startsWith_cons a p b s :
  Js.startsWith (String a p) (String b s) = Ascii.eqb a b && Js.startsWith p s.
Proof. reflexivity. Qed.

Lemma startsWith_app p rest : Js.startsWith p (p +:+ rest) = true.
Proof. induction p as [|a p IH]; [reflexivity|]. simpl. now rewrite Ascii.eqb_refl. Qed.

Lemma replace_go_skips pat rep q : forall rest,
  Js.replace_go pat rep (String.length q) (q +:+ rest) = Js.replace_go pat rep 0 rest.
Proof. induction q as [|c q IH]; intros rest; [reflexivity|]. simpl. apply IH. Qed.

(** A match is replaced and the scan goes on after it. *)
Lemma replaceAll_match a p rep rest :
  Js.replaceAll (String a p) rep (String a p +:+ rest)
  = rep +:+ Js.replaceAll (String a p) rep rest.
Proof.
  unfold Js.replaceAll. change (String a p +:+ rest) with (String a (p +:+ rest)).
  cbn [Js.replace_go]. change (String a (p +:+ rest)) with (String a p +:+ rest).
  rewrite startsWith_app. cbn [String.length]. rewrite Nat.sub_1_r. cbn [Nat.pred].
  now rewrite replace_go_skips.
Qed.

(** When the replacement begins like the pattern, the first character of
    the text is kept. *)
Lemma replaceAll_first a p r c s :
  Js.startsWith (String c "") (Js.replaceAll (String a p) (String a r) s)
  = Js.startsWith (String c "") s.
Proof.
  destruct s as [|b s]; [reflexivity|].
  destruct (Js.startsWith (String a p) (String b s)) eqn:Hmatch.
  - destruct (startsWith_true _ _ Hmatch) as [rest Hrest]. rewrite Hrest, replaceAll_match.
    reflexivity.
  - now rewrite replaceAll_nomatch.
Qed.

Lemma close_tag_clean n : forall s,
  (String.length s <= n)%nat -> Js.includes "</" (Js.replaceAll "</" "<\/" s) = false.
Proof.
  induction n as [|n IH]; intros s Hlen.
  - destruct s; [reflexivity|simpl in Hlen; lia].
  - destruct s as [|c s]; [reflexivity|].
    destruct (Js.startsWith "</" (String c s)) eqn:Hmatch.
    + destruct (startsWith_true _ _ Hmatch) as [rest Hrest]. rewrite Hrest, replaceAll_match.
      assert (Hrec : Js.includes "</" (Js.replaceAll "</" "<\/" rest) = false).
      { apply IH. rewrite Hrest in Hlen. cbv [String.append] in Hlen. simpl in Hlen. lia. }
      revert Hrec. generalize (Js.replaceAll "</" "<\/" rest). intros t Ht. cbv [String.append]. simpl. exact Ht.
    + rewrite replaceAll_nomatch by assumption. cbn [Js.includes].
      rewrite (IH s) by (simpl in Hlen; lia). rewrite orb_false_r.
      rewrite startsWith_cons in *. now rewrite (replaceAll_first "<" "/" "\/" "/" s).
Qed.

Lemma comment_end_second s :
  Js.startsWith "->" (Js.replaceAll "-->" "--\>" s) = Js.startsWith "->" s.
Proof.
  destruct s as [|b s]; [reflexivity|].
  destruct (Js.startsWith "-->" (String b s)) eqn:Hmatch.
  - destruct (startsWith_true _ _ Hmatch) as [rest Hrest]. rewrite Hrest, replaceAll_match.
    reflexivity.
  - rewrite replaceAll_nomatch by assumption. rewrite !(startsWith_cons "-").
    now rewrite (replaceAll_first "-" "->" "-\>" ">" s).
Qed.

Lemma comment_end_clean n : forall s,
  (String.length s <= n)%nat -> Js.includes "-->" (Js.replaceAll "-->" "--\>" s) = false.
Proof.
  induction n as [|n IH]; intros s Hlen.
  - destruct s; [reflexivity|simpl in Hlen; lia].
  - destruct s as [|c s]; [reflexivity|].
    destruct (Js.startsWith "-->" (String c s)) eqn:Hmatch.
    + destruct (startsWith_true _ _ Hmatch) as [rest Hrest]. rewrite Hrest, replaceAll_match.
      assert (Hrec : Js.includes "-->" (Js.replaceAll "-->" "--\>" rest) = false).
      { apply IH. rewrite Hrest in Hlen. cbv [String.append] in Hlen. simpl in Hlen. lia. }
      revert Hrec. generalize (Js.replaceAll "-->" "--\>" rest). intros t Ht. cbv [String.append]. simpl. exact Ht.
    + rewrite replaceAll_nomatch by assumption. cbn [Js.includes].
      rewrite (IH s) by (simpl in Hlen; lia). rewrite orb_false_r.
      rewrite startsWith_cons in *. now rewrite comment_end_second.
Qed.

(** Escaping the comment ends brings no closing tag in. *)
Lemma comment_end_keeps_clean n : forall s,
  (String.length s <= n)%nat ->
  Js.includes "</" s = false -> Js.includes "</" (Js.replaceAll "-->" "--\>" s) = false.
Proof.
  induction n as [|n IH]; intros s Hlen Hclean.
  - destruct s; [reflexivity|simpl in Hlen; lia].
  - destruct s as [|c s]; [reflexivity|].
    destruct (Js.startsWith "-->" (String c s)) eqn:Hmatch.
    + destruct (startsWith_true _ _ Hmatch) as [rest Hrest]. rewrite Hrest, replaceAll_match.
      assert (Hrec : Js.includes "</" (Js.replaceAll "-->" "--\>" rest) = false).
      { apply IH; [rewrite Hrest in Hlen; cbv [String.append] in Hlen; simpl in Hlen; lia|].
        rewrite Hrest in Hclean. cbv [String.append] in Hclean. simpl in Hclean. exact Hclean. }
      revert Hrec. generalize (Js.replaceAll "-->" "--\>" rest). intros t Ht. cbv [String.append]. simpl. exact Ht.
    + rewrite replaceAll_nomatch by assumption.
      cbn [Js.includes] in *. apply orb_false_iff in Hclean as [Hhere Hlater].
      rewrite (IH s) by (simpl in Hlen; lia || assumption). rewrite orb_false_r.
      rewrite startsWith_cons in *. now rewrite (replaceAll_first "-" "->" "-\>" "/" s).
Qed.

End ScriptFacts.

Section PayloadTheorem.
Context `{HostRuntime}.

Lemma sanitizeScript_clean value :
  Js.includes "</" (sanitizeScript value) = false
  /\ Js.includes "-->" (sanitizeScript value) = false.
Proof.
  unfold sanitizeScript. split.
  - eapply comment_end_keeps_clean; [reflexivity|]. eapply close_tag_clean. reflexivity.
  - eapply comment_end_clean. reflexivity.
Qed.

(** C9. Whatever the props are, their serialised payload is their JSON
    text with every [<] written as its escape, so it holds no [<]; and
    the inline bootstrap script that carries the route and the payload
    holds neither a closing-tag opener nor an HTML comment end. *)
Theorem bootstrap_payload_is_escaped
    (props : JsObject) (hydrate : bool) (route scriptPath : string)
    (serializedProps : option string) :
  serializeProps props = escape_lt (JSON_stringify props)
  /\ Js.includes "<" (serializeProps props) = false
  /\ match HyperBunHydrationScripts hydrate route scriptPath serializedProps with
     | Some scripts =>
         Js.includes "</" (bootstrap scripts) = false
         /\ Js.includes "-->" (bootstrap scripts) = false
     | None => hydrate = false
     end.
Proof.
  unfold serializeProps. rewrite replaceAll_lt. split; [reflexivity|].
  split; [apply escape_lt_clean|].
  unfold HyperBunHydrationScripts. destruct hydrate; [|reflexivity].
  cbn [negb bootstrap]. apply sanitizeScript_clean.
Qed.

End PayloadTheorem.

(** ** The theorems at work on the example configurations *)

(** [../../etc/passwd] is looked up under the root: it resolves to the
    file of that name inside the root when there is one, and to nothing
    when there is none. *)
Example traversal_stays_under_root :
  resolveStaticPath (H := example_disk (fun _ => true))
    "/srv/app/public" "../../etc/passwd" "index.html"
  = Some "/srv/app/public/etc/passwd"
  /\ resolveStaticPath (H := example_runtime)
       "/srv/app/public" "../../etc/passwd" "index.html"
     = None.
Proof. split; reflexivity. Qed.

(** A traversal attempt under the public directory of the example runtime
    resolves to the index file inside the root. *)
Lemma resolveStaticPath_within_root_witness :
  Path.isAbsolute (cwd (HostRuntime := example_runtime)) = true
  /\ resolveStaticPath (H := example_runtime) "/srv/app/public" "../../etc/.." "index.html"
     = Some "/srv/app/public/index.html"
  /\ Path.lexically_within "/srv/app/public" "/srv/app/public/index.html" = true.
Proof.
  split; [reflexivity|]. split; [reflexivity|].
  exact (proj1 (resolveStaticPath_within_root (H := example_runtime)
                  "public" "index.html" "../../etc/.." eq_refl)).
Defined.




(** A page given by its component alone, [hydrate] left out, stops the
    JSX server at setup. *)
Lemma hydration_without_module_fails_setup_witness :
  NoDup (map fst (jsx_pages example_jsx_options))
  /\ In ("/", example_component_page) (jsx_pages example_jsx_options)
  /\ hydrates_without_reference example_component_page = true
  /\ exists e, createJSXServer (H0 := example_jsx_host) example_jsx_options = Throw e.
Proof.
  assert (Hdistinct : NoDup (map fst (jsx_pages example_jsx_options))).
  { apply NoDup_cons_2; [apply not_elem_of_nil|apply NoDup_nil_2]. }
  split; [exact Hdistinct|]. split; [now left|]. split; [reflexivity|].
  destruct (hydration_without_module_fails_setup (H0 := example_jsx_host) example_jsx_options
              Hdistinct
              (or_introl (ex_intro _ "/" (ex_intro _ example_component_page
                                            (conj (or_introl eq_refl) eq_refl)))))
    as ((e & _ & Hthrow) & _).
  exists e. exact Hthrow.
Defined.

(** * Further properties of the code *)

(** ** Prefixes and relative paths *)

Section PrefixFacts.
Context `{HostRuntime}.

Lemma endsWith_slash_app p : Js.endsWith_slash (p +:+ "/") = true.
Proof.
  induction p as [|c p IH]; [reflexivity|].
  change (String c p +:+ "/") with (String c (p +:+ "/")).
  destruct p as [|d p]; [reflexivity|].
  change (String d p +:+ "/") with (String d (p +:+ "/")) in *.
  exact IH.
Qed.

Lemma startsWith_slash_app p q :
  Js.startsWith "/" p = true -> Js.startsWith "/" (p +:+ q) = true.
Proof. destruct p as [|c p]; [discriminate|]. intros Hp. exact Hp. Qed.

Lemma sanitisePrefix_fixed prefix :
  Js.startsWith "/" prefix = true -> Js.endsWith_slash prefix = true ->
  sanitisePrefix prefix = prefix.
Proof. intros Hs He. unfold sanitisePrefix. rewrite Hs. cbn [negb]. now rewrite He. Qed.

Lemma sanitisePrefix_shape prefix :
  Js.startsWith "/" (sanitisePrefix prefix) = true
  /\ Js.endsWith_slash (sanitisePrefix prefix) = true.
Proof.
  unfold sanitisePrefix.
  set (p1 := if negb (Js.startsWith "/" prefix) then "/" +:+ prefix else prefix).
  assert (Hp1 : Js.startsWith "/" p1 = true).
  { subst p1. destruct (Js.startsWith "/" prefix) eqn:Hs; [exact Hs|reflexivity]. }
  destruct (Js.endsWith_slash p1) eqn:He; simpl.
  - now split.
  - split; [now apply startsWith_slash_app|apply endsWith_slash_app].
Qed.

(** X1. [sanitisePrefix] always gives a prefix that begins and ends with
    a slash, leaves such a prefix as it is, and so changes nothing when
    it is applied a second time. *)
Theorem sanitisePrefix_slashes (prefix : string) :
  Js.startsWith "/" (sanitisePrefix prefix) = true
  /\ Js.endsWith_slash (sanitisePrefix prefix) = true
  /\ sanitisePrefix (sanitisePrefix prefix) = sanitisePrefix prefix
  /\ (Js.startsWith "/" prefix && Js.endsWith_slash prefix = true ->
      sanitisePrefix prefix = prefix).
Proof.
  destruct (sanitisePrefix_shape prefix) as [Hs He].
  repeat split; try assumption.
  - now apply sanitisePrefix_fixed.
  - intros Hboth. apply andb_true_iff in Hboth as [H1 H2]. now apply sanitisePrefix_fixed.
Qed.

Lemma normalise_fold_clean segs : forall safe,
  Forall proper segs -> fold_left normalise_walk segs safe = safe ++ segs.
Proof.
  induction segs as [|seg segs IH]; simpl; intros safe Hall; [now rewrite app_nil_r|].
  inversion Hall as [|? ? Hseg Hrest]; subst. rewrite (IH _ Hrest).
  destruct (proper_inv _ Hseg) as (H1 & H2 & H3 & _).
  apply String.eqb_neq in H1, H2, H3.
  unfold normalise_walk. rewrite H1, H2, H3. simpl. unfold Js.push. now rewrite <- app_assoc.
Qed.

Lemma join_proper_not_absolute segs :
  Forall proper segs -> Path.isAbsolute (Js.join "/" segs) = false.
Proof.
  intros Hall. destruct segs as [|seg rest]; [reflexivity|].
  inversion Hall as [|? ? Hseg _]; subst.
  destruct (proper_inv _ Hseg) as (Hne & _ & _ & Hslash).
  destruct seg as [|c seg]; [easy|]. simpl in Hslash.
  apply orb_false_iff in Hslash as [Hc _].
  assert (Hhead : Js.startsWith "/" (String c seg) = false)
    by (rewrite startsWith_cons, Ascii.eqb_sym, Hc; reflexivity).
  unfold Path.isAbsolute. destruct rest as [|next rest]; [exact Hhead|].
  rewrite join_cons. exact Hhead.
Qed.

(** X2. [normaliseRelativePath] is idempotent, and what it returns is
    never an absolute path, so [path.resolve(root, safeRelative)] always
    starts from the root. *)
Theorem normaliseRelativePath_idempotent (relative : string) :
  normaliseRelativePath (normaliseRelativePath relative) = normaliseRelativePath relative
  /\ Path.isAbsolute (normaliseRelativePath relative) = false.
Proof.
  unfold normaliseRelativePath.
  assert (Hsafe : Forall proper (fold_left normalise_walk (Js.split "/" relative) []))
    by (apply normalise_fold_proper; [constructor|apply split_pieces_no_sep]).
  revert Hsafe. generalize (fold_left normalise_walk (Js.split "/" relative) []).
  intros safe Hsafe. split; [|now apply join_proper_not_absolute].
  destruct safe as [|seg rest]; [reflexivity|].
  unfold Path.sep. rewrite split_join.
  - now rewrite normalise_fold_clean.
  - easy.
  - eapply Forall_impl; [exact Hsafe|]. intros s Hs. now apply proper_inv in Hs.
Qed.

End PrefixFacts.

(** ** What [isWithin] accepts *)

Section WithinFacts.
Context `{HostRuntime}.

Lemma strip_common_app l extra : Path.strip_common l (l ++ extra) = ([], extra).
Proof.
  induction l as [|x l IH]; simpl; [now destruct extra|]. now rewrite String.eqb_refl.
Qed.

Lemma startsWith_dotdot_join seg rest :
  seg <> "" -> Js.startsWith ".." (Js.join "/" (seg :: rest)) = Js.startsWith ".." seg.
Proof.
  intros Hseg. destruct rest as [|next rest]; [reflexivity|]. rewrite join_cons.
  destruct seg as [|a [|b seg]]; [easy| |reflexivity].
  change (String a "" +:+ "/" +:+ Js.join "/" (next :: rest))
    with (String a (String "/" (Js.join "/" (next :: rest)))).
  rewrite !startsWith_cons. cbn [Js.startsWith].
  change (Ascii.eqb "." "/") with false. now rewrite !andb_false_r.
Qed.

(** X3. For a normal root and a path made of the root's segments
    followed by further proper segments, [isWithin] answers yes exactly
    when the first further segment does not begin with two dots: a file
    or directory directly under the root whose name begins with [..]
    is refused although it lies inside the root. *)
Theorem isWithin_below_root (root seg : string) (rest : list string) :
  Path.normal root = true ->
  Forall proper (seg :: rest) ->
  isWithin root (Path.render (Path.segments root ++ seg :: rest))
  = negb (Js.startsWith ".." seg).
Proof.
  intros Hroot Hmore.
  destruct (proj1 (normal_spec root) Hroot) as (segs & -> & Hsegs).
  rewrite (segments_render _ Hsegs).
  assert (Hall : Forall proper (segs ++ seg :: rest)) by (apply Forall_app; now split).
  assert (Htarget : Path.normal (Path.render (segs ++ seg :: rest)) = true)
    by (apply normal_spec; eauto).
  assert (Hdiff : String.eqb (Path.render segs) (Path.render (segs ++ seg :: rest)) = false).
  { apply String.eqb_neq. intros Heq. apply (f_equal Path.segments) in Heq.
    rewrite !segments_render in Heq by assumption.
    apply (f_equal (@length string)) in Heq. rewrite length_app in Heq. simpl in Heq. lia. }
  unfold isWithin, Path.relative. rewrite Hdiff.
  rewrite (resolve_normal_id _ _ Hroot), (resolve_normal_id _ _ Htarget), Hdiff.
  rewrite !segments_render by assumption. rewrite strip_common_app.
  cbn [length repeat app].
  inversion Hmore as [|? ? Hseg _]; subst.
  rewrite startsWith_dotdot_join by (now apply proper_inv in Hseg).
  rewrite (join_proper_not_absolute _ Hmore). apply andb_true_r.
Qed.

End WithinFacts.

(** A name that begins with two dots, directly under the public
    directory, is not within it for [isWithin]. *)
Lemma isWithin_below_root_witness :
  Path.normal "/srv/app/public" = true
  /\ Forall proper ["..data"; "notes.txt"]
  /\ isWithin (H := example_runtime) "/srv/app/public" "/srv/app/public/..data/notes.txt"
     = false.
Proof.
  assert (Hroot : Path.normal "/srv/app/public" = true) by reflexivity.
  assert (Hmore : Forall proper ["..data"; "notes.txt"]) by (repeat constructor).
  split; [exact Hroot|]. split; [exact Hmore|].
  exact (isWithin_below_root (H := example_runtime) "/srv/app/public" "..data" ["notes.txt"]
           Hroot Hmore).
Defined.

(** ** What a normalised method table holds, and when a server is made *)

Section TableInvariantFacts.
Context `{HostRuntime}.

Lemma set_add_NoDup s x : NoDup s -> NoDup (set_add s x).
Proof.
  intros Hs. unfold set_add. case_bool_decide as Hx; [assumption|].
  apply NoDup_app. repeat split; [assumption| |apply NoDup_singleton].
  intros y Hy Hyx. apply list_elem_of_singleton in Hyx. now subst.
Qed.

Lemma set_add_elem_of s x y : y ∈ set_add s x <-> y ∈ s \/ y = x.
Proof. rewrite !list_elem_of_In. apply set_add_elem. Qed.

Lemma wildcard_is_no_method : "ALL" ∉ METHODS.
Proof.
  unfold METHODS. intros Hin.
  repeat (apply elem_of_cons in Hin as [Hin|Hin]; [discriminate|]).
  now apply elem_of_nil in Hin.
Qed.

Lemma normalise_key_invariant acc key value acc' :
  table_invariant acc -> normalise_key acc key value = Return acc' -> table_invariant acc'.
Proof.
  intros (Hnd & Hallowed & Hkeys). unfold normalise_key.
  destruct (String.eqb (Js.toUpperCase key) "ALL") eqn:Hwild.
  - destruct value as [v|]; intros [= <-]; [|now split].
    split; [exact Hnd|]. cbn [allowed methods]. split.
    + intros verb. rewrite Hallowed. split; intros [Hne Hsome]; (split; [assumption|]).
      * now rewrite lookup_insert_ne by congruence.
      * now rewrite lookup_insert_ne in Hsome by congruence.
    + intros verb Hsome. destruct (decide ("ALL" = verb)) as [<-|Hne]; [now left|].
      rewrite lookup_insert_ne in Hsome by assumption. now apply Hkeys.
  - case_bool_decide as Hmethod; [|discriminate].
    assert (Hnot : Js.toUpperCase key <> "ALL") by now apply String.eqb_neq.
    destruct value as [v|]; intros [= <-]; [|now split].
    split; [now apply set_add_NoDup|]. cbn [allowed methods]. split.
    + intros verb. rewrite set_add_elem_of, Hallowed.
      destruct (decide (Js.toUpperCase key = verb)) as [<-|Hne].
      * rewrite lookup_insert_eq. split; [intros _; eauto|now right].
      * rewrite lookup_insert_ne by assumption. split; [intros [Hold| ->]; [assumption|easy]|now left].
    + intros verb Hsome. destruct (decide (Js.toUpperCase key = verb)) as [<-|Hne]; [now right|].
      rewrite lookup_insert_ne in Hsome by assumption. now apply Hkeys.
Qed.

Lemma normalise_keys_invariant entry : forall acc table,
  table_invariant acc -> normalise_keys entry acc = Return table -> table_invariant table.
Proof.
  induction entry as [|[key value] rest IH]; intros acc table Hacc; simpl.
  - now intros [= <-].
  - destruct (normalise_key acc key value) as [acc'|e] eqn:Hkey; simpl; [|discriminate].
    apply IH. eapply normalise_key_invariant; eauto.
Qed.

(** X5. When [normaliseMethodTable] succeeds, no allowed verb is listed
    twice, the allowed verbs are exactly the keys of the method map other
    than the wildcard, and every key of the map is the wildcard or one of
    the seven verbs: the [Allow] header names precisely the verbs that
    have an entry of their own. *)
Theorem normaliseMethodTable_invariant (entry : MethodTable) (table : NormalisedTable) :
  normaliseMethodTable entry = Return table ->
  NoDup (allowed table)
  /\ (forall verb, verb ∈ allowed table <-> verb <> "ALL" /\ is_Some (methods table !! verb))
  /\ (forall verb, is_Some (methods table !! verb) -> verb = "ALL" \/ verb ∈ METHODS).
Proof.
  apply normalise_keys_invariant. split; [apply NoDup_nil_2|]. cbn [allowed methods]. split.
  - intros verb. rewrite lookup_empty. split.
    + intros Hin. now apply elem_of_nil in Hin.
    + intros [_ [? Hsome]]. discriminate.
  - intros verb [? Hsome]. now rewrite lookup_empty in Hsome.
Qed.

End TableInvariantFacts.

Section ServerCreationFacts.
Context `{HostRuntime}.

(** X7. When [mapRoutes] succeeds on a route table, it returns one
    native handler per pattern, in the order of the table, and the
    handler kept under a pattern is the one [createRouteHandler] makes for
    the entry of that pattern. *)
Theorem mapRoutes_one_handler_per_pattern
    (table : RouteTable) (baseHeaders : option HeadersInit) (onError : option ErrorHook)
    (mapped : list (string * NativeRouteHandler)) :
  mapRoutes table baseHeaders onError = Return mapped ->
  NoDup (map fst table) ->
  map fst mapped = map fst table
  /\ forall pattern entry,
       In (pattern, entry) table ->
       exists handler,
         object_get mapped pattern = Some handler
         /\ createRouteHandler entry pattern baseHeaders onError = Return handler.
Proof.
  intros Hmap Hnd. unfold mapRoutes in Hmap.
  destruct (mapRoutes_loop_handlers _ _ _ _ _ Hmap Hnd) as (made & -> & Hmade).
  simpl. split; [now apply (handlers_of_patterns baseHeaders onError)|].
  intros pattern entry Hin.
  pose proof (handlers_of_get _ _ _ _ pattern Hmade) as Hget.
  now rewrite (object_get_distinct _ _ _ Hnd Hin) in Hget.
Qed.

End ServerCreationFacts.

(** ** What a static handler serves *)

Section StaticHandlerFacts.
Context `{HostRuntime}.

Lemma createStaticHandler_steps config request baseHeaders :
  createStaticHandler config request baseHeaders
  = if negb (String.eqb (method request) "GET") && negb (String.eqb (method request) "HEAD")
    then Return None
    else
      match static_relative config (pathname request) with
      | None => Return None
      | Some relative =>
        match decodeURIComponent relative with
        | None => Throw (URIError (uri_error_message relative))
        | Some decoded =>
          match resolveStaticPath (Path.resolve cwd [dir config]) decoded
                  (default "index.html" (index config)) with
          | None => Return None
          | Some targetPath =>
            if negb (file_exists targetPath) then Return None
            else Return (Some (Response_new
                                 (if String.eqb (method request) "HEAD"
                                  then BodyNull else BodyFile targetPath)
                                 (Some 200)
                                 (Some (static_headers config targetPath baseHeaders))))
          end
        end
      end.
Proof.
  unfold createStaticHandler, static_relative, static_prefix, static_headers.
  destruct (negb (String.eqb (method request) "GET") && negb (String.eqb (method request) "HEAD"));
    [reflexivity|].
  destruct (String.eqb (sanitisePrefix (default "/" (prefix config))) "/").
  - destruct (decodeURIComponent _); [|reflexivity].
    destruct (resolveStaticPath _ _ _); [|reflexivity].
    destruct (negb (file_exists _)); [reflexivity|].
    now destruct (String.eqb (method request) "HEAD").
  - destruct (Js.startsWith _ (pathname request)).
    + destruct (decodeURIComponent _); [|reflexivity].
      destruct (resolveStaticPath _ _ _); [|reflexivity].
      destruct (negb (file_exists _)); [reflexivity|].
      now destruct (String.eqb (method request) "HEAD").
    + destruct (String.eqb (pathname request) _); [|reflexivity].
      destruct (decodeURIComponent _); [|reflexivity].
      destruct (resolveStaticPath _ _ _); [|reflexivity].
      destruct (negb (file_exists _)); [reflexivity|].
      now destruct (String.eqb (method request) "HEAD").
Qed.

Lemma resolveStaticPath_some root relative indexFile target :
  Path.isAbsolute cwd = true -> Path.normal root = true ->
  resolveStaticPath root relative indexFile = Some target ->
  file_exists target = true /\ Path.lexically_within root target = true.
Proof.
  intros Hcwd Hroot. unfold resolveStaticPath.
  destruct (isWithin root (Path.resolve cwd [root; normaliseRelativePath relative])) eqn:Hprimary;
    simpl; [|discriminate].
  destruct (file_exists (Path.resolve cwd [root; normaliseRelativePath relative])) eqn:Hfile.
  - intros [= <-]. split; [exact Hfile|].
    apply isWithin_lexically_within; auto using resolve_normal.
  - match goal with |- context [isWithin root ?w] => destruct (isWithin root w) eqn:Hindex end;
      simpl; [|discriminate].
    match goal with |- context [file_exists ?w] => destruct (file_exists w) eqn:Hfile' end;
      [|discriminate].
    intros [= <-]. split; [exact Hfile'|].
    apply isWithin_lexically_within; auto using resolve_normal.
Qed.

Lemma method_get_or_head verb :
  negb (String.eqb verb "GET") && negb (String.eqb verb "HEAD") = false ->
  verb = "GET" \/ verb = "HEAD".
Proof.
  intros Hverb. apply andb_false_iff in Hverb as [Hget|Hhead].
  - left. apply negb_false_iff in Hget. now apply String.eqb_eq.
  - right. apply negb_false_iff in Hhead. now apply String.eqb_eq.
Qed.

(** What a produced response is made of. *)
Lemma createStaticHandler_some config request baseHeaders response :
  createStaticHandler config request baseHeaders = Return (Some response) ->
  (method request = "GET" \/ method request = "HEAD")
  /\ exists relative decoded targetPath,
       static_relative config (pathname request) = Some relative
       /\ decodeURIComponent relative = Some decoded
       /\ resolveStaticPath (Path.resolve cwd [dir config]) decoded
            (default "index.html" (index config)) = Some targetPath
       /\ file_exists targetPath = true
       /\ response
          = Response_new (if String.eqb (method request) "HEAD"
                          then BodyNull else BodyFile targetPath)
              (Some 200) (Some (static_headers config targetPath baseHeaders)).
Proof.
  rewrite createStaticHandler_steps.
  destruct (negb (String.eqb (method request) "GET") && negb (String.eqb (method request) "HEAD"))
    eqn:Hverb; [discriminate|].
  destruct (static_relative config (pathname request)) as [relative|] eqn:Hrelative;
    [|discriminate].
  destruct (decodeURIComponent relative) as [decoded|] eqn:Hdecoded; [|discriminate].
  destruct (resolveStaticPath _ decoded _) as [targetPath|] eqn:Hresolve; [|discriminate].
  destruct (file_exists targetPath) eqn:Hexists; [|discriminate]. cbn [negb].
  intros [= <-]. split; [now apply method_get_or_head|].
  exists relative, decoded, targetPath. repeat split; assumption || reflexivity.
Qed.

Lemma static_relative_under config path relative :
  static_relative config path = Some relative ->
  static_prefix config = "/"
  \/ Js.startsWith (static_prefix config) path = true
  \/ path = Js.slice_drop_last (static_prefix config).
Proof.
  unfold static_relative.
  destruct (String.eqb (static_prefix config) "/") eqn:Hroot.
  - intros _. left. now apply String.eqb_eq.
  - destruct (Js.startsWith (static_prefix config) path); [auto|].
    destruct (String.eqb path _) eqn:Hsame; [|discriminate].
    intros _. right. right. now apply String.eqb_eq.
Qed.

Lemma Response_new_status b init_headers : status (Response_new b (Some 200) init_headers) = 200.
Proof. reflexivity. Qed.

Lemma Response_new_body b init_status init_headers :
  body (Response_new b init_status init_headers) = b.
Proof. reflexivity. Qed.

Lemma Response_new_get b init_status h name :
  Js.toLowerCase name <> "content-type" ->
  Headers.get (headers (Response_new b init_status (Some h))) name = Headers.get h name.
Proof.
  intros Hname. unfold Response_new, Headers.get. cbn [headers default from_option id].
  destruct (recorded_content_type b) as [ct|]; [|reflexivity].
  destruct (Headers.has h "content-type"); [reflexivity|].
  unfold Headers.append.
  change (Js.toLowerCase "content-type") with "content-type".
  destruct (h !! "content-type"); now rewrite lookup_insert_ne.
Qed.


Lemma Headers_get_set h name value other :
  Headers.get (Headers.set h name value) other
  = if decide (Js.toLowerCase name = Js.toLowerCase other) then Some value
    else Headers.get h other.
Proof.
  unfold Headers.get, Headers.set. destruct (decide _) as [->|Hne].
  - apply lookup_insert_eq.
  - now apply lookup_insert_ne.
Qed.

(** X8. A response a static handler produces answers a [GET] or a [HEAD]
    request whose path is under the sanitised prefix (or is the prefix
    without its last slash), with status 200, for a path that exists on
    disk and is lexically inside the resolved directory of the
    configuration; its [Content-Length] is the size of that file, and its
    body is the file for [GET] and empty for [HEAD]. *)
Theorem static_response_is_a_file_under_root
    (config : StaticConfig) (request : Request) (baseHeaders : option HeadersInit)
    (response : Response) :
  Path.isAbsolute cwd = true ->
  createStaticHandler config request baseHeaders = Return (Some response) ->
  (method request = "GET" \/ method request = "HEAD")
  /\ (static_prefix config = "/"
      \/ Js.startsWith (static_prefix config) (pathname request) = true
      \/ pathname request = Js.slice_drop_last (static_prefix config))
  /\ status response = 200
  /\ exists targetPath,
       file_exists targetPath = true
       /\ Path.lexically_within (Path.resolve cwd [dir config]) targetPath = true
       /\ Headers.get (headers response) "Content-Length" = Some (file_size targetPath)
       /\ body response = if String.eqb (method request) "HEAD"
                          then BodyNull else BodyFile targetPath.
Proof.
  intros Hcwd Hserved.
  destruct (createStaticHandler_some _ _ _ _ Hserved)
    as (Hverb & relative & decoded & targetPath & Hrelative & _ & Hresolve & _ & ->).
  split; [exact Hverb|]. split; [now apply (static_relative_under _ _ relative)|].
  split; [reflexivity|]. exists targetPath.
  destruct (resolveStaticPath_some _ _ _ _ Hcwd (resolve_normal _ _ Hcwd) Hresolve)
    as [Hexists Hwithin].
  repeat split; try assumption.
  rewrite Response_new_get by discriminate.
  unfold static_headers. rewrite Headers_get_set. now rewrite decide_True.
Qed.


(** X10. A static handler answers a [HEAD] request exactly when it
    answers the [GET] request for the same path: both miss, both fail on
    the same malformed path, or both produce a response, with the same
    status and the same headers, the content type of a file without a
    type aside; the [HEAD] response has no body. *)
Theorem static_head_mirrors_get
    (config : StaticConfig) (request : Request) (baseHeaders : option HeadersInit) :
  match createStaticHandler config (with_method "GET" request) baseHeaders with
  | Return None =>
      createStaticHandler config (with_method "HEAD" request) baseHeaders = Return None
  | Throw error =>
      createStaticHandler config (with_method "HEAD" request) baseHeaders = Throw error
  | Return (Some got) =>
      exists head,
        createStaticHandler config (with_method "HEAD" request) baseHeaders
        = Return (Some head)
        /\ status head = status got
        /\ body head = BodyNull
        /\ (exists targetPath, body got = BodyFile targetPath
              /\ (file_type targetPath <> "" -> headers head = headers got))
        /\ forall name, Js.toLowerCase name <> "content-type" ->
             Headers.get (headers head) name = Headers.get (headers got) name
  end.
Proof.
  rewrite !createStaticHandler_steps. cbn [with_method method pathname].
  change (negb (String.eqb "GET" "GET") && negb (String.eqb "GET" "HEAD")) with false.
  change (negb (String.eqb "HEAD" "GET") && negb (String.eqb "HEAD" "HEAD")) with false.
  cbv iota.
  destruct (static_relative config (pathname request)) as [relative|]; [|reflexivity].
  destruct (decodeURIComponent relative) as [decoded|]; [|reflexivity].
  destruct (resolveStaticPath _ decoded _) as [targetPath|]; [|reflexivity].
  destruct (negb (file_exists targetPath)); [reflexivity|].
  change (String.eqb "GET" "HEAD") with false. change (String.eqb "HEAD" "HEAD") with true.
  cbv iota. eexists. split; [reflexivity|]. split; [reflexivity|]. split; [reflexivity|].
  split.
  - exists targetPath. split; [reflexivity|]. intros Htype.
    assert (Hhas : Headers.has (static_headers config targetPath baseHeaders) "content-type" = true).
    { unfold Headers.has. apply bool_decide_eq_true_2.
      change (is_Some (Headers.get (static_headers config targetPath baseHeaders) "content-type")).
      unfold static_headers. apply String.eqb_neq in Htype. rewrite Htype. cbn [negb].
      rewrite Headers_get_set, decide_False by discriminate.
      destruct (maxAge config) as [age|].
      - rewrite !Headers_get_set, decide_False by discriminate. rewrite decide_True; eauto.
      - rewrite Headers_get_set. rewrite decide_True; eauto. }
    unfold Response_new. cbn [headers default from_option id]. rewrite Hhas.
    now destruct (recorded_content_type BodyNull), (recorded_content_type (BodyFile targetPath)).
  - intros name Hname. now rewrite !Response_new_get.
Qed.

Lemma try_static_throw before : forall handler after request baseHeaders error,
  Forall (fun earlier : StaticHandler => earlier request baseHeaders = Return None) before ->
  handler request baseHeaders = Throw error ->
  try_static (before ++ handler :: after) request baseHeaders = Throw error.
Proof.
  induction before as [|earlier before IH]; intros handler after request baseHeaders error Hnone Hthrow.
  - simpl. now rewrite Hthrow.
  - inversion Hnone as [|? ? Hearlier Hrest]; subst. simpl. rewrite Hearlier. simpl.
    now apply IH.
Qed.

End StaticHandlerFacts.

(** ** The further properties at the example configurations *)

(** The table [{ get: ..., all: ... }] normalises to the one allowed verb
    [GET]. *)
Lemma normaliseMethodTable_invariant_witness :
  exists table,
    normaliseMethodTable example_lowercase_table = Return table
    /\ allowed table = ["GET"]
    /\ NoDup (allowed table)
    /\ ("GET" ∈ allowed table <-> "GET" <> "ALL" /\ is_Some (methods table !! "GET")).
Proof.
  eexists. split; [reflexivity|]. split; [reflexivity|].
  destruct (normaliseMethodTable_invariant example_lowercase_table _ eq_refl)
    as (Hnodup & Hallowed & _).
  split; [exact Hnodup|]. exact (Hallowed "GET").
Defined.

(** The two example routes keep their order and their handlers. *)
Lemma mapRoutes_one_handler_per_pattern_witness :
  exists mapped,
    mapRoutes example_route_table None None = Return mapped
    /\ NoDup (map fst example_route_table)
    /\ map fst mapped = ["/"; "/resource"].
Proof.
  eexists. split; [reflexivity|].
  assert (Hdistinct : NoDup (map fst example_route_table)).
  { apply NoDup_cons_2.
    - intros Hin. apply list_elem_of_singleton in Hin. discriminate.
    - apply NoDup_cons_2; [apply not_elem_of_nil|apply NoDup_nil_2]. }
  split; [exact Hdistinct|].
  exact (proj1 (mapRoutes_one_handler_per_pattern example_route_table None None _ eq_refl
                  Hdistinct)).
Defined.

(** [GET /] under the directory [public] is answered with the index file. *)
Lemma static_response_is_a_file_under_root_witness :
  Path.isAbsolute (cwd (HostRuntime := example_runtime)) = true
  /\ exists response,
       createStaticHandler example_static_config (example_request "GET" "/") None
       = Return (Some response)
       /\ status response = 200
       /\ body response = BodyFile "/srv/app/public/index.html".
Proof.
  split; [reflexivity|]. eexists. split; [reflexivity|].
  destruct (static_response_is_a_file_under_root example_static_config
              (example_request "GET" "/") None _ eq_refl eq_refl)
    as (_ & _ & Hstatus & _).
  split; [exact Hstatus|reflexivity].
Defined.


(** ** The response helpers *)

Section HelperFacts.
Context `{HostRuntime}.



End HelperFacts.

(** ** Component specifiers *)

Section SpecifierFacts.
Context `{HostRuntime}.

Lemma join_split sep s : Js.join (String sep "") (Js.split sep s) = s.
Proof.
  induction s as [|c s IH]; [reflexivity|]. simpl.
  pose proof (split_nonempty sep s) as Hne.
  destruct (Ascii.eqb_spec c sep) as [->|_].
  - destruct (Js.split sep s) as [|piece pieces]; [easy|].
    rewrite join_cons, IH. reflexivity.
  - destruct (Js.split sep s) as [|piece [|next pieces]]; [easy| |].
    + simpl in *. now rewrite IH.
    + rewrite join_cons in *. rewrite <- IH. reflexivity.
Qed.

(** X13. [parseComponentSpecifier] fails exactly on the empty specifier
    and on one that begins with [#].  Otherwise the module path is the
    non-empty text before the first [#]; the export name is [default] when
    there is no [#], and else the text between the first [#] and the
    second, or the end: what follows a second [#] is dropped, and an empty
    export name is kept as it is. *)
Theorem parseComponentSpecifier_reads_two_pieces (specifier : string) :
  match parseComponentSpecifier specifier with
  | Throw _ => specifier = "" \/ Js.startsWith "#" specifier = true
  | Return (modulePath, exportName) =>
      modulePath <> ""
      /\ Js.has_char "#" modulePath = false
      /\ Js.has_char "#" exportName = false
      /\ Js.startsWith "#" specifier = false
      /\ (specifier = modulePath /\ exportName = "default"
          \/ specifier = modulePath +:+ "#" +:+ exportName
          \/ exists rest, specifier = modulePath +:+ "#" +:+ exportName +:+ "#" +:+ rest)
  end.
Proof.
  unfold parseComponentSpecifier.
  pose proof (join_split "#" specifier) as Hjoin.
  pose proof (split_pieces_no_sep "#" specifier) as Hpieces.
  pose proof (split_nonempty "#" specifier) as Hne.
  destruct (Js.split "#" specifier) as [|modulePath others]; [easy|].
  inversion Hpieces as [|? ? Hmodule Hothers]; subst.
  cbn [nth].
  destruct (String.eqb_spec modulePath "") as [->|Hpath].
  - destruct others as [|exportName others]; [now left|right].
    now rewrite join_cons.
  - assert (Hfirst : forall tail, Js.startsWith "#" (modulePath +:+ tail) = false).
    { intros tail. destruct modulePath as [|c modulePath]; [easy|].
      simpl in Hmodule. apply orb_false_iff in Hmodule as [Hc _].
      change (String c modulePath +:+ tail) with (String c (modulePath +:+ tail)).
      cbn [Js.startsWith]. rewrite Ascii.eqb_sym, Hc. reflexivity. }
    assert (Hstart : Js.startsWith "#" modulePath = false).
    { destruct modulePath as [|c modulePath]; [easy|].
      simpl in Hmodule. apply orb_false_iff in Hmodule as [Hc _].
      cbn [Js.startsWith]. rewrite Ascii.eqb_sym, Hc. reflexivity. }
    destruct others as [|exportName [|next others]].
    + cbn. split; [assumption|]. split; [assumption|]. split; [reflexivity|].
      split; [exact Hstart|now left].
    + cbn [lookup list_lookup default from_option id].
      inversion Hothers as [|? ? Hexport _]; subst.
      split; [assumption|]. split; [assumption|]. split; [assumption|].
      split; [apply Hfirst|]. right. left. reflexivity.
    + cbn [lookup list_lookup default from_option id].
      inversion Hothers as [|? ? Hexport _]; subst.
      split; [assumption|]. split; [assumption|]. split; [assumption|].
      rewrite !join_cons. split; [apply Hfirst|]. right. right.
      exists (Js.join "#" (next :: others)). reflexivity.
Qed.

End SpecifierFacts.

(** ** The prepared JSX environment *)

Section AppendFacts.

Lemma append_nil q : "" +:+ q = q.
Proof. reflexivity. Qed.

Lemma append_cons c p q : String c p +:+ q = String c (p +:+ q).
Proof. reflexivity. Qed.

Lemma append_assoc p q r : (p +:+ q) +:+ r = p +:+ (q +:+ r).
Proof.
  induction p as [|c p IH]; [reflexivity|]. now rewrite !append_cons, IH.
Qed.

Lemma slice_from_app p rest : Js.slice_from (String.length p) (p +:+ rest) = rest.
Proof.
  induction p as [|c p IH]; [reflexivity|]. rewrite append_cons. exact IH.
Qed.

Lemma eqb_slash_longer c p : String.eqb (String "/" (String c p)) "/" = false.
Proof. apply String.eqb_neq. discriminate. Qed.

End AppendFacts.

Section PreparedFacts.
Context `{HostRuntime}.

Lemma slice_drop_last_starts c d p :
  Js.startsWith "/" (String c (String d p)) = true ->
  Js.startsWith "/" (Js.slice_drop_last (String c (String d p))) = true.
Proof. intros Hstart. exact Hstart. Qed.

Lemma normalizePrefix_starts prefix : Js.startsWith "/" (normalizePrefix prefix) = true.
Proof.
  unfold normalizePrefix.
  set (slashed := if negb (Js.startsWith "/" prefix) then "/" +:+ prefix else prefix).
  assert (Hslashed : Js.startsWith "/" slashed = true).
  { subst slashed. destruct (Js.startsWith "/" prefix) eqn:Hs; [exact Hs|reflexivity]. }
  destruct slashed as [|c [|d rest]]; [discriminate|exact Hslashed|].
  destruct ((1 <? String.length (String c (String d rest)))%nat
            && Js.endsWith_slash (String c (String d rest))); [|exact Hslashed].
  now apply slice_drop_last_starts.
Qed.

Lemma normaliseRelativePath_leading_slash relative :
  normaliseRelativePath (String "/" relative) = normaliseRelativePath relative.
Proof. reflexivity. Qed.

(** What a successful preparation returns for the prefix, the script and
    the static entries. *)
Lemma prepareJSXEnvironment_static input result :
  prepareJSXEnvironment input = Return result ->
  scriptHref result
  = (if String.eqb (normalizePrefix (publicPrefix input)) "/" then ""
     else normalizePrefix (publicPrefix input))
    +:+ "/" +:+ clientFileName input +:+ ".js"
  /\ staticEntries result
     = userStatic input
       ++ [{| dir := publicDir input;
              prefix := Some (normalizePrefix (publicPrefix input));
              index := None; maxAge := None |}].
Proof.
  unfold prepareJSXEnvironment.
  destruct (length (pages input) =? 0)%nat; [discriminate|].
  destruct (buildComponentDescriptors _ _) as [made|e]; simpl; [|discriminate].
  destruct (check_pages _ _ _) as [bundle|e]; simpl; [|discriminate].
  destruct (truthy_layout (layout input)) as [layout|]; simpl.
  - destruct (normalizeComponentSpec layout _) as [d|e]; simpl; [|discriminate].
    destruct (notFoundPage input) as [page|]; simpl.
    + destruct (normalizeComponentSpec (page_component page) _) as [d'|e]; simpl; [|discriminate].
      destruct (ensureHydratableCapability _ _ _ _) as [[]|e]; simpl; [|discriminate].
      now intros [= <-].
    + now intros [= <-].
  - destruct (notFoundPage input) as [page|]; simpl.
    + destruct (normalizeComponentSpec (page_component page) _) as [d'|e]; simpl; [|discriminate].
      destruct (ensureHydratableCapability _ _ _ _) as [[]|e]; simpl; [|discriminate].
      now intros [= <-].
    + now intros [= <-].
Qed.

(** After a successful preparation the static entries are the user's, in
    their order, followed by one generated entry for the public
    directory, and the script address handed to the pages is under the
    prefix of that entry: what is left of the address below the prefix
    is [<clientFileName>.js], with a slash before it when the prefix
    ends with one. *)
Lemma prepared_script_below_generated_prefix
    (input : PrepareJSXInput) (result : JSXPreparationResult) :
  prepareJSXEnvironment input = Return result ->
  exists generated relative,
    staticEntries result = userStatic input ++ [generated]
    /\ dir generated = publicDir input
    /\ Js.startsWith "/" (scriptHref result) = true
    /\ static_relative generated (scriptHref result) = Some relative
    /\ normaliseRelativePath relative
       = normaliseRelativePath (clientFileName input +:+ ".js")
    /\ (relative = clientFileName input +:+ ".js"
        \/ relative = String "/" (clientFileName input +:+ ".js")).
Proof.
  intros Hprepared.
  destruct (prepareJSXEnvironment_static _ _ Hprepared) as [-> ->].
  pose proof (normalizePrefix_starts (publicPrefix input)) as Hstart.
  set (q := normalizePrefix (publicPrefix input)) in *.
  set (file := clientFileName input +:+ ".js").
  exists {| dir := publicDir input; prefix := Some q; index := None; maxAge := None |}.
  unfold static_relative, static_prefix. cbn [prefix dir default from_option id].
  destruct q as [|c [|d q']]; [discriminate| |].
  - (* the prefix is the root *)
    cbn [Js.startsWith] in Hstart. apply andb_true_iff in Hstart as [Hc _].
    apply Ascii.eqb_eq in Hc. subst c.
    exists file. split; [reflexivity|]. split; [reflexivity|].
    change (String.eqb "/" "/") with true. cbv iota.
    rewrite append_nil. change ("/" +:+ file) with (String "/" file).
    split; [reflexivity|].
    change (sanitisePrefix "/") with "/". change (String.eqb "/" "/") with true. cbv iota.
    assert (Hlong : (1 <? String.length (String "/" file))%nat = true).
    { subst file. destruct (clientFileName input); reflexivity. }
    rewrite Hlong. split; [reflexivity|]. split; [reflexivity|now left].
  - cbn [Js.startsWith] in Hstart. apply andb_true_iff in Hstart as [Hc _].
    apply Ascii.eqb_eq in Hc. subst c.
    rewrite eqb_slash_longer.
    set (q := String "/" (String d q')).
    assert (Hq : Js.startsWith "/" q = true) by reflexivity.
    unfold sanitisePrefix. rewrite Hq. cbn [negb].
    destruct (Js.endsWith_slash q) eqn:Hend; cbn [negb].
    + exists (String "/" file). split; [reflexivity|]. split; [reflexivity|].
      split; [reflexivity|].
      unfold q at 1. rewrite (eqb_slash_longer d q'). fold q.
      rewrite startsWith_app, slice_from_app.
      split; [reflexivity|]. split; [apply normaliseRelativePath_leading_slash|now right].
    + exists file. split; [reflexivity|]. split; [reflexivity|]. split; [reflexivity|].
      assert (Hlonger : String.eqb (q +:+ "/") "/" = false).
      { apply String.eqb_neq. subst q. rewrite !append_cons. discriminate. }
      rewrite Hlonger.
      replace (q +:+ "/" +:+ file) with ((q +:+ "/") +:+ file) by apply append_assoc.
      rewrite startsWith_app, slice_from_app. split; [reflexivity|].
      split; [reflexivity|now left].
Qed.

End PreparedFacts.

(** ** Bundle descriptors *)

Section BundleFacts.
Context `{HostRuntime}.

Lemma object_get_set {V} (obj : list (string * V)) key value other :
  object_get (object_set obj key value) other
  = if String.eqb key other then Some value else object_get obj other.
Proof.
  induction obj as [|[k v] rest IH]; simpl; [reflexivity|].
  destruct (String.eqb_spec k key) as [->|Hk]; simpl.
  - now destruct (String.eqb key other).
  - rewrite IH. destruct (String.eqb_spec key other) as [->|_]; [|reflexivity].
    destruct (String.eqb_spec k other); [contradiction|reflexivity].
Qed.

Lemma object_get_absent {V} (obj : list (string * V)) key :
  ~ In key (map fst obj) -> object_get obj key = None.
Proof.
  induction obj as [|[k v] rest IH]; simpl; [reflexivity|]. intros Hfresh.
  destruct (String.eqb_spec k key); [tauto|]. apply IH. tauto.
Qed.

Lemma check_pages_bundle pages entries : forall acc bundle,
  check_pages entries pages acc = Return bundle ->
  NoDup (map fst entries) ->
  forall route,
    object_get bundle route
    = match object_get entries route ≫= reference with
      | Some ref => Some ref
      | None => object_get acc route
      end.
Proof.
  induction entries as [|[r d] rest IH]; intros acc bundle; simpl.
  - now intros [= <-] _ route.
  - destruct (object_get pages r) as [page|]; [|discriminate].
    destruct (ensureHydratableCapability r (hydrate page) d false) as [[]|e]; simpl;
      [|discriminate].
    intros Hrun Hnd route. inversion Hnd as [|? ? Hfresh Hrest]; subst.
    rewrite (IH _ _ Hrun Hrest route).
    destruct (String.eqb_spec r route) as [->|Hr].
    + rewrite object_get_absent by (now rewrite <- list_elem_of_In). simpl.
      destruct (reference d) as [ref|]; [|reflexivity].
      now rewrite object_get_set, String.eqb_refl.
    + destruct (object_get rest route ≫= reference) as [ref|]; [reflexivity|].
      destruct (reference d) as [ref|]; [|reflexivity].
      rewrite object_get_set. now destruct (String.eqb_spec r route).
Qed.

Lemma descriptors_of_routes baseDir pages made :
  descriptors_of baseDir pages made -> map fst made = map fst pages.
Proof.
  induction 1 as [|[r p] [r' d] ? ? [Hr _] _ IH]; [reflexivity|].
  simpl in *. now rewrite IH, Hr.
Qed.

Lemma resolveHydrate_wants hydrate ctx :
  resolveHydrate hydrate ctx = Return true -> wantsHydration hydrate = true.
Proof. destruct hydrate as [[b|f]|]; simpl; [now intros [= ->]|reflexivity|reflexivity]. Qed.

(** What a successful preparation returns for the descriptors. *)
Lemma prepareJSXEnvironment_descriptors input result :
  prepareJSXEnvironment input = Return result ->
  buildComponentDescriptors (pages input) (baseDir input) = Return (descriptors result)
  /\ exists bundle,
       check_pages (descriptors result) (pages input) [] = Return bundle
       /\ forall route, route <> NOT_FOUND_KEY ->
            object_get (bundleDescriptors result) route = object_get bundle route.
Proof.
  unfold prepareJSXEnvironment.
  destruct (length (pages input) =? 0)%nat; [discriminate|].
  destruct (buildComponentDescriptors _ _) as [made|e]; simpl; [|discriminate].
  destruct (check_pages _ _ _) as [bundle|e] eqn:Hcheck; simpl; [|discriminate].
  assert (Hkey : forall (ref : ComponentReference) route, route <> NOT_FOUND_KEY ->
            object_get (object_set bundle NOT_FOUND_KEY ref) route = object_get bundle route).
  { intros ref route Hroute. rewrite object_get_set.
    destruct (String.eqb_spec NOT_FOUND_KEY route); [congruence|reflexivity]. }
  assert (Hdone : forall result' : JSXPreparationResult,
            descriptors result' = made ->
            (bundleDescriptors result' = bundle
             \/ exists ref, bundleDescriptors result' = object_set bundle NOT_FOUND_KEY ref) ->
            Return made = Return (descriptors result')
            /\ exists bundle0,
                 check_pages (descriptors result') (pages input) [] = Return bundle0
                 /\ forall route, route <> NOT_FOUND_KEY ->
                      object_get (bundleDescriptors result') route = object_get bundle0 route).
  { intros result' -> Hbundle. split; [reflexivity|]. exists bundle. split; [exact Hcheck|].
    intros route Hroute. destruct Hbundle as [->|[ref ->]]; [reflexivity|now apply Hkey]. }
  destruct (truthy_layout (layout input)) as [layout|]; simpl.
  - destruct (normalizeComponentSpec layout _) as [d|e]; simpl; [|discriminate].
    destruct (notFoundPage input) as [page|]; simpl.
    + destruct (normalizeComponentSpec (page_component page) _) as [d'|e]; simpl; [|discriminate].
      destruct (ensureHydratableCapability _ _ _ _) as [[]|e]; simpl; [|discriminate].
      intros [= Hresult]. apply Hdone; rewrite <- Hresult; [reflexivity|]. simpl.
      destruct (reference d') as [ref|]; eauto.
    + intros [= Hresult]. apply Hdone; rewrite <- Hresult; [reflexivity|now left].
  - destruct (notFoundPage input) as [page|]; simpl.
    + destruct (normalizeComponentSpec (page_component page) _) as [d'|e]; simpl; [|discriminate].
      destruct (ensureHydratableCapability _ _ _ _) as [[]|e]; simpl; [|discriminate].
      intros [= Hresult]. apply Hdone; rewrite <- Hresult; [reflexivity|]. simpl.
      destruct (reference d') as [ref|]; eauto.
    + intros [= Hresult]. apply Hdone; rewrite <- Hresult; [reflexivity|now left].
Qed.

(** X15. After a successful preparation, the bundle descriptor under a
    page route, the reserved not-found key aside, is the module reference
    of the descriptor of that route, and there is none when the
    descriptor has no reference.  So every page that hydrates at request
    time, where [resolveHydrate] answers [true], has a descriptor with a
    module reference and a bundle descriptor with the same reference. *)
Theorem hydrating_page_has_a_bundle_descriptor
    (input : PrepareJSXInput) (result : JSXPreparationResult) :
  prepareJSXEnvironment input = Return result ->
  NoDup (map fst (pages input)) ->
  (forall route, route <> NOT_FOUND_KEY ->
     object_get (bundleDescriptors result) route
     = object_get (descriptors result) route ≫= reference)
  /\ forall route page ctx,
       In (route, page) (pages input) ->
       route <> NOT_FOUND_KEY ->
       resolveHydrate (hydrate page) ctx = Return true ->
       exists descriptor ref,
         object_get (descriptors result) route = Some descriptor
         /\ normalizeComponentSpec (page_component page) (baseDir input) = Return descriptor
         /\ reference descriptor = Some ref
         /\ object_get (bundleDescriptors result) route = Some ref.
Proof.
  intros Hprepared Hnd.
  destruct (prepareJSXEnvironment_descriptors _ _ Hprepared)
    as (Hbuild & bundle & Hcheck & Hbundle).
  destruct (buildComponentDescriptors_loop_made _ _ _ _ Hbuild Hnd) as (fresh & Hmade & Hof).
  simpl in Hmade.
  assert (Hroutes : NoDup (map fst (descriptors result)))
    by (rewrite Hmade, (descriptors_of_routes _ _ _ Hof); exact Hnd).
  assert (Hlookup : forall route, route <> NOT_FOUND_KEY ->
            object_get (bundleDescriptors result) route
            = object_get (descriptors result) route ≫= reference).
  { intros route Hroute. rewrite (Hbundle route Hroute).
    rewrite (check_pages_bundle _ _ _ _ Hcheck Hroutes route). simpl.
    now destruct (object_get (descriptors result) route ≫= reference). }
  split; [exact Hlookup|].
  intros route page ctx Hin Hroute Hhydrate.
  rewrite <- Hmade in Hof.
  destruct (descriptors_of_elem _ _ _ _ _ Hof Hin) as (descriptor & Hd & Hnorm).
  pose proof (check_pages_checked _ _ _ _ Hcheck) as Hchecked.
  rewrite List.Forall_forall in Hchecked.
  destruct (Hchecked _ Hd) as (page' & Hget & Hok). simpl in Hget, Hok.
  rewrite (object_get_distinct _ _ _ Hnd Hin) in Hget. injection Hget as <-.
  pose proof (ensure_hydratable_ok _ _ _ _ Hok (resolveHydrate_wants _ _ Hhydrate)) as Href.
  destruct (reference descriptor) as [ref|] eqn:Hreference; [|contradiction].
  exists descriptor, ref.
  assert (Hdescriptor : object_get (descriptors result) route = Some descriptor)
    by now apply object_get_distinct.
  split; [exact Hdescriptor|]. split; [exact Hnorm|]. split; [exact Hreference|].
  rewrite (Hlookup route Hroute), Hdescriptor. exact Hreference.
Qed.

End BundleFacts.

(** The example page hydrates, and its bundle descriptor is its module. *)
Lemma hydrating_page_has_a_bundle_descriptor_witness :
  exists result,
    prepareJSXEnvironment example_prepare_input = Return result
    /\ NoDup (map fst (pages example_prepare_input))
    /\ object_get (bundleDescriptors result) "/"
       = Some {| modulePath := "/srv/app/src/pages/Home.tsx"; exportName := "Home" |}.
Proof.
  eexists. split; [reflexivity|].
  assert (Hdistinct : NoDup (map fst (pages example_prepare_input))).
  { apply NoDup_cons_2; [apply not_elem_of_nil|apply NoDup_nil_2]. }
  split; [exact Hdistinct|].
  destruct (hydrating_page_has_a_bundle_descriptor example_prepare_input _ eq_refl Hdistinct)
    as [Hlookup _].
  apply (Hlookup "/"). discriminate.
Defined.

(** ** The component cache *)

Section LoadingFacts.
Context `{HostRuntime}.

(** X16. A component is imported at most once for a cache: after a load
    that returned a component, loading the same descriptor again returns
    the same component and leaves the cache as it is, whatever the import
    would now do; the load kept every entry of the cache and added at most
    the entry under the cache key of the descriptor's reference.  A load
    that fails leaves the cache untouched. *)
Theorem loadComponent_imports_once
    (importModule : string -> Outcome JsModule) (descriptor : NormalizedComponent)
    (cache : gmap string ComponentType) :
  match loadComponent importModule descriptor cache with
  | (Return loaded, cache') =>
      (forall importAgain,
          loadComponent importAgain descriptor cache' = (Return loaded, cache'))
      /\ cache ⊆ cache'
      /\ forall key other,
           cache' !! key = Some other ->
           cache !! key = Some other
           \/ exists ref,
                reference descriptor = Some ref /\ key = cacheKey ref /\ other = loaded
  | (Throw _, cache') => cache' = cache
  end.
Proof.
  unfold loadComponent.
  destruct (component descriptor) as [inline|]; [now auto|].
  destruct (reference descriptor) as [ref|]; [|reflexivity].
  destruct (cache !! cacheKey ref) as [cached|] eqn:Hcached.
  - split; [intros importAgain; now rewrite Hcached|]. split; [reflexivity|]. auto.
  - destruct (importModule (modulePath ref)) as [module|error]; [|reflexivity].
    destruct (module (exportName ref)) as [loaded|]; [|reflexivity].
    split; [intros importAgain; now rewrite lookup_insert_eq|].
    split; [now apply insert_subseteq|].
    intros key other Hkey. destruct (decide (key = cacheKey ref)) as [->|Hne].
    + rewrite lookup_insert_eq in Hkey. injection Hkey as <-. right. now exists ref.
    + rewrite lookup_insert_ne in Hkey by congruence. now left.
Qed.

Lemma append_sep_inj c : forall m1 m2 e1 e2,
  Js.has_char c m1 = false -> Js.has_char c m2 = false ->
  m1 +:+ String c e1 = m2 +:+ String c e2 -> m1 = m2 /\ e1 = e2.
Proof.
  induction m1 as [|a m1 IH]; intros [|b m2] e1 e2 H1 H2 Heq.
  - injection Heq as ->. now split.
  - rewrite append_nil, append_cons in Heq. injection Heq as -> _.
    simpl in H2. now rewrite Ascii.eqb_refl in H2.
  - rewrite append_nil, append_cons in Heq. injection Heq as -> _.
    simpl in H1. now rewrite Ascii.eqb_refl in H1.
  - rewrite !append_cons in Heq. injection Heq as -> Heq.
    simpl in H1, H2. apply orb_false_iff in H1 as [_ H1]. apply orb_false_iff in H2 as [_ H2].
    destruct (IH _ _ _ H1 H2 Heq) as [-> ->]. now split.
Qed.

(** X17. The cache key tells references apart when module paths hold no
    [#]: two references with such module paths and the same cache key are
    the same reference, so a cached component is never served for another
    module or export. *)
Theorem cacheKey_tells_references_apart (a b : ComponentReference) :
  Js.has_char "#" (modulePath a) = false ->
  Js.has_char "#" (modulePath b) = false ->
  cacheKey a = cacheKey b ->
  a = b.
Proof.
  intros Ha Hb Hkey. destruct a as [m1 e1], b as [m2 e2]. unfold cacheKey in Hkey.
  simpl in *. destruct (append_sep_inj "#" m1 m2 e1 e2 Ha Hb Hkey) as [-> ->]. reflexivity.
Qed.

End LoadingFacts.

(** A module path with a [#] in it shares its cache key with another
    reference. *)
Example cacheKey_collision :
  cacheKey {| modulePath := "/srv/app/a#b"; exportName := "c" |}
  = cacheKey {| modulePath := "/srv/app/a"; exportName := "b#c" |}.
Proof. reflexivity. Qed.

(** ** Rendering errors *)

Section RenderFacts.
Context `{HostRuntime}.

Lemma startsWith_app_l p : forall a b,
  Js.startsWith p a = true -> Js.startsWith p (a +:+ b) = true.
Proof.
  induction p as [|c p IH]; intros [|d a] b; simpl; try easy.
  intros Hstart. apply andb_true_iff in Hstart as [-> Hrest].
  simpl. now apply IH.
Qed.

Lemma includes_cons p c a :
  Js.includes p (String c a) = Js.startsWith p (String c a) || Js.includes p a.
Proof. reflexivity. Qed.

Lemma includes_app_l p a b : Js.includes p a = true -> Js.includes p (a +:+ b) = true.
Proof.
  induction a as [|c a IH].
  - rewrite append_nil. destruct p; [now destruct b|discriminate].
  - rewrite append_cons, !includes_cons. intros Hin.
    apply orb_true_iff in Hin as [Hstart|Hin].
    + apply (startsWith_app_l p (String c a) b) in Hstart. rewrite append_cons in Hstart.
      now rewrite Hstart.
    + rewrite (IH Hin). apply orb_true_r.
Qed.

Lemma includes_app_r p a b : Js.includes p b = true -> Js.includes p (a +:+ b) = true.
Proof.
  induction a as [|c a IH]; intros Hin; [exact Hin|].
  rewrite append_cons, includes_cons. rewrite (IH Hin). apply orb_true_r.
Qed.

Lemma startsWith_self_app a b : Js.startsWith a (a +:+ b) = true.
Proof. apply startsWith_app. Qed.

Lemma startsWith_refl a : Js.startsWith a a = true.
Proof. induction a as [|c a IH]; [reflexivity|]. simpl. now rewrite Ascii.eqb_refl. Qed.

Lemma message_with_message error message : message_of (with_message error message) = message.
Proof. now destruct error. Qed.

(** X18. [appendSuspenseHint] leaves an error whose message holds the
    hint, keeps the message it found at the start of the new one, and
    changes nothing when the hint is there already, so that a second call
    is without effect; an error that [isSuspenseWithoutBoundaryError]
    recognises is still recognised afterwards. *)
Theorem appendSuspenseHint_once (error : JsError) :
  Js.includes "HyperBun hint" (message_of (appendSuspenseHint error)) = true
  /\ Js.startsWith (message_of error) (message_of (appendSuspenseHint error)) = true
  /\ appendSuspenseHint (appendSuspenseHint error) = appendSuspenseHint error
  /\ (Js.includes "HyperBun hint" (message_of error) = true ->
      appendSuspenseHint error = error)
  /\ (isSuspenseWithoutBoundaryError error = true ->
      isSuspenseWithoutBoundaryError (appendSuspenseHint error) = true).
Proof.
  assert (Hhint : Js.includes "HyperBun hint" (message_of (appendSuspenseHint error)) = true).
  { unfold appendSuspenseHint.
    destruct (Js.includes "HyperBun hint" (message_of error)) eqn:Hthere; [exact Hthere|].
    cbn [negb]. rewrite message_with_message. now apply includes_app_r. }
  split; [exact Hhint|]. split; [|split; [|split]].
  - unfold appendSuspenseHint.
    destruct (Js.includes "HyperBun hint" (message_of error)); cbn [negb].
    + apply startsWith_refl.
    + rewrite message_with_message. apply startsWith_app.
  - unfold appendSuspenseHint at 1. now rewrite Hhint.
  - intros Hthere. unfold appendSuspenseHint. now rewrite Hthere.
  - unfold appendSuspenseHint, isSuspenseWithoutBoundaryError.
    destruct (Js.includes "HyperBun hint" (message_of error)); cbn [negb]; [easy|].
    rewrite message_with_message. intros Hsuspense.
    apply orb_true_iff in Hsuspense as [Hsuspense|Hthird].
    + apply orb_true_iff in Hsuspense as [Hfirst|Hsecond].
      * now rewrite (includes_app_l _ _ suspense_hint Hfirst).
      * rewrite (includes_app_l _ _ suspense_hint Hsecond). now rewrite orb_true_r.
    + rewrite (includes_app_l _ _ suspense_hint Hthird). now rewrite orb_true_r.
Qed.


End RenderFacts.

(** The reference of the example page under its cache key. *)
Lemma cacheKey_tells_references_apart_witness :
  Js.has_char "#" "/srv/app/src/pages/Home.tsx" = false
  /\ cacheKey {| modulePath := Path.resolve "/srv/app" ["/srv/app/src"; "./pages/Home.tsx"];
                 exportName := "Home" |}
     = "/srv/app/src/pages/Home.tsx#Home"
  /\ {| modulePath := Path.resolve "/srv/app" ["/srv/app/src"; "./pages/Home.tsx"];
        exportName := "Home" |}
     = {| modulePath := "/srv/app/src/pages/Home.tsx"; exportName := "Home" |}.
Proof.
  split; [reflexivity|]. split; [reflexivity|].
  exact (cacheKey_tells_references_apart
           {| modulePath := Path.resolve "/srv/app" ["/srv/app/src"; "./pages/Home.tsx"];
              exportName := "Home" |}
           {| modulePath := "/srv/app/src/pages/Home.tsx"; exportName := "Home" |}
           eq_refl eq_refl eq_refl).
Defined.

(** ** The arguments of the scaffolding command *)

Section CliFacts.

Lemma parseArgs_loop_double_dash after : forall n before,
  length before <= n -> "--" ∉ before ->
  forall options positionals,
    Cli.parseArgs_loop (before ++ "--" :: after) options positionals
    = ((Cli.parseArgs_loop before options positionals).1,
       (Cli.parseArgs_loop before options positionals).2 ++ after).
Proof.
  induction n as [|n IH]; intros [|arg rest] Hlen Hdash options positionals;
    simpl in Hlen; try lia; try reflexivity.
  assert (Harg : String.eqb arg "--" = false).
  { apply String.eqb_neq. intros ->. apply Hdash. now left. }
  assert (Hrest : "--" ∉ rest) by (intros Hin; apply Hdash; now right).
  assert (IHrest : forall o p,
            Cli.parseArgs_loop (rest ++ "--" :: after) o p
            = ((Cli.parseArgs_loop rest o p).1, (Cli.parseArgs_loop rest o p).2 ++ after))
    by (intros o p; apply IH; [lia|exact Hrest]).
  assert (IHnext : forall next rest' o p, rest = next :: rest' ->
            Cli.parseArgs_loop (rest' ++ "--" :: after) o p
            = ((Cli.parseArgs_loop rest' o p).1, (Cli.parseArgs_loop rest' o p).2 ++ after)).
  { intros next rest' o p ->. apply IH; [simpl in Hlen; lia|].
    intros Hin. apply Hrest. now right. }
  change ((arg :: rest) ++ "--" :: after) with (arg :: (rest ++ "--" :: after)).
  cbn [Cli.parseArgs_loop]. rewrite Harg.
  repeat
    match goal with
    | |- (if ?c then _ else _) = _ =>
        destruct c;
        [ first
            [ solve [apply IHrest]
            | destruct rest as [|next rest'];
              [ reflexivity
              | change ((next :: rest') ++ "--" :: after)
                  with (next :: (rest' ++ "--" :: after));
                cbv iota; destruct (Cli.is_value next);
                [ solve [eapply IHnext; reflexivity] | solve [apply IHrest] ] ] ]
        | ]
    end.
  apply IHrest.
Qed.

Lemma parseArgs_loop_positionals : forall n rawArgs,
  length rawArgs <= n ->
  forall options positionals,
    exists added,
      (Cli.parseArgs_loop rawArgs options positionals).2 = positionals ++ added
      /\ sublist added rawArgs
      /\ ("--" ∉ rawArgs -> Forall (fun p => Js.startsWith "-" p = false) added).
Proof.
  induction n as [|n IH]; intros [|arg rest] Hlen options positionals; simpl in Hlen; try lia;
    try (exists []; rewrite app_nil_r; repeat split; constructor).
  assert (IHrest : forall o p,
            exists added,
              (Cli.parseArgs_loop rest o p).2 = p ++ added
              /\ sublist added (arg :: rest)
              /\ ("--" ∉ arg :: rest -> Forall (fun p => Js.startsWith "-" p = false) added)).
  { intros o p. destruct (IH rest ltac:(lia) o p) as (added & Hadded & Hsub & Hdash).
    exists added. split; [exact Hadded|]. split; [now apply sublist_cons|].
    intros Hnone. apply Hdash. intros Hin. apply Hnone. now right. }
  assert (IHnext : forall next rest' o p, rest = next :: rest' ->
            exists added,
              (Cli.parseArgs_loop rest' o p).2 = p ++ added
              /\ sublist added (arg :: next :: rest')
              /\ ("--" ∉ arg :: next :: rest' ->
                  Forall (fun p => Js.startsWith "-" p = false) added)).
  { intros next rest' o p ->. simpl in Hlen.
    destruct (IH rest' ltac:(lia) o p) as (added & Hadded & Hsub & Hdash).
    exists added. split; [exact Hadded|]. split; [now do 2 apply sublist_cons|].
    intros Hnone. apply Hdash. intros Hin. apply Hnone. right. now right. }
  cbn [Cli.parseArgs_loop].
  destruct (String.eqb_spec arg "--") as [->|Harg].
  { exists rest. split; [reflexivity|]. split; [now apply sublist_cons|].
    intros Hnone. exfalso. apply Hnone. now left. }
  repeat
    match goal with
    | |- exists added, (if ?c then _ else _).2 = _ /\ _ =>
        lazymatch c with
        | Js.startsWith "-" arg => fail
        | _ =>
          destruct c;
          [ first
              [ solve [apply IHrest]
              | destruct rest as [|next rest'];
                [ solve [apply IHrest]
                | cbv iota; destruct (Cli.is_value next);
                  [ solve [eapply IHnext; reflexivity] | solve [apply IHrest] ] ] ]
          | ]
        end
    end.
  destruct (Js.startsWith "-" arg) eqn:Hplain; [apply IHrest|].
  destruct (IH rest ltac:(lia) options (positionals ++ [arg])) as (added & Hadded & Hsub & Hdash).
  exists (arg :: added). split; [now rewrite Hadded, <- app_assoc|].
  split; [now apply sublist_skip|].
  intros Hnone. constructor; [exact Hplain|]. apply Hdash. intros Hin. apply Hnone. now right.
Qed.

(** X21. Everything after the first [--] is positional, as it is written,
    and the options are those of the arguments before it: when no
    argument of [before] is [--], parsing [before], [--] and [after] gives
    the options of [before] alone and its positionals followed by
    [after].  None of the positionals found before the [--] begins with a
    dash. *)
Theorem parseArgs_double_dash (before after : list string) :
  "--" ∉ before ->
  Cli.parseArgs (before ++ "--" :: after)
  = ((Cli.parseArgs before).1, (Cli.parseArgs before).2 ++ after)
  /\ Forall (fun p => Js.startsWith "-" p = false) (Cli.parseArgs before).2.
Proof.
  intros Hdash. unfold Cli.parseArgs. split.
  - now apply (parseArgs_loop_double_dash after (length before)).
  - destruct (parseArgs_loop_positionals (length before) before (le_n _) Cli.initial_options [])
      as (added & -> & _ & Hplain).
    now apply Hplain.
Qed.

(** X22. The positionals [parseArgs] returns are arguments of the command
    line, in the order they were given: they are a subsequence of the raw
    arguments, so that no positional is invented, repeated or moved. *)
Theorem parseArgs_positionals_are_arguments (rawArgs : list string) :
  sublist (Cli.parseArgs rawArgs).2 rawArgs.
Proof.
  unfold Cli.parseArgs.
  destruct (parseArgs_loop_positionals (length rawArgs) rawArgs (le_n _)
              Cli.initial_options [])
    as (added & -> & Hsub & _).
  exact Hsub.
Qed.

End CliFacts.

(** [create-hyperbun my-app --no-git -- --force]: the flag after [--] is
    a positional and sets nothing. *)
Lemma parseArgs_double_dash_witness :
  ("--" ∉ ["my-app"; "--no-git"])
  /\ (Cli.parseArgs ["my-app"; "--no-git"; "--"; "--force"]).2 = ["my-app"; "--force"]
  /\ Cli.force (Cli.parseArgs ["my-app"; "--no-git"; "--"; "--force"]).1 = false
  /\ Cli.git (Cli.parseArgs ["my-app"; "--no-git"; "--"; "--force"]).1 = false.
Proof.
  assert (Hdash : "--" ∉ ["my-app"; "--no-git"]).
  { intros Hin. apply elem_of_cons in Hin as [Hin|Hin]; [discriminate|].
    apply elem_of_cons in Hin as [Hin|Hin]; [discriminate|]. now apply elem_of_nil in Hin. }
  split; [exact Hdash|].
  destruct (parseArgs_double_dash ["my-app"; "--no-git"] ["--force"] Hdash) as [Hparse _].
  split; [exact (f_equal snd Hparse)|]. split; reflexivity.
Defined.

(** ** Package names *)

Section PackageNameFacts.

Lemma name_char_lower c : Cli.is_name_char c = true -> Js.lower_char c = c.
Proof. destruct c as [[] [] [] [] [] [] [] []]; vm_compute; congruence. Qed.

Lemma name_char_no_space c : Cli.is_name_char c = true -> Cli.is_space c = false.
Proof. destruct c as [[] [] [] [] [] [] [] []]; vm_compute; congruence. Qed.

Lemma dash_is_name_char : Cli.is_name_char "-" = true.
Proof. reflexivity. Qed.

Lemma replace_runs_class keep (class : ascii -> bool) : forall s in_run,
  class "-"%char = true ->
  (forall c, keep c = true -> class c = true) ->
  Cli.all_chars class (Cli.replace_runs keep in_run s) = true.
Proof.
  induction s as [|c s IH]; intros in_run Hdash Hkeep; [reflexivity|]. simpl.
  destruct (keep c) eqn:Hc.
  - simpl. now rewrite (Hkeep c Hc), IH.
  - destruct in_run; [now apply IH|]. simpl. now rewrite Hdash, IH.
Qed.

Lemma replace_runs_keeps_class keep (class : ascii -> bool) : forall s in_run,
  class "-"%char = true ->
  Cli.all_chars class s = true ->
  Cli.all_chars class (Cli.replace_runs keep in_run s) = true.
Proof.
  induction s as [|c s IH]; intros in_run Hdash Hall; [reflexivity|]. simpl in *.
  apply andb_true_iff in Hall as [Hc Hs].
  destruct (keep c).
  - simpl. now rewrite Hc, IH.
  - destruct in_run; [now apply IH|]. simpl. now rewrite Hdash, IH.
Qed.

Lemma strip_leading_class (class : ascii -> bool) s :
  Cli.all_chars class s = true -> Cli.all_chars class (Cli.strip_leading s) = true.
Proof.
  induction s as [|c s IH]; [reflexivity|]. intros Hall. simpl.
  destruct (Ascii.eqb c "-" || Ascii.eqb c "."); [|exact Hall].
  simpl in Hall. apply andb_true_iff in Hall as [_ Hs]. now apply IH.
Qed.

Lemma collapse_no_double_dash : forall s in_run,
  Js.includes "--" (Cli.replace_runs (fun c => negb (Ascii.eqb c "-")) in_run s) = false
  /\ (in_run = true ->
      Js.startsWith "-" (Cli.replace_runs (fun c => negb (Ascii.eqb c "-")) in_run s) = false).
Proof.
  induction s as [|c s IH]; intros in_run; [now split|]. cbn [Cli.replace_runs].
  destruct (Ascii.eqb_spec c "-") as [->|Hc]; cbn [negb].
  - destruct in_run.
    + apply IH.
    + destruct (IH true) as [Hin Hstart]. split; [|discriminate].
      rewrite includes_cons, Hin, orb_false_r.
      change (Js.startsWith "--" (String "-" ?rest)) with (Js.startsWith "-" rest).
      now apply Hstart.
  - destruct (IH false) as [Hin _].
    assert (Hne : Ascii.eqb "-" c = false) by (apply Ascii.eqb_neq; congruence).
    split.
    + rewrite includes_cons, Hin, orb_false_r. cbn [Js.startsWith]. now rewrite Hne.
    + intros _. cbn [Js.startsWith]. now rewrite Hne.
Qed.

Lemma strip_leading_includes p s :
  Js.includes p s = false -> Js.includes p (Cli.strip_leading s) = false.
Proof.
  induction s as [|c s IH]; [easy|]. intros Hin. simpl.
  destruct (Ascii.eqb c "-" || Ascii.eqb c "."); [|exact Hin].
  rewrite includes_cons in Hin. apply orb_false_iff in Hin as [_ Hin]. now apply IH.
Qed.

Lemma strip_leading_starts s :
  Js.startsWith "-" (Cli.strip_leading s) = false
  /\ Js.startsWith "." (Cli.strip_leading s) = false.
Proof.
  induction s as [|c s IH]; [now split|]. cbn [Cli.strip_leading].
  destruct (Ascii.eqb c "-") eqn:Hdash; [exact IH|].
  destruct (Ascii.eqb c ".") eqn:Hdot; [exact IH|]. cbn [orb Js.startsWith].
  rewrite (Ascii.eqb_sym "-" c), (Ascii.eqb_sym "." c), Hdash, Hdot. now split.
Qed.

Lemma trim_name s : Cli.all_chars Cli.is_name_char s = true -> Cli.trim s = s.
Proof.
  intros Hall. unfold Cli.trim.
  assert (Hstart : Cli.trimStart s = s).
  { destruct s as [|c s]; [reflexivity|]. simpl in *.
    apply andb_true_iff in Hall as [Hc _]. now rewrite (name_char_no_space c Hc). }
  rewrite Hstart. induction s as [|c s IH]; [reflexivity|]. simpl in *.
  apply andb_true_iff in Hall as [Hc Hs]. rewrite IH; [|exact Hs|].
  - destruct s; [now rewrite (name_char_no_space c Hc)|reflexivity].
  - destruct s as [|d s]; [reflexivity|]. simpl in *.
    apply andb_true_iff in Hs as [Hd _]. now rewrite (name_char_no_space d Hd).
Qed.

Lemma lower_name s : Cli.all_chars Cli.is_name_char s = true -> Js.toLowerCase s = s.
Proof.
  induction s as [|c s IH]; [reflexivity|]. simpl. intros Hall.
  apply andb_true_iff in Hall as [Hc Hs].
  unfold Js.toLowerCase in *. simpl. now rewrite (name_char_lower c Hc), IH.
Qed.

Lemma replace_runs_kept keep : forall s in_run,
  Cli.all_chars keep s = true -> Cli.replace_runs keep in_run s = s.
Proof.
  induction s as [|c s IH]; intros in_run Hall; [reflexivity|]. simpl in *.
  apply andb_true_iff in Hall as [Hc Hs]. now rewrite Hc, IH.
Qed.

Lemma collapse_fixed : forall s in_run,
  Js.includes "--" s = false ->
  (in_run = true -> Js.startsWith "-" s = false) ->
  Cli.replace_runs (fun c => negb (Ascii.eqb c "-")) in_run s = s.
Proof.
  induction s as [|c s IH]; intros in_run Hin Hstart; [reflexivity|]. simpl.
  rewrite includes_cons in Hin. apply orb_false_iff in Hin as [Hhead Hin].
  destruct (Ascii.eqb_spec c "-") as [->|Hc]; simpl.
  - destruct in_run; [now specialize (Hstart eq_refl)|].
    rewrite IH; [reflexivity|exact Hin|]. intros _. exact Hhead.
  - rewrite IH; [reflexivity|exact Hin|discriminate].
Qed.

Lemma strip_leading_fixed s :
  Js.startsWith "-" s = false -> Js.startsWith "." s = false -> Cli.strip_leading s = s.
Proof.
  destruct s as [|c s]; [reflexivity|]. cbn [Cli.strip_leading Js.startsWith].
  intros Hdash Hdot. destruct s; rewrite andb_true_r in Hdash, Hdot;
    now rewrite (Ascii.eqb_sym c "-"), (Ascii.eqb_sym c "."), Hdash, Hdot.
Qed.

(** A name that is already valid is returned as it is. *)
Lemma toValidPackageName_fixed name :
  name <> "" ->
  Cli.all_chars Cli.is_name_char name = true ->
  Js.startsWith "-" name = false ->
  Js.startsWith "." name = false ->
  Js.includes "--" name = false ->
  Cli.toValidPackageName name = name.
Proof.
  intros Hne Hall Hdash Hdot Hdouble. unfold Cli.toValidPackageName.
  rewrite (trim_name _ Hall), (lower_name _ Hall), (replace_runs_kept _ _ _ Hall).
  rewrite (collapse_fixed name false Hdouble) by discriminate.
  rewrite (strip_leading_fixed _ Hdash Hdot).
  destruct name; [contradiction|reflexivity].
Qed.

(** X23. [toValidPackageName] always returns a usable name: it is not
    empty, it is written with lower-case letters, digits, dots,
    underscores and dashes only, it begins with neither a dash nor a dot,
    and it has no two dashes in a row.  A name of this form is returned
    unchanged, so the function is idempotent. *)
Theorem toValidPackageName_valid (value : string) :
  let name := Cli.toValidPackageName value in
  name <> ""
  /\ Cli.all_chars Cli.is_name_char name = true
  /\ Js.startsWith "-" name = false
  /\ Js.startsWith "." name = false
  /\ Js.includes "--" name = false
  /\ Cli.toValidPackageName name = name.
Proof.
  cbv zeta.
  assert (Hshape : Cli.toValidPackageName value <> ""
                   /\ Cli.all_chars Cli.is_name_char (Cli.toValidPackageName value) = true
                   /\ Js.startsWith "-" (Cli.toValidPackageName value) = false
                   /\ Js.startsWith "." (Cli.toValidPackageName value) = false
                   /\ Js.includes "--" (Cli.toValidPackageName value) = false).
  { unfold Cli.toValidPackageName.
    set (lower := Cli.replace_runs Cli.is_name_char false (Js.toLowerCase (Cli.trim value))).
    set (collapsed := Cli.strip_leading
                        (Cli.replace_runs (fun c => negb (Ascii.eqb c "-")) false lower)).
    destruct (String.length collapsed =? 0)%nat eqn:Hlen; [now repeat split|].
    split; [intros Hempty; now rewrite Hempty in Hlen|].
    split.
    { subst collapsed. apply strip_leading_class.
      apply replace_runs_keeps_class; [reflexivity|].
      subst lower. apply replace_runs_class; [reflexivity|auto]. }
    destruct (strip_leading_starts
                (Cli.replace_runs (fun c => negb (Ascii.eqb c "-")) false lower))
      as [Hdash Hdot].
    split; [exact Hdash|]. split; [exact Hdot|].
    subst collapsed. apply strip_leading_includes. apply collapse_no_double_dash. }
  destruct Hshape as (Hne & Hall & Hdash & Hdot & Hdouble).
  repeat split; try assumption. now apply toValidPackageName_fixed.
Qed.

End PackageNameFacts.

(** ** The routes of the JSX server *)

Section JsxRouteFacts.
Context `{JsxHost}.

Lemma object_set_keys {V} (obj : list (string * V)) key value :
  map fst (object_set obj key value)
  = if bool_decide (key ∈ map fst obj) then map fst obj else map fst obj ++ [key].
Proof.
  induction obj as [|[k v] rest IH]; [reflexivity|]. cbn [object_set map fst].
  destruct (String.eqb_spec k key) as [->|Hk].
  - rewrite bool_decide_eq_true_2 by (now left). reflexivity.
  - cbn [map fst]. rewrite IH. destruct (bool_decide (key ∈ map fst rest)) eqn:Hin.
    + apply bool_decide_eq_true_1 in Hin. rewrite bool_decide_eq_true_2 by (now right).
      reflexivity.
    + apply bool_decide_eq_false_1 in Hin. rewrite bool_decide_eq_false_2; [reflexivity|].
      intros Hin'. apply elem_of_cons in Hin' as [->|Hin']; [now apply Hk|now apply Hin].
Qed.

Lemma object_set_distinct {V} (obj : list (string * V)) key value :
  NoDup (map fst obj) -> NoDup (map fst (object_set obj key value)).
Proof.
  intros Hnd. rewrite object_set_keys. destruct (bool_decide (key ∈ map fst obj)) eqn:Hin;
    [exact Hnd|].
  apply bool_decide_eq_false_1 in Hin. apply NoDup_app. split; [exact Hnd|].
  split; [|apply NoDup_singleton].
  intros x Hx Hkey. apply list_elem_of_singleton in Hkey. now subst x.
Qed.

Lemma object_spread_distinct {V} (b : list (string * V)) : forall a,
  NoDup (map fst a) -> NoDup (map fst (object_spread a b)).
Proof.
  induction b as [|[k v] b IH]; intros a Hnd; [exact Hnd|].
  apply (IH (object_set a k v)). now apply object_set_distinct.
Qed.

Lemma object_spread_get {V} (b : list (string * V)) : forall a key,
  NoDup (map fst b) ->
  object_get (object_spread a b) key
  = match object_get b key with
    | Some value => Some value
    | None => object_get a key
    end.
Proof.
  induction b as [|[k v] b IH]; intros a key Hnd; [reflexivity|].
  inversion Hnd as [|? ? Hfresh Hrest]; subst.
  change (object_spread a ((k, v) :: b)) with (object_spread (object_set a k v) b).
  rewrite (IH _ key Hrest), object_get_set. cbn [object_get].
  destruct (String.eqb_spec k key) as [->|Hk]; [|reflexivity].
  now rewrite object_get_absent by (now rewrite <- list_elem_of_In).
Qed.

Lemma page_handlers_made pages scriptHref styleHrefs entries : forall acc handlers,
  page_handlers entries pages scriptHref styleHrefs acc = Return handlers ->
  NoDup (map fst acc ++ map fst entries) ->
  exists made,
    handlers = acc ++ made /\ page_handlers_of pages scriptHref styleHrefs entries made.
Proof.
  induction entries as [|[route descriptor] rest IH]; intros acc handlers; simpl.
  - intros [= <-] _. exists []. split; [now rewrite app_nil_r|constructor].
  - destruct (object_get pages route) as [page|] eqn:Hpage; [|discriminate].
    intros Hrun Hnd.
    assert (Hfresh : ~ In route (map fst acc)).
    { apply NoDup_app in Hnd as (_ & Hdisj & _). intros Hin.
      apply (Hdisj route); [now apply list_elem_of_In|]. now left. }
    rewrite (object_set_fresh _ _ _ Hfresh) in Hrun.
    destruct (IH _ _ Hrun) as (made & -> & Hmade).
    { rewrite map_app. simpl. now rewrite <- app_assoc. }
    eexists (_ :: made). split; [now rewrite <- app_assoc|].
    constructor; [|exact Hmade]. split; [reflexivity|]. exists page. now split.
Qed.

Lemma page_handlers_of_routes pages scriptHref styleHrefs entries made :
  page_handlers_of pages scriptHref styleHrefs entries made -> map fst made = map fst entries.
Proof.
  induction 1 as [|[r d] [r' e] ? ? [Hr _] _ IH]; [reflexivity|].
  simpl in *. now rewrite IH, Hr.
Qed.

Lemma page_handlers_of_elem pages scriptHref styleHrefs entries made route descriptor :
  page_handlers_of pages scriptHref styleHrefs entries made ->
  In (route, descriptor) entries ->
  exists page,
    object_get pages route = Some page
    /\ In (route, EntryHandler (page_handler_of route page descriptor scriptHref styleHrefs))
         made.
Proof.
  induction 1 as [|[r d] [r' e] ? ? [Hr (page & Hpage & He)] _ IH]; [easy|].
  simpl in *. subst r' e. intros [[= -> ->]|Hin].
  - exists page. split; [exact Hpage|now left].
  - destruct (IH Hin) as (page' & Hpage' & Hmade). exists page'. split; [exact Hpage'|now right].
Qed.

(** X24. In the server [createJSXServer] returns, a page is served under
    its route also when the API routes have an entry under the same
    pattern: the combined route table holds the page handler under every
    page route and the API entry under every other pattern, and a request
    the router matches to a pattern is answered by the handler made for
    the combined table's entry. *)
Theorem page_routes_shadow_api_routes (options : JSXServerOptions) (server : Server) :
  createJSXServer options = Return server ->
  NoDup (map fst (jsx_pages options)) ->
  NoDup (map fst (default [] (jsx_apiRoutes options))) ->
  exists prepared styleHrefs combined,
    prepareJSXEnvironment (prepare_input_of options) = Return prepared
    /\ (forall route page,
          In (route, page) (jsx_pages options) ->
          exists descriptor,
            object_get (descriptors prepared) route = Some descriptor
            /\ object_get combined route
               = Some (EntryHandler
                         (page_handler_of route page descriptor (scriptHref prepared)
                            styleHrefs)))
    /\ (forall pattern,
          ~ In pattern (map fst (jsx_pages options)) ->
          object_get combined pattern
          = object_get (default [] (jsx_apiRoutes options)) pattern)
    /\ forall request pattern entry,
         select_route (map fst combined) (pathname request) = Some pattern ->
         object_get combined pattern = Some entry ->
         exists handler,
           createRouteHandler entry pattern (jsx_baseHeaders options) (jsx_onError options)
           = Return handler
           /\ server request = handler request.
Proof.
  intros Hcreate Hpages Hapi. unfold createJSXServer in Hcreate.
  fold (prepare_input_of options) in Hcreate.
  destruct (prepareJSXEnvironment (prepare_input_of options)) as [prepared|e] eqn:Hprepared;
    simpl in Hcreate; [|discriminate].
  match type of Hcreate with
  | (?build ≫= _) = _ => destruct build as [styleHrefs|e]; simpl in Hcreate; [|discriminate]
  end.
  destruct (page_handlers (descriptors prepared) (jsx_pages options) (scriptHref prepared)
              styleHrefs []) as [pageHandlers|e] eqn:Hhandlers; simpl in Hcreate;
    [|discriminate].
  destruct (prepareJSXEnvironment_descriptors _ _ Hprepared) as (Hbuild & _).
  destruct (buildComponentDescriptors_loop_made _ _ _ _ Hbuild Hpages)
    as (fresh & Hfresh & Hof).
  simpl in Hfresh. rewrite <- Hfresh in Hof.
  assert (Hroutes : map fst (descriptors prepared) = map fst (jsx_pages options))
    by exact (descriptors_of_routes _ _ _ Hof).
  assert (Hdistinct : NoDup (map fst (descriptors prepared))) by (now rewrite Hroutes).
  destruct (page_handlers_made _ _ _ _ _ _ Hhandlers Hdistinct) as (made & -> & Hmade).
  simpl in Hcreate.
  assert (Hkeys : map fst made = map fst (jsx_pages options))
    by (now rewrite (page_handlers_of_routes _ _ _ _ _ Hmade)).
  assert (Hmade_distinct : NoDup (map fst made)) by (now rewrite Hkeys).
  set (combined := object_spread (default [] (jsx_apiRoutes options)) made) in *.
  exists prepared, styleHrefs, combined. split; [reflexivity|].
  split; [|split].
  - intros route page Hin.
    destruct (descriptors_of_elem _ _ _ _ _ Hof Hin) as (descriptor & Hd & _).
    exists descriptor. split; [now apply object_get_distinct|].
    destruct (page_handlers_of_elem _ _ _ _ _ _ _ Hmade Hd) as (page' & Hpage' & Hentry).
    simpl in Hpage'. rewrite (object_get_distinct _ _ _ Hpages Hin) in Hpage'.
    injection Hpage' as <-.
    unfold combined. rewrite (object_spread_get _ _ _ Hmade_distinct).
    now rewrite (object_get_distinct _ _ _ Hmade_distinct Hentry).
  - intros pattern Hpattern. unfold combined.
    rewrite (object_spread_get _ _ _ Hmade_distinct).
    now rewrite object_get_absent by (now rewrite Hkeys).
  - intros request pattern entry Hselect Hentry.
    match type of Hcreate with
    | createServer ?serverOptions = _ =>
        pose proof (createServer_serves serverOptions server request Hcreate) as Hserves
    end.
    unfold route_selected, distinct_patterns in Hserves. cbn [routes] in Hserves.
    fold combined in Hserves. rewrite Hselect, Hentry in Hserves.
    apply Hserves. unfold combined. now apply object_spread_distinct.
Qed.

End JsxRouteFacts.

(** The example page at [/] is served in place of the API response. *)
Lemma page_routes_shadow_api_routes_witness :
  exists server,
    createJSXServer (H0 := example_jsx_host) example_shadowing_options = Return server
    /\ NoDup (map fst (jsx_pages example_shadowing_options))
    /\ NoDup (map fst (default [] (jsx_apiRoutes example_shadowing_options)))
    /\ exists prepared styleHrefs combined descriptor,
         object_get (descriptors prepared) "/" = Some descriptor
         /\ object_get combined "/"
            = Some (EntryHandler
                      (page_handler_of (H0 := example_jsx_host) "/" example_module_page
                         descriptor (scriptHref prepared) styleHrefs)).
Proof.
  eexists. split; [reflexivity|].
  assert (Hpages : NoDup (map fst (jsx_pages example_shadowing_options))).
  { apply NoDup_cons_2; [apply not_elem_of_nil|apply NoDup_nil_2]. }
  assert (Hapi : NoDup (map fst (default [] (jsx_apiRoutes example_shadowing_options)))).
  { apply NoDup_cons_2.
    - intros Hin. apply list_elem_of_singleton in Hin. discriminate.
    - apply NoDup_cons_2; [apply not_elem_of_nil|apply NoDup_nil_2]. }
  split; [exact Hpages|]. split; [exact Hapi|].
  destruct (page_routes_shadow_api_routes (H0 := example_jsx_host) example_shadowing_options _
              eq_refl Hpages Hapi)
    as (prepared & styleHrefs & combined & _ & Hpage & _).
  destruct (Hpage "/" example_module_page (or_introl eq_refl)) as (descriptor & Hd & Hentry).
  exists prepared, styleHrefs, combined, descriptor. split; [exact Hd|exact Hentry].
Defined.

(** * The code with the checks of the runtime *)

(** ** Header lists *)

Section HeaderListFacts.

Lemma fill_spec init base :
  HeaderList.fill init = Some base ->
  base = map (fun entry => (Js.toLowerCase entry.1, HeaderList.strip entry.2)) init.
Proof.
  revert base. induction init as [|entry rest IH]; intros base; simpl.
  - now intros [= <-].
  - unfold HeaderList.normalize.
    destruct (HeaderList.valid_name entry.1 && HeaderList.valid_value (HeaderList.strip entry.2));
      [|discriminate].
    destruct (HeaderList.fill rest) as [filled|]; [|discriminate].
    intros [= <-]. now rewrite (IH filled eq_refl).
Qed.

Lemma values_filled init name :
  HeaderList.values
    (map (fun entry => (Js.toLowerCase entry.1, HeaderList.strip entry.2)) init) name
  = map (fun entry => HeaderList.strip entry.2)
      (List.filter (fun entry => String.eqb (Js.toLowerCase entry.1) name) init).
Proof.
  unfold HeaderList.values. induction init as [|entry rest IH]; [reflexivity|].
  cbn [map List.filter fst snd]. destruct (String.eqb (Js.toLowerCase entry.1) name).
  - cbn [map snd]. now rewrite IH.
  - exact IH.
Qed.

(** On the list [new Headers(init)] makes, [get] answers what the
    specification's words give for the name. *)
Lemma get_filled init base name :
  HeaderList.fill init = Some base -> HeaderList.get base name = base_value init name.
Proof.
  intros Hfill. rewrite (fill_spec _ _ Hfill). unfold HeaderList.get, base_value.
  rewrite values_filled.
  now destruct (List.filter _ init).
Qed.

Lemma insert_name_In name : forall names x,
  In x (HeaderList.insert_name name names) <-> x = name \/ In x names.
Proof.
  induction names as [|first rest IH]; intros x; simpl; [intuition congruence|].
  destruct (String.eqb_spec name first) as [->|_]; [simpl; intuition congruence|].
  destruct (String.leb name first); simpl; [intuition congruence|]. rewrite IH.
  intuition congruence.
Qed.

Lemma names_In hs x : In x (HeaderList.names hs) <-> In x (map fst hs).
Proof.
  induction hs as [|header rest IH]; simpl; [tauto|].
  rewrite insert_name_In, IH. intuition congruence.
Qed.

Lemma values_nil hs name : HeaderList.values hs name = [] <-> ~ In name (map fst hs).
Proof.
  unfold HeaderList.values. induction hs as [|header rest IH]; simpl; [tauto|].
  destruct (String.eqb_spec header.1 name) as [Heq|Hne]; simpl.
  - split; [discriminate|]. intros Hnot. exfalso. apply Hnot. now left.
  - rewrite IH. split; [intros Hnot [Hin|Hin]; [contradiction|now apply Hnot]|tauto].
Qed.

(** The first entry of an iteration under a name is the first entry that
    the name itself contributes. *)
Lemma object_get_flat_map {V} (f : string -> list (string * V)) names name :
  (forall n, Forall (fun entry => entry.1 = n) (f n)) ->
  object_get (flat_map f names) name
  = if bool_decide (name ∈ names) then object_get (f name) name else None.
Proof.
  intros Hkeys. induction names as [|first rest IH]; [reflexivity|].
  cbn [flat_map]. rewrite object_get_app.
  destruct (String.eqb_spec first name) as [->|Hne].
  - rewrite bool_decide_eq_true_2 by (now left).
    destruct (object_get (f name) name) as [v|] eqn:Hfirst; [reflexivity|].
    rewrite IH. now destruct (bool_decide (name ∈ rest)).
  - assert (Hnone : object_get (f first) name = None).
    { specialize (Hkeys first). induction (f first) as [|[k v] entries IHe]; [reflexivity|].
      inversion Hkeys as [|? ? Hk Hrest]. simpl in Hk. cbn [object_get].
      destruct (String.eqb_spec k name) as [Hkn|_]; [congruence|]. now apply IHe. }
    rewrite Hnone, IH. destruct (bool_decide (name ∈ rest)) eqn:Hin.
    + apply bool_decide_eq_true_1 in Hin. now rewrite bool_decide_eq_true_2 by (now right).
    + apply bool_decide_eq_false_1 in Hin. rewrite bool_decide_eq_false_2; [reflexivity|].
      intros Hin'. apply elem_of_cons in Hin' as [Heq|Hrest]; [now apply Hne|now apply Hin].
Qed.

Lemma entries_keys hs n :
  Forall (fun entry : string * string => entry.1 = n)
    (if String.eqb n "set-cookie" then map (pair n) (HeaderList.values hs n)
     else [(n, Js.join ", " (HeaderList.values hs n))]).
Proof.
  destruct (String.eqb n "set-cookie").
  - induction (HeaderList.values hs n); constructor; auto.
  - now repeat constructor.
Qed.

(** The entry the iteration gives first under a name: the combined value,
    or the first cookie. *)
Lemma entries_get hs name :
  object_get (HeaderList.entries hs) name
  = if String.eqb name "set-cookie" then head (HeaderList.values hs name)
    else match HeaderList.values hs name with
         | [] => None
         | found => Some (Js.join ", " found)
         end.
Proof.
  unfold HeaderList.entries.
  rewrite (object_get_flat_map _ _ name (entries_keys hs)).
  destruct (bool_decide (name ∈ HeaderList.names hs)) eqn:Hin.
  - apply bool_decide_eq_true_1 in Hin. rewrite list_elem_of_In, names_In in Hin.
    assert (Hsome : HeaderList.values hs name <> []) by (rewrite values_nil; tauto).
    destruct (String.eqb name "set-cookie").
    + destruct (HeaderList.values hs name) as [|v vs]; [contradiction|].
      simpl. now rewrite String.eqb_refl.
    + simpl. rewrite String.eqb_refl. now destruct (HeaderList.values hs name).
  - apply bool_decide_eq_false_1 in Hin. rewrite list_elem_of_In, names_In in Hin.
    apply values_nil in Hin. rewrite Hin. now destruct (String.eqb name "set-cookie").
Qed.

Lemma entries_lowercase init base :
  HeaderList.fill init = Some base ->
  Forall (fun entry => Js.toLowerCase entry.1 = entry.1) (HeaderList.entries base).
Proof.
  intros Hfill. rewrite (fill_spec _ _ Hfill). apply List.Forall_forall.
  intros [key value] Hin. unfold HeaderList.entries in Hin. apply in_flat_map in Hin.
  destruct Hin as (n & Hn & Hentry). rewrite names_In in Hn.
  assert (Hkey : key = n).
  { pose proof (entries_keys
                  (map (fun entry => (Js.toLowerCase entry.1, HeaderList.strip entry.2)) init) n)
      as Hkeys.
    rewrite List.Forall_forall in Hkeys. exact (Hkeys _ Hentry). }
  subst key. simpl. rewrite map_map in Hn. apply in_map_iff in Hn as (entry & <- & _).
  simpl. apply toLowerCase_idem.
Qed.

End HeaderListFacts.

(** ** Merging base headers *)

Section CheckedMergeFacts.
Context `{RuntimeChecks}.

Lemma fill_accepts init :
  acceptable_headers init = true <-> exists base, HeaderList.fill init = Some base.
Proof.
  induction init as [|entry rest IH]; simpl; [split; eauto|].
  unfold HeaderList.normalize. rewrite andb_true_iff, IH.
  destruct (HeaderList.valid_name entry.1 && HeaderList.valid_value (HeaderList.strip entry.2)).
  - split.
    + intros [_ [base ->]]. eauto.
    + destruct (HeaderList.fill rest) as [filled|]; [eauto|intros [? ?]; discriminate].
  - split; [intros [? _]; discriminate|intros [? ?]; discriminate].
Qed.

Lemma fill_refuses init : acceptable_headers init = false <-> HeaderList.fill init = None.
Proof.
  pose proof (fill_accepts init) as Haccepts.
  destruct (acceptable_headers init), (HeaderList.fill init) as [base|];
    split; try easy; intros _; exfalso.
  - destruct (proj1 Haccepts eq_refl) as [? ?]. discriminate.
  - assert (false = true) by (apply Haccepts; eauto). discriminate.
Qed.

Lemma add_missing_get response entry name :
  Js.toLowerCase entry.1 = entry.1 ->
  Headers.get (headers (Checked.add_missing response entry)) name
  = match Headers.get (headers response) name with
    | Some value => Some value
    | None => if String.eqb entry.1 (Js.toLowerCase name) then Some entry.2 else None
    end.
Proof.
  intros Hlower. unfold Checked.add_missing, Headers.has, Headers.get, Headers.set.
  rewrite Hlower.
  destruct (headers response !! entry.1) as [present|] eqn:Hpresent.
  - rewrite bool_decide_eq_true_2 by eauto. cbn [negb].
    destruct (headers response !! Js.toLowerCase name) as [value|] eqn:Hname; [reflexivity|].
    destruct (String.eqb_spec entry.1 (Js.toLowerCase name)) as [Heq|_]; [|reflexivity].
    congruence.
  - rewrite bool_decide_eq_false_2 by (intros [? ?]; discriminate). cbn [negb headers].
    destruct (String.eqb_spec entry.1 (Js.toLowerCase name)) as [Heq|Hne].
    + rewrite <- Heq, lookup_insert_eq, Hpresent. reflexivity.
    + rewrite lookup_insert_ne by exact Hne.
      now destruct (headers response !! Js.toLowerCase name).
Qed.

Lemma fold_add_missing entries : forall response,
  Forall (fun entry => Js.toLowerCase entry.1 = entry.1) entries ->
  status (fold_left Checked.add_missing entries response) = status response
  /\ body (fold_left Checked.add_missing entries response) = body response
  /\ forall name,
       Headers.get (headers (fold_left Checked.add_missing entries response)) name
       = match Headers.get (headers response) name with
         | Some value => Some value
         | None => object_get entries (Js.toLowerCase name)
         end.
Proof.
  induction entries as [|entry rest IH]; intros response Hlower; simpl.
  - repeat split. intros name. now destruct (Headers.get (headers response) name).
  - inversion Hlower as [|? ? Hentry Hrest]; subst.
    destruct (IH (Checked.add_missing response entry) Hrest) as (Hstatus & Hbody & Hget).
    split; [|split].
    + rewrite Hstatus. unfold Checked.add_missing. now destruct (negb _).
    + rewrite Hbody. unfold Checked.add_missing. now destruct (negb _).
    + intros name. rewrite Hget, (add_missing_get _ _ _ Hentry).
      destruct entry as [key value]. simpl.
      destruct (Headers.get (headers response) name); [reflexivity|].
      now destruct (String.eqb key (Js.toLowerCase name)).
Qed.

(** What [new Headers] returns, and when. *)
Lemma Headers_new_spec init :
  if accepted (Some init)
  then exists base,
         HeaderList.fill init = Some base /\ Checked.Headers_new init = Return base
  else Checked.Headers_new init = Throw (TypeError (headers_error_message init)).
Proof.
  unfold accepted, Checked.Headers_new.
  assert (Hhost : existsb (fun entry => Checked.refused_value entry.2) init
                  = negb (forallb (fun entry =>
                                     HeaderList.every HeaderList.is_ascii entry.2
                                     || negb (Headers_refuses_value entry.2)) init)).
  { induction init as [|entry rest IH]; [reflexivity|]. simpl. rewrite IH.
    unfold Checked.refused_value.
    destruct (HeaderList.every HeaderList.is_ascii entry.2), (Headers_refuses_value entry.2);
      reflexivity. }
  rewrite Hhost. destruct (acceptable_headers init) eqn:Hok.
  - destruct (proj1 (fill_accepts init) Hok) as [base Hfill]. rewrite Hfill. simpl.
    destruct (forallb _ init); simpl; eauto.
  - apply fill_refuses in Hok. now rewrite Hok.
Qed.

(** What [applyBaseHeaders] returns, and when. *)
Lemma applyBaseHeaders_returns response baseHeaders :
  if accepted baseHeaders
  then exists merged,
         Checked.applyBaseHeaders response baseHeaders = Return merged
         /\ merged_with baseHeaders response merged
  else exists init,
         baseHeaders = Some init
         /\ Checked.applyBaseHeaders response baseHeaders
            = Throw (TypeError (headers_error_message init)).
Proof.
  destruct baseHeaders as [init|]; [|simpl].
  - pose proof (Headers_new_spec init) as Hnew.
    destruct (accepted (Some init)) eqn:Hok.
    + destruct Hnew as (base & Hfill & Hnew).
      unfold Checked.applyBaseHeaders. rewrite Hnew. simpl.
      eexists. split; [reflexivity|].
      destruct (fold_add_missing (HeaderList.entries base) response
                  (entries_lowercase _ _ Hfill)) as (Hstatus & Hbody & Hget).
      split; [exact Hstatus|]. split; [exact Hbody|]. split; [|split].
      * intros name value Hname. now rewrite Hget, Hname.
      * intros name Hcookie Hname. rewrite Hget, Hname, entries_get.
        destruct (String.eqb_spec (Js.toLowerCase name) "set-cookie"); [contradiction|].
        change (base_value_of (Some init) name) with (base_value init name).
        rewrite <- (get_filled _ _ name Hfill). reflexivity.
      * intros Hname. rewrite Hget, Hname, entries_get.
        change (Js.toLowerCase "set-cookie") with "set-cookie". cbn [String.eqb].
        change (base_value_of (Some init) "set-cookie") with (base_value init "set-cookie").
        rewrite <- (get_filled _ _ "set-cookie" Hfill). unfold HeaderList.get.
        change (Js.toLowerCase "set-cookie") with "set-cookie".
        destruct (HeaderList.values base "set-cookie"); simpl; split; intros [? ?];
          try discriminate; eauto.
    + exists init. split; [reflexivity|].
      unfold Checked.applyBaseHeaders. now rewrite Hnew.
  - exists response. split; [reflexivity|].
    split; [reflexivity|]. split; [reflexivity|]. split; [auto|]. split.
    + intros name _ Hname. exact Hname.
    + intros Hname. rewrite Hname. reflexivity.
Qed.

Lemma applyBaseHeaders_accepted response baseHeaders :
  accepted baseHeaders = true ->
  exists merged,
    Checked.applyBaseHeaders response baseHeaders = Return merged
    /\ merged_with baseHeaders response merged.
Proof.
  intros Hok. pose proof (applyBaseHeaders_returns response baseHeaders) as Hret.
  now rewrite Hok in Hret.
Qed.

Lemma applyBaseHeaders_refused response baseHeaders :
  accepted baseHeaders = false ->
  exists message, Checked.applyBaseHeaders response baseHeaders = Throw (TypeError message).
Proof.
  intros Hok. pose proof (applyBaseHeaders_returns response baseHeaders) as Hret.
  rewrite Hok in Hret. destruct Hret as (init & _ & Hthrow). eauto.
Qed.

End CheckedMergeFacts.

(** ** Normalisation and the error boundary with the checks of the runtime *)

Section CheckedBoundaryFacts.
Context `{RuntimeChecks}.

Lemma normaliseResponse_steps (result : JsValue) (baseHeaders : option HeadersInit) :
  Checked.normaliseResponse result baseHeaders
  = match result with
    | VObject o =>
        if JSON_refuses o then Throw (TypeError (json_error_message o))
        else Checked.applyBaseHeaders (normalised_by_variant result) baseHeaders
    | _ => Checked.applyBaseHeaders (normalised_by_variant result) baseHeaders
    end.
Proof.
  rewrite <- normaliseResponse_unmerged.
  destruct result as [| | | | |[]| |data|o| |]; try reflexivity.
  unfold Checked.normaliseResponse, Checked.Response_json. simpl.
  now destruct (JSON_refuses o).
Qed.

Lemma normaliseResponse_serialisable (result : JsValue) (baseHeaders : option HeadersInit) :
  serialisable result = true ->
  Checked.normaliseResponse result baseHeaders
  = Checked.applyBaseHeaders (normalised_by_variant result) baseHeaders.
Proof.
  intros Hok. rewrite normaliseResponse_steps.
  destruct result as [| | | | | | | |o| |]; try reflexivity.
  simpl in Hok. apply negb_true_iff in Hok. now rewrite Hok.
Qed.

(** C6, as the code has it.  For a base-header configuration that
    [new Headers] accepts, a pre-built response comes out of the
    normalisation with its status, its body and every header it had, and
    with the value the configuration gives to each name it lacked ([Set-Cookie]:
    with the name, when the configuration has it).  A configuration that
    [new Headers] refuses makes the normalisation throw a [TypeError]. *)
Theorem prebuilt_response_gains_accepted_base_headers
    (prebuilt : Response) (baseHeaders : option HeadersInit) :
  (accepted baseHeaders = true ->
   exists response,
     Checked.normaliseResponse (VResponse prebuilt) baseHeaders = Return response
     /\ merged_with baseHeaders prebuilt response)
  /\ (accepted baseHeaders = false ->
      exists message,
        Checked.normaliseResponse (VResponse prebuilt) baseHeaders = Throw (TypeError message)).
Proof.
  split; intros Hok.
  - exact (applyBaseHeaders_accepted prebuilt baseHeaders Hok).
  - exact (applyBaseHeaders_refused prebuilt baseHeaders Hok).
Qed.

(** C2, as the code has it.  Normalisation returns a response exactly
    for a result [Response.json] does not refuse and base headers
    [new Headers] accepts, and throws a [TypeError] otherwise.  The
    response it returns is the one the rules give for that kind of value,
    with the base headers merged in: a response passes through; [null] and
    [undefined] give status 204 and no body; a string is the text body; a
    number, a boolean or a bigint is printed into the text body; a
    binary-like value is the body and the normaliser names no content type
    for it; any other object is serialised as JSON with content type
    [application/json], which no base header replaces. *)
Theorem normaliseResponse_by_variant_when_it_returns
    (result : JsValue) (baseHeaders : option HeadersInit) :
  ((exists response, Checked.normaliseResponse result baseHeaders = Return response)
   <-> serialisable result = true /\ accepted baseHeaders = true)
  /\ (forall error,
        Checked.normaliseResponse result baseHeaders = Throw error ->
        exists message, error = TypeError message)
  /\ forall response,
       Checked.normaliseResponse result baseHeaders = Return response ->
       merged_with baseHeaders (normalised_by_variant result) response
       /\ match result with
          | VResponse prebuilt => merged_with baseHeaders prebuilt response
          | VNull | VUndefined => status response = 204 /\ body response = BodyNull
          | VString s => status response = 200 /\ body response = BodyText s
          | VNumber n => body response = BodyText (Number_toString n)
          | VBoolean b => body response = BodyText (if b then "true" else "false")
          | VBigInt n => body response = BodyText (BigInt_toString n)
          | VBinary data =>
              body response = BodyBinary data
              /\ Headers.get (headers response) "content-type"
                 = match recorded_content_type (BodyBinary data) with
                   | Some own => Some own
                   | None => base_value_of baseHeaders "content-type"
                   end
          | VObject o =>
              status response = 200
              /\ body response = BodyText (JSON_stringify o)
              /\ Headers.get (headers response) "content-type"
                 = Some ("application/json" +:+ json_content_type_parameters)
          | VFunction _ | VSymbol _ => True
          end.
Proof.
  assert (Hreturned : forall response,
            Checked.normaliseResponse result baseHeaders = Return response ->
            serialisable result = true /\ accepted baseHeaders = true
            /\ merged_with baseHeaders (normalised_by_variant result) response).
  { intros response Hreturn.
    assert (Hserial : serialisable result = true).
    { rewrite normaliseResponse_steps in Hreturn.
      destruct result as [| | | | | | | |o| |]; try reflexivity.
      simpl. now destruct (JSON_refuses o). }
    rewrite (normaliseResponse_serialisable _ _ Hserial) in Hreturn.
    pose proof (applyBaseHeaders_returns (normalised_by_variant result) baseHeaders) as Hmerge.
    destruct (accepted baseHeaders).
    - destruct Hmerge as (merged & Hmerged & Hspec). rewrite Hmerged in Hreturn.
      injection Hreturn as <-. auto.
    - destruct Hmerge as (init & _ & Hthrow). rewrite Hthrow in Hreturn. discriminate. }
  split; [|split].
  - split.
    + intros [response Hreturn]. destruct (Hreturned response Hreturn) as (? & ? & _). auto.
    + intros [Hserial Hok]. rewrite (normaliseResponse_serialisable _ _ Hserial).
      destruct (applyBaseHeaders_accepted (normalised_by_variant result) baseHeaders Hok)
        as (merged & Hmerged & _). eauto.
  - intros error Hthrow. rewrite normaliseResponse_steps in Hthrow.
    assert (Hmerge : forall response,
              Checked.applyBaseHeaders response baseHeaders = Throw error ->
              exists message, error = TypeError message).
    { intros response Hmerge.
      pose proof (applyBaseHeaders_returns response baseHeaders) as Hret.
      destruct (accepted baseHeaders).
      - destruct Hret as (merged & Hmerged & _). rewrite Hmerged in Hmerge. discriminate.
      - destruct Hret as (init & _ & Hrefused). rewrite Hrefused in Hmerge.
        injection Hmerge as <-. eauto. }
    destruct result as [| | | | | | | |o| |]; try (now apply (Hmerge _ Hthrow)).
    destruct (JSON_refuses o); [|now apply (Hmerge _ Hthrow)].
    injection Hthrow as <-. eauto.
  - intros response Hreturn. destruct (Hreturned response Hreturn) as (_ & _ & Hmerged).
    split; [exact Hmerged|].
    pose proof Hmerged as (Hstatus & Hbody & Hkept & Hadded & _).
    destruct result as [| | | | | |prebuilt|data|o| |]; try exact I;
      try (split; [exact Hstatus|exact Hbody]); try exact Hbody.
    + exact Hmerged.
    + split; [exact Hbody|].
      cbv [normalised_by_variant headers] in Hkept, Hadded.
      pose proof (implicit_headers_get (BodyBinary data)) as Hown.
      destruct (recorded_content_type (BodyBinary data)) as [own|].
      * now apply Hkept.
      * apply Hadded; [discriminate|exact Hown].
    + split; [exact Hstatus|]. split; [exact Hbody|].
      apply Hkept. cbv [normalised_by_variant headers]. unfold Headers.get.
      change (Js.toLowerCase "content-type") with "content-type".
      apply lookup_singleton_eq.
Qed.

(** C5, as the code has it.  When a handler throws and [new Headers]
    accepts the base headers, the handler's exception does not leave the
    boundary: the answer is the response of the error hook with the base
    headers merged in (its status kept, 555 for a hook that answers 555),
    or the generic 500 with the base headers merged in when the hook
    throws, returns nothing or is absent.  When [new Headers] refuses the
    base headers, the merge in the [catch] block throws and the boundary
    ends in a [TypeError]. *)
Theorem thrown_error_is_recovered_under_accepted_headers
    (handler : Handler) (request : Request) (locals : list (string * JsValue))
    (baseHeaders : option HeadersInit) (onError : option ErrorHook) (error : JsError) :
  handler (createContext request locals) = Throw error ->
  (accepted baseHeaders = true ->
   exists response,
     Checked.executeHandler handler request locals baseHeaders onError = Return response
     /\ match onError with
        | Some hook =>
            match hook error (createContext request locals) with
            | Return (Some result) => merged_with baseHeaders result response
            | Return None | Throw _ =>
                merged_with baseHeaders
                  (Response_new (BodyText "Internal Server Error") (Some 500) None) response
            end
        | None =>
            merged_with baseHeaders
              (Response_new (BodyText "Internal Server Error") (Some 500) None) response
        end)
  /\ (accepted baseHeaders = false ->
      exists message,
        Checked.executeHandler handler request locals baseHeaders onError
        = Throw (TypeError message)).
Proof.
  intros Hthrow. unfold Checked.executeHandler. rewrite Hthrow. cbn [mbind Outcome_bind].
  unfold Checked.handleError, Checked.internalServerError.
  split; intros Hok.
  - destruct (applyBaseHeaders_accepted
                (Response_new (BodyText "Internal Server Error") (Some 500) None)
                baseHeaders Hok) as (generic & Hgeneric & Hgeneric_spec).
    destruct onError as [hook|]; cbn [mbind Outcome_bind].
    + destruct (hook error (createContext request locals)) as [[result|]|secondary];
        cbn [mbind Outcome_bind].
      * destruct (applyBaseHeaders_accepted result baseHeaders Hok)
          as (merged & Hmerged & Hmerged_spec).
        rewrite Hmerged. cbn [mbind Outcome_bind]. eauto.
      * rewrite Hgeneric. eauto.
      * rewrite Hgeneric. cbn [mbind Outcome_bind]. eauto.
    + rewrite Hgeneric. eauto.
  - destruct (applyBaseHeaders_refused
                (Response_new (BodyText "Internal Server Error") (Some 500) None)
                baseHeaders Hok) as (message & Hrefused).
    destruct onError as [hook|]; cbn [mbind Outcome_bind].
    + destruct (hook error (createContext request locals)) as [[result|]|secondary];
        cbn [mbind Outcome_bind].
      * destruct (applyBaseHeaders_refused result baseHeaders Hok) as (first & Hfirst).
        rewrite Hfirst. cbn [mbind Outcome_bind]. rewrite Hrefused.
        cbn [mbind Outcome_bind]. eauto.
      * rewrite Hrefused. eauto.
      * rewrite Hrefused. cbn [mbind Outcome_bind]. eauto.
    + rewrite Hrefused. eauto.
Qed.

End CheckedBoundaryFacts.

(** [{ n: 1n }] is an object, and [Response.json] refuses it: the
    normalisation throws and returns no response. *)
Lemma normaliseResponse_is_not_total :
  Checked.normaliseResponse (H0 := example_data_checks)
    (VObject (H := example_data_runtime) [("n", FieldBigInt 1)]) None
  = Throw (TypeError "JSON.stringify cannot serialize BigInt.")
  /\ ~ exists response,
         Checked.normaliseResponse (H0 := example_data_checks)
           (VObject (H := example_data_runtime) [("n", FieldBigInt 1)]) None
         = Return response.
Proof. split; [reflexivity|]. intros [response Hreturn]. discriminate. Qed.

(** A pre-built response and the base headers [{ "bad name": "v" }]: the
    normalisation throws and returns no response. *)
Lemma prebuilt_response_with_refused_base_headers :
  Checked.normaliseResponse (H0 := example_checks) (VResponse (example_response "ok"))
    (Some [("bad name", "v")])
  = Throw (TypeError "Invalid header")
  /\ ~ exists response,
         Checked.normaliseResponse (H0 := example_checks) (VResponse (example_response "ok"))
           (Some [("bad name", "v")])
         = Return response.
Proof. split; [reflexivity|]. intros [response Hreturn]. discriminate. Qed.

(** A handler that throws, no error hook and the base headers
    [{ "bad name": "v" }]: the boundary ends in a [TypeError], and no 500
    is produced. *)
Lemma throwing_handler_with_refused_base_headers :
  example_failing_handler (createContext (example_request "GET" "/boom") localsFactory)
  = Throw (Error "boom")
  /\ Checked.executeHandler (H0 := example_checks) example_failing_handler
       (example_request "GET" "/boom") localsFactory (Some [("bad name", "v")]) None
     = Throw (TypeError "Invalid header")
  /\ ~ exists response,
         Checked.executeHandler (H0 := example_checks) example_failing_handler
           (example_request "GET" "/boom") localsFactory (Some [("bad name", "v")]) None
         = Return response.
Proof.
  split; [reflexivity|]. split; [reflexivity|]. intros [response Hreturn]. discriminate.
Qed.

(** Of two [Set-Cookie] base headers the merge adds the first alone. *)
Example repeated_set_cookie_is_added_once :
  exists response,
    Checked.applyBaseHeaders (H0 := example_checks) (example_response "ok")
      (Some [("Set-Cookie", "a=1"); ("Set-Cookie", "b=2")])
    = Return response
    /\ Headers.get (headers response) "Set-Cookie" = Some "a=1"
    /\ base_value [("Set-Cookie", "a=1"); ("Set-Cookie", "b=2")] "Set-Cookie"
       = Some "a=1, b=2".
Proof. eexists. split; [reflexivity|]. split; reflexivity. Qed.

(** A response with a content type of its own, and base headers that
    name another content type and a header the response lacks. *)
Lemma prebuilt_response_gains_accepted_base_headers_witness :
  accepted (H0 := example_checks) (Some [("Content-Type", "text/plain"); ("X-Powered-By", " hyperbun ")]) = true
  /\ exists response,
       Checked.normaliseResponse (H0 := example_checks)
         (VResponse {| status := 201;
                       headers := {["content-type" := "application/json"]};
                       body := BodyText "made" |})
         (Some [("Content-Type", "text/plain"); ("X-Powered-By", " hyperbun ")])
       = Return response
       /\ status response = 201
       /\ Headers.get (headers response) "Content-Type" = Some "application/json"
       /\ Headers.get (headers response) "X-Powered-By" = Some "hyperbun".
Proof.
  split; [reflexivity|].
  destruct (proj1 (prebuilt_response_gains_accepted_base_headers (H0 := example_checks)
                     {| status := 201;
                        headers := {["content-type" := "application/json"]};
                        body := BodyText "made" |}
                     (Some [("Content-Type", "text/plain"); ("X-Powered-By", " hyperbun ")]))
              eq_refl)
    as (response & Hreturn & Hstatus & _ & Hkept & Hadded & _).
  exists response. split; [exact Hreturn|]. split; [exact Hstatus|].
  split; [apply Hkept; reflexivity|].
  rewrite (Hadded "X-Powered-By"); [reflexivity|discriminate|reflexivity].
Defined.

(** A handler that throws, with a hook that returns a response of status
    555 and accepted base headers: the final status is 555. *)
Lemma thrown_error_is_recovered_under_accepted_headers_witness :
  example_failing_handler (createContext (example_request "GET" "/boom") localsFactory)
  = Throw (Error "boom")
  /\ accepted (H0 := example_checks) (Some [("X-Powered-By", "hyperbun")]) = true
  /\ exists response,
       Checked.executeHandler (H0 := example_checks) example_failing_handler
         (example_request "GET" "/boom") localsFactory (Some [("X-Powered-By", "hyperbun")])
         (Some example_hook)
       = Return response
       /\ status response = 555
       /\ Headers.get (headers response) "X-Powered-By" = Some "hyperbun".
Proof.
  split; [reflexivity|]. split; [reflexivity|].
  destruct (proj1 (thrown_error_is_recovered_under_accepted_headers (H0 := example_checks)
                     example_failing_handler (example_request "GET" "/boom") localsFactory
                     (Some [("X-Powered-By", "hyperbun")]) (Some example_hook) (Error "boom")
                     eq_refl)
              eq_refl)
    as (response & Hreturn & Hstatus & _ & _ & Hadded & _).
  exists response. split; [exact Hreturn|]. split; [exact Hstatus|].
  rewrite (Hadded "X-Powered-By"); [reflexivity|discriminate|reflexivity].
Defined.

(** ** Merging base headers more than once, with the checks of the runtime *)

Section CheckedMergeAgain.
Context `{RuntimeChecks}.

Lemma applyBaseHeaders_Return response init merged :
  Checked.applyBaseHeaders response (Some init) = Return merged ->
  exists base,
    HeaderList.fill init = Some base
    /\ Checked.Headers_new init = Return base
    /\ merged = fold_left Checked.add_missing (HeaderList.entries base) response.
Proof.
  unfold Checked.applyBaseHeaders, Checked.Headers_new.
  destruct (HeaderList.fill init) as [base|]; simpl; [|discriminate].
  destruct (existsb _ init); simpl; [discriminate|].
  intros [= <-]. eauto.
Qed.

Lemma applyBaseHeaders_Return_accepted response baseHeaders merged :
  Checked.applyBaseHeaders response baseHeaders = Return merged ->
  accepted baseHeaders = true.
Proof.
  intros Hreturn. pose proof (applyBaseHeaders_returns response baseHeaders) as Hret.
  destruct (accepted baseHeaders); [reflexivity|].
  destruct Hret as (init & _ & Hthrow). rewrite Hthrow in Hreturn. discriminate.
Qed.

Lemma object_get_present {V} (entries : list (string * V)) key value :
  In (key, value) entries -> is_Some (object_get entries key).
Proof.
  induction entries as [|[k v] rest IH]; [easy|]. simpl. intros [[= -> ->]|Hin].
  - rewrite String.eqb_refl. eauto.
  - destruct (String.eqb k key); [eauto|now apply IH].
Qed.

Lemma fold_add_missing_present entries : forall response,
  Forall (fun entry => Headers.has (headers response) entry.1 = true) entries ->
  fold_left Checked.add_missing entries response = response.
Proof.
  induction entries as [|entry rest IH]; intros response Hall; [reflexivity|].
  inversion Hall as [|? ? Hentry Hrest]; subst. simpl.
  unfold Checked.add_missing at 2. rewrite Hentry. cbn [negb]. now apply IH.
Qed.

(** Two merges that returned. *)
Lemma applyBaseHeaders_twice_returned
    (response once twice : Response) (first second : option HeadersInit) :
  Checked.applyBaseHeaders response first = Return once ->
  Checked.applyBaseHeaders once second = Return twice ->
  Checked.applyBaseHeaders once first = Return once
  /\ status twice = status response
  /\ body twice = body response
  /\ (forall name value,
        Headers.get (headers response) name = Some value ->
        Headers.get (headers twice) name = Some value)
  /\ forall name,
       Js.toLowerCase name <> "set-cookie" ->
       Headers.get (headers twice) name
       = match Headers.get (headers response) name with
         | Some value => Some value
         | None =>
             match base_value_of first name with
             | Some value => Some value
             | None => base_value_of second name
             end
         end.
Proof.
  intros Hfirst Hsecond.
  pose proof (applyBaseHeaders_returns response first) as Hone.
  rewrite (applyBaseHeaders_Return_accepted _ _ _ Hfirst), Hfirst in Hone.
  destruct Hone as (once' & [= <-] & Hstatus1 & Hbody1 & Hkept1 & Hadded1 & _).
  pose proof (applyBaseHeaders_returns once second) as Htwo.
  rewrite (applyBaseHeaders_Return_accepted _ _ _ Hsecond), Hsecond in Htwo.
  destruct Htwo as (twice' & [= <-] & Hstatus2 & Hbody2 & Hkept2 & Hadded2 & _).
  split; [|split; [congruence|split; [congruence|split]]].
  - destruct first as [init|]; [|reflexivity].
    destruct (applyBaseHeaders_Return _ _ _ Hfirst) as (base & Hfill & Hnew & Honce).
    unfold Checked.applyBaseHeaders. rewrite Hnew. simpl.
    f_equal. apply fold_add_missing_present. apply List.Forall_forall.
    intros [key value] Hin.
    pose proof (entries_lowercase _ _ Hfill) as Hlower.
    rewrite List.Forall_forall in Hlower. specialize (Hlower _ Hin). simpl in Hlower.
    destruct (fold_add_missing (HeaderList.entries base) response
                (entries_lowercase _ _ Hfill)) as (_ & _ & Hget).
    unfold Headers.has. apply bool_decide_eq_true_2.
    change (is_Some (Headers.get (headers once) key)).
    rewrite Honce, Hget, Hlower.
    destruct (Headers.get (headers response) key); [eauto|].
    exact (object_get_present _ _ _ Hin).
  - intros name value Hname. apply Hkept2. now apply Hkept1.
  - intros name Hcookie.
    destruct (Headers.get (headers response) name) as [value|] eqn:Hname.
    + apply Hkept2. now apply Hkept1.
    + pose proof (Hadded1 name Hcookie Hname) as Hone.
      destruct (base_value_of first name) as [value|].
      * now apply Hkept2.
      * now apply Hadded2.
Qed.

(** X4. With base headers [new Headers] accepts, both of two merges
    return.  Merging the same base headers a second time changes nothing,
    and a second merge with other base headers keeps what the first left:
    after two merges the status, the body and the headers of the response
    are kept, a name the response lacked has the value of the first base
    headers, and a name both lacked has the value of the second
    ([Set-Cookie] aside, of whose several values a merge adds one). *)
Theorem applyBaseHeaders_twice
    (response : Response) (first second : option HeadersInit) :
  accepted first = true ->
  accepted second = true ->
  exists once twice,
    Checked.applyBaseHeaders response first = Return once
    /\ Checked.applyBaseHeaders once second = Return twice
    /\ Checked.applyBaseHeaders once first = Return once
    /\ status twice = status response
    /\ body twice = body response
    /\ (forall name value,
          Headers.get (headers response) name = Some value ->
          Headers.get (headers twice) name = Some value)
    /\ forall name,
         Js.toLowerCase name <> "set-cookie" ->
         Headers.get (headers twice) name
         = match Headers.get (headers response) name with
           | Some value => Some value
           | None =>
               match base_value_of first name with
               | Some value => Some value
               | None => base_value_of second name
               end
           end.
Proof.
  intros Hfirst Hsecond.
  destruct (applyBaseHeaders_accepted response first Hfirst) as (once & Honce & _).
  destruct (applyBaseHeaders_accepted once second Hsecond) as (twice & Htwice & _).
  exists once, twice. split; [exact Honce|]. split; [exact Htwice|].
  exact (applyBaseHeaders_twice_returned response once twice first second Honce Htwice).
Qed.

End CheckedMergeAgain.

(** Two merges: the first base headers win over the second. *)
Lemma applyBaseHeaders_twice_witness :
  accepted (H0 := example_checks) (Some [("X-Frame-Options", "DENY")]) = true
  /\ accepted (H0 := example_checks) (Some [("X-Frame-Options", "SAMEORIGIN"); ("X-Powered-By", "hyperbun")]) = true
  /\ exists once twice,
       Checked.applyBaseHeaders (H0 := example_checks) (example_response "ok")
         (Some [("X-Frame-Options", "DENY")]) = Return once
       /\ Checked.applyBaseHeaders (H0 := example_checks) once
            (Some [("X-Frame-Options", "SAMEORIGIN"); ("X-Powered-By", "hyperbun")])
          = Return twice
       /\ Headers.get (headers twice) "X-Frame-Options" = Some "DENY"
       /\ Headers.get (headers twice) "X-Powered-By" = Some "hyperbun".
Proof.
  split; [reflexivity|]. split; [reflexivity|].
  destruct (applyBaseHeaders_twice (H0 := example_checks) (example_response "ok")
              (Some [("X-Frame-Options", "DENY")])
              (Some [("X-Frame-Options", "SAMEORIGIN"); ("X-Powered-By", "hyperbun")])
              eq_refl eq_refl)
    as (once & twice & Honce & Htwice & _ & _ & _ & _ & Hlookup).
  exists once, twice. split; [exact Honce|]. split; [exact Htwice|]. split.
  - rewrite (Hlookup "X-Frame-Options") by discriminate. reflexivity.
  - rewrite (Hlookup "X-Powered-By") by discriminate. reflexivity.
Defined.

(** ** Method tables, with the upper-casing of the runtime *)

Section CheckedTableFacts.
Context `{RuntimeChecks}.

Lemma checked_key_recognised acc key value :
  recognised_verb key = true ->
  exists acc',
    Checked.normalise_key acc key value = Return acc'
    /\ (Forall (fun verb => verb ∈ METHODS) (allowed acc) ->
        Forall (fun verb => verb ∈ METHODS) (allowed acc')).
Proof.
  unfold recognised_verb, Checked.normalise_key. intros Hrec.
  destruct (String.eqb (String_toUpperCase key) "ALL") eqn:Hall.
  - destruct value; eexists; split; try reflexivity; auto.
  - simpl in Hrec. rewrite Hrec. destruct value; eexists; split; try reflexivity; auto.
    cbn [allowed]. intros Hallowed. unfold set_add.
    destruct (bool_decide (String_toUpperCase key ∈ allowed acc)); [exact Hallowed|].
    apply Forall_app. split; [exact Hallowed|]. constructor; [|constructor].
    now apply bool_decide_eq_true_1 in Hrec.
Qed.

Lemma checked_key_unrecognised acc key value :
  recognised_verb key = false ->
  exists message, Checked.normalise_key acc key value = Throw (TypeError message).
Proof.
  unfold recognised_verb, Checked.normalise_key. intros Hrec.
  apply orb_false_iff in Hrec as [-> ->]. eauto.
Qed.

Lemma checked_keys_recognised entry : forall acc,
  forallb (fun kv => recognised_verb kv.1) entry = true ->
  exists table,
    Checked.normalise_keys entry acc = Return table
    /\ (Forall (fun verb => verb ∈ METHODS) (allowed acc) ->
        Forall (fun verb => verb ∈ METHODS) (allowed table)).
Proof.
  induction entry as [|[key value] rest IH]; intros acc Hall; simpl in *.
  - exists acc. split; [reflexivity|auto].
  - apply andb_true_iff in Hall as [Hkey Hrest].
    destruct (checked_key_recognised acc key value Hkey) as (acc' & -> & Hverbs). simpl.
    destruct (IH acc' Hrest) as (table & Hrun & Hverbs'). exists table. split; auto.
Qed.

Lemma checked_keys_unrecognised entry : forall acc key value,
  In (key, value) entry -> recognised_verb key = false ->
  exists message, Checked.normalise_keys entry acc = Throw (TypeError message).
Proof.
  induction entry as [|[k v] rest IH]; intros acc key value Hin Hrec; [easy|].
  simpl. destruct (recognised_verb k) eqn:Hk.
  - destruct (checked_key_recognised acc k v Hk) as (acc' & -> & _). simpl.
    destruct Hin as [Heq|Hin]; [congruence|]. eapply IH; eauto.
  - destruct (checked_key_unrecognised acc k v Hk) as [message ->]. simpl. eauto.
Qed.

Lemma checked_keys_returns entry acc table :
  Checked.normalise_keys entry acc = Return table ->
  forallb (fun kv => recognised_verb kv.1) entry = true.
Proof.
  intros Hrun. destruct (forallb _ entry) eqn:Hall; [reflexivity|]. exfalso.
  apply not_true_iff_false in Hall. apply Hall. apply List.forallb_forall.
  intros [key value] Hin. simpl. destruct (recognised_verb key) eqn:Hkey; [reflexivity|].
  destruct (checked_keys_unrecognised entry acc key value Hin Hkey) as [message Hthrow].
  rewrite Hthrow in Hrun. discriminate.
Qed.

(** [createRouteHandler] returns a handler exactly for the entries it
    accepts, and throws a [TypeError] for the others. *)
Lemma checked_createRouteHandler entry pattern baseHeaders onError :
  if accepted_entry entry
  then exists handler,
         Checked.createRouteHandler entry pattern baseHeaders onError = Return handler
  else exists message,
         Checked.createRouteHandler entry pattern baseHeaders onError
         = Throw (TypeError message).
Proof.
  destruct entry as [handler|table|response|]; cbn [accepted_entry]; simpl; eauto.
  unfold Checked.normaliseMethodTable.
  destruct (forallb (fun kv => recognised_verb kv.1) table) eqn:Hall.
  - destruct (checked_keys_recognised table {| methods := ∅; allowed := [] |} Hall)
      as (normalised & -> & _). simpl. eauto.
  - destruct (Checked.normalise_keys table _) as [normalised|e] eqn:Hrun.
    + apply checked_keys_returns in Hrun. congruence.
    + assert (Hbad : exists key value, In (key, value) table /\ recognised_verb key = false).
      { clear Hrun. induction table as [|[key value] rest IH]; [discriminate|].
        simpl in Hall. destruct (recognised_verb key) eqn:Hkey.
        - destruct (IH Hall) as (k & v & Hin & Hk). exists k, v. split; [now right|exact Hk].
        - exists key, value. split; [now left|exact Hkey]. }
      destruct Hbad as (key & value & Hin & Hkey).
      destruct (checked_keys_unrecognised table {| methods := ∅; allowed := [] |} key value
                  Hin Hkey) as [message Hthrow].
      rewrite Hthrow in Hrun. injection Hrun as <-. simpl. eauto.
Qed.

Lemma checked_mapRoutes_loop baseHeaders onError table : forall acc,
  if forallb (fun route => accepted_entry route.2) table
  then exists mapped, Checked.mapRoutes_loop table baseHeaders onError acc = Return mapped
  else exists message,
         Checked.mapRoutes_loop table baseHeaders onError acc = Throw (TypeError message).
Proof.
  induction table as [|[pattern entry] rest IH]; intros acc; simpl; [eauto|].
  pose proof (checked_createRouteHandler entry pattern baseHeaders onError) as Hentry.
  destruct (accepted_entry entry); simpl.
  - destruct Hentry as [handler ->]. simpl. apply IH.
  - destruct Hentry as [message ->]. simpl. eauto.
Qed.

(** C7. A route table with a method table that has a key whose
    upper-case form is neither a verb of [METHODS] nor the wildcard makes
    [createServer] throw a [TypeError]: no server is made, so the error
    belongs to setup and to no request.  The upper-case form is the one
    [toUpperCase] gives, so a key such as the long-s spelling of [post],
    which it maps to [POST], is the verb and not an unknown key. *)
Theorem unknown_method_key_fails_createServer
    (options : HyperServerOptions) (table : RouteTable) (pattern : string)
    (entry : MethodTable) (key : string) (value : option Target) :
  routes options = Some table ->
  In (pattern, EntryTable entry) table ->
  In (key, value) entry ->
  recognised_verb key = false ->
  (exists message, Checked.createServer options = Throw (TypeError message))
  /\ ~ exists server, Checked.createServer options = Return server.
Proof.
  intros Hroutes Hentry Hkey Hunknown.
  assert (Hbad : forallb (fun route => accepted_entry route.2) table = false).
  { apply not_true_iff_false. intros Hall. rewrite List.forallb_forall in Hall.
    specialize (Hall _ Hentry). cbn [snd accepted_entry] in Hall.
    rewrite List.forallb_forall in Hall. specialize (Hall _ Hkey). simpl in Hall. congruence. }
  pose proof (checked_mapRoutes_loop (baseHeaders options) (onError options) table []) as Hmap.
  rewrite Hbad in Hmap. destruct Hmap as [message Hmap].
  assert (Hthrow : Checked.createServer options = Throw (TypeError message)).
  { unfold Checked.createServer, Checked.mapRoutes. rewrite Hroutes. simpl. now rewrite Hmap. }
  split; [eauto|]. intros [server Hserver]. congruence.
Qed.

(** X6. [createServer] returns a server exactly when every entry of the
    route table is a handler, a response or a method table whose keys all
    have a verb or the wildcard as their upper-case form; nothing else in
    the options (static directories, the not-found entry, the hooks, the
    base headers) can make it throw, [Bun.serve] itself aside. *)
Theorem createServer_succeeds_iff (options : HyperServerOptions) :
  (exists server, Checked.createServer options = Return server)
  <-> match routes options with
      | Some table => forallb (fun route => accepted_entry route.2) table = true
      | None => True
      end.
Proof.
  unfold Checked.createServer, Checked.mapRoutes.
  destruct (routes options) as [table|]; simpl; [|split; eauto].
  pose proof (checked_mapRoutes_loop (baseHeaders options) (onError options) table []) as Hmap.
  destruct (forallb (fun route => accepted_entry route.2) table).
  - destruct Hmap as [mapped ->]. simpl. split; eauto.
  - destruct Hmap as [message ->]. simpl. split; [intros [? ?]|]; discriminate.
Qed.

End CheckedTableFacts.

(** The method table [{ FETCH: undefined }] stops [createServer]. *)
Lemma unknown_method_key_fails_createServer_witness :
  recognised_verb (H0 := example_checks) "FETCH" = false
  /\ (exists message,
        Checked.createServer (H0 := example_checks) example_unknown_key_options
        = Throw (TypeError message))
  /\ ~ exists server,
         Checked.createServer (H0 := example_checks) example_unknown_key_options
         = Return server.
Proof.
  split; [reflexivity|].
  exact (unknown_method_key_fails_createServer (H0 := example_checks)
           example_unknown_key_options
           [("/resource", EntryTable example_unknown_key_table)] "/resource"
           example_unknown_key_table "FETCH" None
           eq_refl (or_introl eq_refl) (or_introl eq_refl) eq_refl).
Defined.

(** The long-s spelling of [post] is the verb [POST]: a method table with
    that key is accepted, and [createServer] returns a server. *)
Example long_s_key_is_a_verb :
  recognised_verb (H0 := example_checks) ("po" +:+ long_s +:+ "t") = true
  /\ exists server,
       Checked.createServer (H0 := example_checks)
         {| routes := Some [("/resource",
                             EntryTable [("po" +:+ long_s +:+ "t",
                                          Some (TargetResponse (example_response "ok")))])];
            static := [];
            notFound := None;
            onError := None;
            baseHeaders := None |}
       = Return server.
Proof.
  split; [reflexivity|]. eexists. reflexivity.
Qed.

(** ** The exceptions that reach the runtime, with the runtime's checks *)

Section CheckedServerFacts.
Context `{RuntimeChecks}.

Lemma checked_createStaticHandler_steps config request baseHeaders :
  Checked.createStaticHandler config request baseHeaders
  = if negb (String.eqb (method request) "GET") && negb (String.eqb (method request) "HEAD")
    then Return None
    else
      match static_relative config (pathname request) with
      | None => Return None
      | Some relative =>
        match decodeURIComponent relative with
        | None => Throw (URIError (uri_error_message relative))
        | Some decoded =>
          match resolveStaticPath (Path.resolve cwd [dir config]) decoded
                  (default "index.html" (index config)) with
          | None => Return None
          | Some targetPath =>
            if negb (file_exists targetPath) then Return None
            else
              base ← Checked.Headers_new (default [] baseHeaders);
              Return (Some (Response_new
                              (if String.eqb (method request) "HEAD"
                               then BodyNull else BodyFile targetPath)
                              (Some 200)
                              (Some (static_headers config targetPath (Some base)))))
          end
        end
      end.
Proof.
  unfold Checked.createStaticHandler, static_relative, static_prefix, static_headers,
    HeaderList.to_map.
  destruct (negb (String.eqb (method request) "GET") && negb (String.eqb (method request) "HEAD"));
    [reflexivity|].
  assert (Hserve : forall relative : string,
    match decodeURIComponent relative with
    | None => Throw (URIError (uri_error_message relative))
    | Some decoded =>
      match resolveStaticPath (Path.resolve cwd [dir config]) decoded
              (default "index.html" (index config)) with
      | None => Return None
      | Some targetPath =>
        if negb (file_exists targetPath) then Return None
        else
          base ← Checked.Headers_new (default [] baseHeaders);
          (let headers := Headers.create base in
           let headers :=
             if negb (String.eqb (file_type targetPath) "")
             then Headers.set headers "Content-Type" (file_type targetPath) else headers in
           let headers :=
             match maxAge config with
             | Some age =>
                 Headers.set headers "Cache-Control"
                   ("public, max-age=" +:+ Number_toString (Math_max_0 age))
             | None => headers
             end in
           let headers := Headers.set headers "Content-Length" (file_size targetPath) in
           if String.eqb (method request) "HEAD"
           then Return (Some (Response_new BodyNull (Some 200) (Some headers)))
           else Return (Some (Response_new (BodyFile targetPath) (Some 200) (Some headers))))
      end
    end
    = match decodeURIComponent relative with
      | None => Throw (URIError (uri_error_message relative))
      | Some decoded =>
        match resolveStaticPath (Path.resolve cwd [dir config]) decoded
                (default "index.html" (index config)) with
        | None => Return None
        | Some targetPath =>
          if negb (file_exists targetPath) then Return None
          else
            base ← Checked.Headers_new (default [] baseHeaders);
            Return (Some (Response_new
                            (if String.eqb (method request) "HEAD"
                             then BodyNull else BodyFile targetPath)
                            (Some 200)
                            (Some (Headers.set
                                     (match maxAge config with
                                      | Some age =>
                                          Headers.set
                                            (if negb (String.eqb (file_type targetPath) "")
                                             then Headers.set (Headers.create (default [] (Some base)))
                                                    "Content-Type" (file_type targetPath)
                                             else Headers.create (default [] (Some base)))
                                            "Cache-Control"
                                            ("public, max-age=" +:+ Number_toString (Math_max_0 age))
                                      | None =>
                                          if negb (String.eqb (file_type targetPath) "")
                                          then Headers.set (Headers.create (default [] (Some base)))
                                                 "Content-Type" (file_type targetPath)
                                          else Headers.create (default [] (Some base))
                                      end)
                                     "Content-Length" (file_size targetPath)))))
        end
      end).
  { intros relative. destruct (decodeURIComponent relative) as [decoded|]; [|reflexivity].
    destruct (resolveStaticPath _ decoded _) as [targetPath|]; [|reflexivity].
    destruct (negb (file_exists targetPath)); [reflexivity|].
    destruct (Checked.Headers_new _) as [base|e]; [|reflexivity]. simpl.
    now destruct (String.eqb (method request) "HEAD"). }
  destruct (String.eqb (sanitisePrefix (default "/" (prefix config))) "/").
  - apply Hserve.
  - destruct (Js.startsWith _ _); [apply Hserve|].
    destruct (String.eqb (pathname request) _); [apply Hserve|reflexivity].
Qed.

Lemma every_app class a b :
  HeaderList.every class (a +:+ b) = HeaderList.every class a && HeaderList.every class b.
Proof. induction a as [|c a IH]; simpl; [reflexivity|]. now rewrite IH, andb_assoc. Qed.

Lemma every_strip_start class s :
  HeaderList.every class s = true ->
  HeaderList.every class (HeaderList.strip_start s) = true.
Proof.
  induction s as [|c s IH]; simpl; [easy|]. intros Hall.
  apply andb_true_iff in Hall as [Hc Hs].
  destruct (HeaderList.is_whitespace c); [now apply IH|]. simpl. now rewrite Hc, Hs.
Qed.

Lemma every_strip_end class s :
  HeaderList.every class s = true ->
  HeaderList.every class (HeaderList.strip_end s) = true.
Proof.
  induction s as [|c s IH]; simpl; [easy|]. intros Hall.
  apply andb_true_iff in Hall as [Hc Hs]. specialize (IH Hs).
  destruct (HeaderList.strip_end s) as [|d kept].
  - destruct (HeaderList.is_whitespace c); simpl; [reflexivity|now rewrite Hc].
  - change (class c && HeaderList.every class (String d kept) = true). now rewrite Hc, IH.
Qed.

Lemma every_join class sep parts :
  HeaderList.every class sep = true ->
  Forall (fun part => HeaderList.every class part = true) parts ->
  HeaderList.every class (Js.join sep parts) = true.
Proof.
  intros Hsep. induction 1 as [|part rest Hpart Hrest IH]; [reflexivity|].
  destruct rest as [|next rest]; [exact Hpart|].
  change (Js.join sep (part :: next :: rest)) with (part +:+ sep +:+ Js.join sep (next :: rest)).
  now rewrite !every_app, Hpart, Hsep, IH.
Qed.

(** The [Allow] header of a method table is one [new Headers] accepts. *)
Lemma allow_header_accepted verbs :
  Forall (fun verb => verb ∈ METHODS) verbs ->
  exists allow, Checked.Headers_new [("Allow", Js.join ", " verbs)] = Return allow.
Proof.
  intros Hverbs. unfold Checked.Headers_new. cbn [HeaderList.fill HeaderList.normalize fst snd].
  assert (Hvalue : HeaderList.valid_value (HeaderList.strip (Js.join ", " verbs)) = true).
  { unfold HeaderList.valid_value, HeaderList.strip.
    apply every_strip_end, every_strip_start, every_join; [reflexivity|].
    eapply Forall_impl; [exact Hverbs|]. intros verb Hverb. cbv beta in Hverb.
    unfold METHODS in Hverb. repeat (apply elem_of_cons in Hverb as [->|Hverb]; [reflexivity|]).
    now apply elem_of_nil in Hverb. }
  assert (Hascii : HeaderList.every HeaderList.is_ascii (Js.join ", " verbs) = true).
  { apply every_join; [reflexivity|].
    eapply Forall_impl; [exact Hverbs|]. intros verb Hverb. cbv beta in Hverb.
    unfold METHODS in Hverb. repeat (apply elem_of_cons in Hverb as [->|Hverb]; [reflexivity|]).
    now apply elem_of_nil in Hverb. }
  unfold HeaderList.normalize. cbn [fst snd]. rewrite Hvalue.
  change (HeaderList.valid_name "Allow") with true. cbn [andb existsb snd].
  unfold Checked.refused_value. rewrite Hascii. simpl. eauto.
Qed.

Lemma checked_applyBaseHeaders_throw response baseHeaders error :
  Checked.applyBaseHeaders response baseHeaders = Throw error ->
  refused_base_headers baseHeaders error.
Proof.
  intros Hthrow. pose proof (applyBaseHeaders_returns response baseHeaders) as Hret.
  destruct (accepted baseHeaders) eqn:Hok.
  - destruct Hret as (merged & Hmerged & _). congruence.
  - destruct Hret as (init & -> & Hrefused). exists init. split; [reflexivity|].
    split; [exact Hok|congruence].
Qed.

Lemma checked_handleError_throw hook error ctx baseHeaders thrown :
  Checked.handleError hook error ctx baseHeaders = Throw thrown ->
  refused_base_headers baseHeaders thrown.
Proof.
  unfold Checked.handleError, Checked.internalServerError.
  destruct (hook error ctx) as [[result|]|secondary]; simpl.
  - destruct (Checked.applyBaseHeaders result baseHeaders) as [merged|e]; simpl; [discriminate|].
    destruct (Checked.applyBaseHeaders _ baseHeaders) as [response|e'] eqn:Hlast; simpl;
      [discriminate|]. intros [= <-]. exact (checked_applyBaseHeaders_throw _ _ _ Hlast).
  - discriminate.
  - destruct (Checked.applyBaseHeaders _ baseHeaders) as [response|e'] eqn:Hlast; simpl;
      [discriminate|]. intros [= <-]. exact (checked_applyBaseHeaders_throw _ _ _ Hlast).
Qed.

Lemma checked_recovery_throw onError error ctx baseHeaders thrown :
  (recovery ← match onError with
              | Some hook => Checked.handleError hook error ctx baseHeaders
              | None => Return None
              end;
   match recovery with
   | Some recovery => Return recovery
   | None => Checked.internalServerError baseHeaders
   end) = Throw thrown ->
  refused_base_headers baseHeaders thrown.
Proof.
  destruct onError as [hook|]; simpl.
  - destruct (Checked.handleError hook error ctx baseHeaders) as [[recovery|]|e] eqn:Hhook; simpl.
    + discriminate.
    + apply checked_applyBaseHeaders_throw.
    + intros [= <-]. exact (checked_handleError_throw _ _ _ _ _ Hhook).
  - apply checked_applyBaseHeaders_throw.
Qed.

Lemma checked_executeHandler_throw handler request locals baseHeaders onError thrown :
  Checked.executeHandler handler request locals baseHeaders onError = Throw thrown ->
  refused_base_headers baseHeaders thrown.
Proof.
  unfold Checked.executeHandler.
  destruct (result ← handler (createContext request locals);
            Checked.normaliseResponse result baseHeaders) as [response|error];
    [discriminate|apply checked_recovery_throw].
Qed.

Lemma checked_cloneResponse_throw response baseHeaders thrown :
  Checked.cloneResponse response baseHeaders = Throw thrown ->
  refused_base_headers baseHeaders thrown.
Proof.
  unfold Checked.cloneResponse.
  destruct (Checked.applyBaseHeaders response baseHeaders) as [merged|e]; [discriminate|].
  apply checked_applyBaseHeaders_throw.
Qed.

Lemma checked_methodNotAllowed_throw verbs baseHeaders thrown :
  Forall (fun verb => verb ∈ METHODS) verbs ->
  Checked.methodNotAllowed (Js.join ", " verbs) baseHeaders = Throw thrown ->
  refused_base_headers baseHeaders thrown.
Proof.
  intros Hverbs. unfold Checked.methodNotAllowed.
  destruct (String.eqb (Js.join ", " verbs) ""); simpl.
  - apply checked_applyBaseHeaders_throw.
  - destruct (allow_header_accepted verbs Hverbs) as [allow ->]. simpl.
    apply checked_applyBaseHeaders_throw.
Qed.

(** A route handler throws only the error of refused base headers. *)
Lemma checked_createRouteHandler_throw entry pattern baseHeaders onError handler request thrown :
  Checked.createRouteHandler entry pattern baseHeaders onError = Return handler ->
  handler request = Throw thrown ->
  refused_base_headers baseHeaders thrown.
Proof.
  destruct entry as [fn|table|response|]; simpl.
  - intros [= <-]. apply checked_executeHandler_throw.
  - unfold Checked.normaliseMethodTable.
    destruct (Checked.normalise_keys table _) as [normalised|e] eqn:Hkeys; simpl; [|discriminate].
    intros [= <-].
    assert (Hverbs : Forall (fun verb => verb ∈ METHODS) (allowed normalised)).
    { pose proof (checked_keys_returns _ _ _ Hkeys) as Hall.
      destruct (checked_keys_recognised table {| methods := ∅; allowed := [] |} Hall)
        as (again & Hagain & Hinv).
      rewrite Hkeys in Hagain. injection Hagain as <-. apply Hinv. constructor. }
    destruct (select_target normalised _) as [[selected|selected]|].
    + apply checked_executeHandler_throw.
    + apply checked_cloneResponse_throw.
    + now apply checked_methodNotAllowed_throw.
  - intros [= <-]. apply checked_cloneResponse_throw.
  - discriminate.
Qed.

Lemma checked_createStaticHandler_throw config request baseHeaders thrown :
  Checked.createStaticHandler config request baseHeaders = Throw thrown ->
  refused_base_headers baseHeaders thrown \/ undecodable_static_path config request thrown.
Proof.
  rewrite checked_createStaticHandler_steps.
  destruct (negb (String.eqb (method request) "GET")
            && negb (String.eqb (method request) "HEAD")) eqn:Hverb; [discriminate|].
  assert (Hmethod : method request = "GET" \/ method request = "HEAD").
  { apply andb_false_iff in Hverb as [Hget|Hhead]; [left|right];
      apply String.eqb_eq; now apply negb_false_iff. }
  destruct (static_relative config (pathname request)) as [relative|] eqn:Hrelative;
    [|discriminate].
  destruct (decodeURIComponent relative) as [decoded|] eqn:Hdecode.
  - destruct (resolveStaticPath _ decoded _) as [targetPath|]; [|discriminate].
    destruct (negb (file_exists targetPath)); [discriminate|].
    destruct baseHeaders as [init|]; [|discriminate]. cbn [default from_option id].
    pose proof (Headers_new_spec init) as Hnew.
    destruct (accepted (Some init)) eqn:Hok.
    + destruct Hnew as (base & _ & ->). discriminate.
    + rewrite Hnew. intros [= <-]. left. exists init. auto.
  - intros [= <-]. right. split; [exact Hmethod|]. exists relative. auto.
Qed.

Lemma checked_try_static_throw_inv configs : forall request baseHeaders error,
  try_static (map Checked.createStaticHandler configs) request baseHeaders = Throw error ->
  exists before config after,
    configs = before ++ config :: after
    /\ Forall (fun earlier =>
                 Checked.createStaticHandler earlier request baseHeaders = Return None)
         before
    /\ Checked.createStaticHandler config request baseHeaders = Throw error.
Proof.
  induction configs as [|config configs IH]; intros request baseHeaders error; simpl;
    [discriminate|].
  destruct (Checked.createStaticHandler config request baseHeaders) as [[response|]|e]
    eqn:Hconfig; simpl.
  - discriminate.
  - intros Hrest. destruct (IH _ _ _ Hrest) as (before & thrower & after & -> & Hnone & Hthrow).
    exists (config :: before), thrower, after. split; [reflexivity|].
    split; [now constructor|exact Hthrow].
  - intros [= <-]. exists [], config, configs. split; [reflexivity|].
    split; [constructor|exact Hconfig].
Qed.

Lemma checked_resolveEntry_throw_recovered entry ctx baseHeaders onError thrown :
  match Checked.resolveEntry entry ctx baseHeaders with
  | Return response => Return response
  | Throw error =>
      recovery ← match onError with
                 | Some hook => Checked.handleError hook error ctx baseHeaders
                 | None => Return None
                 end;
      match recovery with
      | Some recovery => Return recovery
      | None => Checked.internalServerError baseHeaders
      end
  end = Throw thrown ->
  refused_base_headers baseHeaders thrown.
Proof.
  destruct (Checked.resolveEntry entry ctx baseHeaders) as [response|error];
    [discriminate|apply checked_recovery_throw].
Qed.

Lemma checked_fetchHandler_throw_inv handlers notFound onError baseHeaders request thrown :
  Checked.fetchHandler handlers notFound onError baseHeaders request = Throw thrown ->
  refused_base_headers baseHeaders thrown
  \/ try_static handlers request baseHeaders = Throw thrown.
Proof.
  unfold Checked.fetchHandler.
  destruct (try_static handlers request baseHeaders) as [[response|]|e]; simpl.
  - discriminate.
  - intros Hthrow. left. destruct notFound as [entry|].
    + exact (checked_resolveEntry_throw_recovered _ _ _ _ _ Hthrow).
    + exact (checked_applyBaseHeaders_throw _ _ _ Hthrow).
  - intros [= <-]. now right.
Qed.

Lemma checked_mapRoutes_loop_handlers baseHeaders onError table : forall acc mapped,
  Checked.mapRoutes_loop table baseHeaders onError acc = Return mapped ->
  NoDup (map fst acc ++ map fst table) ->
  exists made,
    mapped = acc ++ made
    /\ Forall2 (fun route made =>
                  route.1 = made.1
                  /\ Checked.createRouteHandler route.2 route.1 baseHeaders onError
                     = Return made.2)
         table made.
Proof.
  induction table as [|[pattern entry] rest IH]; intros acc mapped; simpl.
  - intros [= <-] _. exists []. split; [now rewrite app_nil_r|constructor].
  - destruct (Checked.createRouteHandler entry pattern baseHeaders onError) as [handler|e]
      eqn:Hmake; simpl; [|discriminate].
    intros Hrun Hnd.
    assert (Hfresh : ~ In pattern (map fst acc)).
    { apply NoDup_app in Hnd as (_ & Hdisj & _). intros Hin.
      apply (Hdisj pattern); [now apply list_elem_of_In|]. now left. }
    rewrite (object_set_fresh _ _ _ Hfresh) in Hrun.
    destruct (IH _ _ Hrun) as (made & -> & Hmade).
    { rewrite map_app. simpl. now rewrite <- app_assoc. }
    exists ((pattern, handler) :: made). split; [now rewrite <- app_assoc|].
    constructor; [easy|assumption].
Qed.

(** A created server hands each request to the runtime's router first
    and to [fetchHandler] only when no route is selected. *)
Lemma checked_createServer_serves options server request :
  Checked.createServer options = Return server ->
  distinct_patterns options ->
  match route_selected options request with
  | Some (pattern, entry) =>
      exists handler,
        Checked.createRouteHandler entry pattern (baseHeaders options) (onError options)
        = Return handler
        /\ server request = handler request
  | None =>
      server request
      = Checked.fetchHandler (Checked.buildStaticHandlers (static options)) (notFound options)
          (onError options) (baseHeaders options) request
  end.
Proof.
  unfold Checked.createServer, distinct_patterns, route_selected.
  destruct (routes options) as [table|]; simpl.
  - unfold Checked.mapRoutes.
    destruct (Checked.mapRoutes_loop table (baseHeaders options) (onError options) [])
      as [mapped|e] eqn:Hmap; simpl; [|discriminate].
    intros [= <-] Hnd.
    destruct (checked_mapRoutes_loop_handlers _ _ _ _ _ Hmap Hnd) as (made & -> & Hmade).
    simpl. unfold Bun_serve.
    assert (Hpatterns : map fst made = map fst table).
    { clear -Hmade. induction Hmade as [|[p e] [p' h] ? ? [Hp _] _ IH]; simpl in *; congruence. }
    rewrite Hpatterns.
    destruct (select_route (map fst table) (pathname request)) as [pattern|]; [|reflexivity].
    assert (Hget : match object_get table pattern with
                   | Some entry =>
                       exists handler,
                         object_get made pattern = Some handler
                         /\ Checked.createRouteHandler entry pattern (baseHeaders options)
                              (onError options) = Return handler
                   | None => object_get made pattern = None
                   end).
    { clear -Hmade. induction Hmade as [|[p e] [p' h] ? ? [Hp Hmake] _ IH]; simpl in *;
        [reflexivity|].
      subst p'. destruct (String.eqb_spec p pattern); [subst; eauto|exact IH]. }
    destruct (object_get table pattern) as [entry|].
    + destruct Hget as (handler & -> & Hmake). eauto.
    + now rewrite Hget.
  - now intros [= <-] _.
Qed.

(** X11. A path under a static prefix that does not percent-decode makes
    the fetch handler fail with the [URIError] that [decodeURIComponent]
    raises for it: when the static handlers before that one miss, a [GET]
    or [HEAD] request for such a path is answered by no response at all,
    whatever the error hook, the not-found entry, the base headers and
    the later static handlers are, as the static handlers run outside
    the error boundary. *)
Theorem malformed_static_path_escapes_the_boundary
    (before after : list StaticConfig) (config : StaticConfig)
    (notFound : option Target) (onError : option ErrorHook)
    (baseHeaders : option HeadersInit) (request : Request) (relative : string) :
  method request = "GET" \/ method request = "HEAD" ->
  Forall (fun earlier =>
            Checked.createStaticHandler earlier request baseHeaders = Return None) before ->
  static_relative config (pathname request) = Some relative ->
  decodeURIComponent relative = None ->
  Checked.fetchHandler (Checked.buildStaticHandlers (before ++ config :: after)) notFound
    onError baseHeaders request
  = Throw (URIError (uri_error_message relative)).
Proof.
  intros Hverb Hbefore Hrelative Hdecode.
  unfold Checked.fetchHandler, Checked.buildStaticHandlers. rewrite map_app. cbn [map].
  erewrite try_static_throw.
  - reflexivity.
  - apply List.Forall_map. exact Hbefore.
  - rewrite checked_createStaticHandler_steps, Hrelative, Hdecode.
    now destruct Hverb as [-> | ->].
Qed.

(** X20. The only exceptions a created server lets through to the
    runtime are the [TypeError] of [new Headers] for base headers it
    refuses and the [URIError] of a static handler: when a request is
    answered by an exception and the base headers are not refused, no
    route was selected for it, the static handlers before some handler
    all missed, and that handler failed to percent-decode the path below
    its prefix.  The errors of route handlers, of the not-found entry and
    of the error hook never reach the runtime. *)
Theorem server_throws_for_refused_headers_or_undecodable_path
    (options : HyperServerOptions) (server : Server) (request : Request) (error : JsError) :
  Checked.createServer options = Return server ->
  distinct_patterns options ->
  server request = Throw error ->
  refused_base_headers (baseHeaders options) error
  \/ (route_selected options request = None
      /\ exists before config after,
           static options = before ++ config :: after
           /\ Forall (fun earlier =>
                        Checked.createStaticHandler earlier request (baseHeaders options)
                        = Return None)
                before
           /\ undecodable_static_path config request error).
Proof.
  intros Hcreate Hdistinct Hthrow.
  pose proof (checked_createServer_serves options server request Hcreate Hdistinct) as Hserves.
  destruct (route_selected options request) as [[pattern entry]|].
  - destruct Hserves as (handler & Hmake & Hrun). left. rewrite Hrun in Hthrow.
    exact (checked_createRouteHandler_throw _ _ _ _ _ _ _ Hmake Hthrow).
  - rewrite Hserves in Hthrow.
    apply checked_fetchHandler_throw_inv in Hthrow as [Hrefused|Hthrow]; [now left|].
    unfold Checked.buildStaticHandlers in Hthrow.
    destruct (checked_try_static_throw_inv _ _ _ _ Hthrow)
      as (before & config & after & Hsplit & Hnone & Hconfig).
    destruct (checked_createStaticHandler_throw _ _ _ _ Hconfig) as [Hrefused|Hpath];
      [now left|right].
    split; [reflexivity|]. now exists before, config, after.
Qed.

End CheckedServerFacts.

(** A path with a broken percent sequence, with an error hook configured. *)
Lemma malformed_static_path_escapes_the_boundary_witness :
  static_relative example_static_config "/%E0%A4%A" = Some "%E0%A4%A"
  /\ decodeURIComponent (HostRuntime := example_runtime) "%E0%A4%A" = None
  /\ Checked.fetchHandler (H0 := example_checks)
       (Checked.buildStaticHandlers (H0 := example_checks) [example_static_config])
       None (Some example_hook) None (example_request "GET" "/%E0%A4%A")
     = Throw (URIError "URI error").
Proof.
  split; [reflexivity|]. split; [reflexivity|].
  exact (malformed_static_path_escapes_the_boundary (H0 := example_checks) [] []
           example_static_config None (Some example_hook) None
           (example_request "GET" "/%E0%A4%A") "%E0%A4%A"
           (or_introl eq_refl) (List.Forall_nil _) eq_refl eq_refl).
Defined.

(** With the example options, a path that does not decode reaches the
    runtime as an exception. *)
Lemma server_throws_for_refused_headers_or_undecodable_path_witness :
  exists server,
    Checked.createServer (H0 := example_checks) example_options = Return server
    /\ distinct_patterns example_options
    /\ server (example_request "GET" "/%E0%A4%A") = Throw (URIError "URI error")
    /\ (refused_base_headers (H0 := example_checks) (baseHeaders example_options)
          (URIError "URI error")
        \/ (route_selected example_options (example_request "GET" "/%E0%A4%A") = None
            /\ exists before config after,
                 static example_options = before ++ config :: after
                 /\ Forall (fun earlier =>
                              Checked.createStaticHandler (H0 := example_checks) earlier
                                (example_request "GET" "/%E0%A4%A")
                                (baseHeaders example_options)
                              = Return None)
                      before
                 /\ undecodable_static_path config
                      (example_request "GET" "/%E0%A4%A") (URIError "URI error"))).
Proof.
  eexists. split; [reflexivity|].
  assert (Hdistinct : distinct_patterns example_options).
  { apply NoDup_cons_2; [apply not_elem_of_nil|apply NoDup_nil_2]. }
  split; [exact Hdistinct|]. split; [reflexivity|].
  exact (server_throws_for_refused_headers_or_undecodable_path (H0 := example_checks)
           example_options _ (example_request "GET" "/%E0%A4%A") (URIError "URI error")
           eq_refl Hdistinct eq_refl).
Defined.

(** With refused base headers, a route that answers with a response
    makes the server throw the [TypeError] of [new Headers]. *)
Example refused_base_headers_reach_the_runtime :
  exists server,
    Checked.createServer (H0 := example_checks)
      {| routes := Some [("/", EntryResponse (example_response "routed"))];
         static := [];
         notFound := None;
         onError := Some example_hook;
         baseHeaders := Some [("bad name", "v")] |}
    = Return server
    /\ server (example_request "GET" "/") = Throw (TypeError "Invalid header").
Proof. eexists. split; reflexivity. Qed.

(** ** The client script and the generated static entry *)

Section ClientScriptFacts.
Context `{RuntimeChecks}.

Lemma has_char_app c a b : Js.has_char c (a +:+ b) = Js.has_char c a || Js.has_char c b.
Proof. induction a as [|d a IH]; simpl; [reflexivity|]. now rewrite IH, orb_assoc. Qed.

Lemma normaliseRelativePath_proper seg : proper seg -> normaliseRelativePath seg = seg.
Proof.
  intros Hseg. unfold normaliseRelativePath.
  rewrite split_no_sep by (now apply proper_inv in Hseg).
  rewrite normalise_fold_clean by (now constructor). reflexivity.
Qed.

(** [path.resolve(root, name)] for a normal root and a plain name. *)
Lemma resolve_child root seg :
  Path.normal root = true -> proper seg ->
  Path.resolve cwd [root; seg] = Path.render (Path.segments root ++ [seg]).
Proof.
  intros Hroot Hseg. apply normal_spec in Hroot as (segs & -> & Hall).
  rewrite (segments_render _ Hall).
  destruct (proper_inv _ Hseg) as (Hne & _ & _ & Hslash).
  unfold Path.resolve. simpl rev. simpl app. cbn [Path.resolve_loop].
  apply String.eqb_neq in Hne. rewrite Hne.
  pose proof (join_proper_not_absolute [seg]) as Hrelative. cbn [Js.join] in Hrelative.
  rewrite Hrelative by (now constructor).
  change (String.eqb (Path.render segs) "") with false.
  change (Path.isAbsolute (Path.render segs)) with true. cbv iota. cbn [negb].
  unfold Path.normalizeString, Path.normalize_segments.
  change (Path.render segs +:+ "/" +:+ seg +:+ "/" +:+ "")
    with (Path.render segs +:+ String "/" (seg +:+ String "/" "")).
  rewrite !split_app_sep, (split_render _ Hall), (split_no_sep _ _ Hslash).
  rewrite normalize_fold_clean.
  - unfold Path.render. f_equal. f_equal. cbn [List.filter String.eqb negb app].
    rewrite List.filter_app. change (Js.split "/" "") with [""].
    cbn [List.filter]. rewrite Hne. cbn [negb String.eqb].
    destruct segs as [|x rest]; [reflexivity|]. now rewrite (filter_proper_id _ Hall).
  - constructor; [now left|]. apply Forall_app. split.
    + destruct segs as [|x rest]; [constructor; [now left|constructor]|].
      eapply Forall_impl; [exact Hall|]. intros; now right.
    + constructor; [now right|]. constructor; [now left|constructor].
Qed.

(** A plain name directly under a normal root is within it unless it
    begins with two dots. *)
Lemma isWithin_child root seg :
  Path.normal root = true -> proper seg ->
  isWithin root (Path.render (Path.segments root ++ [seg])) = negb (Js.startsWith ".." seg).
Proof.
  intros Hroot Hseg.
  destruct (proj1 (normal_spec root) Hroot) as (segs & -> & Hsegs).
  rewrite (segments_render _ Hsegs).
  assert (Hmore : Forall proper [seg]) by (now constructor).
  assert (Hall : Forall proper (segs ++ [seg])) by (apply Forall_app; now split).
  assert (Htarget : Path.normal (Path.render (segs ++ [seg])) = true)
    by (apply normal_spec; eauto).
  assert (Hdiff : String.eqb (Path.render segs) (Path.render (segs ++ [seg])) = false).
  { apply String.eqb_neq. intros Heq. apply (f_equal Path.segments) in Heq.
    rewrite !segments_render in Heq by assumption.
    apply (f_equal (@length string)) in Heq. rewrite length_app in Heq. simpl in Heq. lia. }
  unfold isWithin, Path.relative. rewrite Hdiff.
  rewrite (resolve_normal_id _ _ Hroot), (resolve_normal_id _ _ Htarget), Hdiff.
  rewrite !segments_render by assumption. rewrite strip_common_app.
  cbn [length repeat app].
  rewrite startsWith_dotdot_join by (now apply proper_inv in Hseg).
  rewrite (join_proper_not_absolute _ Hmore). apply andb_true_r.
Qed.

Lemma client_script_name_proper name :
  Js.has_char "/" name = false -> proper (name +:+ ".js").
Proof.
  intros Hslash. apply proper_intro.
  - apply String.eqb_neq. destruct name; discriminate.
  - apply String.eqb_neq. destruct name as [|a [|b name]]; discriminate.
  - apply String.eqb_neq. destruct name as [|a [|b [|c name]]]; discriminate.
  - now rewrite has_char_app, Hslash.
Qed.

Lemma Headers_new_accepted baseHeaders :
  accepted baseHeaders = true ->
  exists base, Checked.Headers_new (default [] baseHeaders) = Return base.
Proof.
  destruct baseHeaders as [init|]; [|cbn; eauto]. intros Hok.
  pose proof (Headers_new_spec init) as Hnew. rewrite Hok in Hnew.
  destruct Hnew as (base & _ & Hnew). cbn [default from_option id]. eauto.
Qed.

(** X14. After a successful preparation the static entries are the
    user's, in their order, followed by one generated entry for the public
    directory, and the static handler made from that entry serves the
    script address handed to the pages: when the client file name is a
    plain name (no slash, no percent sign, not beginning with two dots once
    [.js] is added), the bundle [<clientFileName>.js] is in the public
    directory and the base headers are accepted, a [GET] request whose
    path is the script address is answered with status 200 and that file,
    whatever slashes the configured public prefix begins or ends with. *)
Theorem prepared_script_is_served_from_public_directory
    (input : PrepareJSXInput) (result : JSXPreparationResult)
    (baseHeaders : option HeadersInit) :
  prepareJSXEnvironment input = Return result ->
  Path.isAbsolute cwd = true ->
  (forall s, Js.has_char "%" s = false -> decodeURIComponent s = Some s) ->
  Js.has_char "%" (clientFileName input) = false ->
  Js.has_char "/" (clientFileName input) = false ->
  Js.startsWith ".." (clientFileName input +:+ ".js") = false ->
  file_exists (client_script_path input) = true ->
  accepted baseHeaders = true ->
  exists generated response,
    staticEntries result = userStatic input ++ [generated]
    /\ dir generated = publicDir input
    /\ Js.startsWith "/" (scriptHref result) = true
    /\ Checked.createStaticHandler generated
         {| method := "GET"; pathname := scriptHref result; params := None |} baseHeaders
       = Return (Some response)
    /\ status response = 200
    /\ body response = BodyFile (client_script_path input).
Proof.
  intros Hprepared Hcwd Hdecode Hpercent Hslash Hdots Hfile Hok.
  destruct (prepared_script_below_generated_prefix input result Hprepared)
    as (generated & relative & Hentries & Hdir & Hstart & Hrelative & Hnorm & Hform).
  destruct (prepareJSXEnvironment_static _ _ Hprepared) as [_ Hstatic].
  rewrite Hstatic in Hentries. apply app_inv_head in Hentries. injection Hentries as Hgenerated.
  pose proof (client_script_name_proper _ Hslash) as Hproper.
  assert (Hroot : Path.normal (Path.resolve cwd [publicDir input]) = true)
    by now apply resolve_normal.
  assert (Hplain : Js.has_char "%" relative = false).
  { destruct Hform as [-> | ->]; cbn [Js.has_char]; rewrite has_char_app, Hpercent; reflexivity. }
  assert (Hresolved :
    resolveStaticPath (Path.resolve cwd [publicDir input]) relative "index.html"
    = Some (client_script_path input)).
  { unfold resolveStaticPath. rewrite Hnorm, (normaliseRelativePath_proper _ Hproper).
    rewrite (resolve_child _ _ Hroot Hproper), (isWithin_child _ _ Hroot Hproper), Hdots.
    cbn [negb]. fold (client_script_path input). now rewrite Hfile. }
  destruct (Headers_new_accepted baseHeaders Hok) as [base Hbase].
  exists generated. eexists. split; [now rewrite Hstatic, Hgenerated|].
  split; [exact Hdir|]. split; [exact Hstart|].
  rewrite checked_createStaticHandler_steps. cbn [method pathname].
  change (negb (String.eqb "GET" "GET") && negb (String.eqb "GET" "HEAD")) with false.
  cbv iota. rewrite Hrelative, (Hdecode _ Hplain).
  rewrite <- Hgenerated. cbn [dir index default from_option id].
  rewrite Hresolved, Hfile, Hbase. cbn [negb]. simpl.
  split; [reflexivity|]. split; reflexivity.
Qed.

End ClientScriptFacts.

(** The example preparation with the prefix written [assets/]: the
    bundle is served at [/assets/hyperbun-client.js]. *)
Lemma prepared_script_is_served_from_public_directory_witness :
  exists result,
    prepareJSXEnvironment example_built_input = Return result
    /\ scriptHref result = "/assets/hyperbun-client.js"
    /\ client_script_path example_built_input = "/srv/app/public/hyperbun-client.js"
    /\ exists generated response,
         staticEntries result = [generated]
         /\ Checked.createStaticHandler (H0 := example_built_checks) generated
              {| method := "GET"; pathname := scriptHref result; params := None |} None
            = Return (Some response)
         /\ status response = 200
         /\ body response = BodyFile "/srv/app/public/hyperbun-client.js".
Proof.
  eexists. split; [reflexivity|]. split; [reflexivity|]. split; [reflexivity|].
  assert (Hdecode : forall s, Js.has_char "%" s = false ->
                      decodeURIComponent (HostRuntime := example_built_runtime) s = Some s).
  { intros s Hs. cbn. now rewrite Hs. }
  destruct (prepared_script_is_served_from_public_directory (H0 := example_built_checks)
              example_built_input _ None eq_refl eq_refl Hdecode eq_refl eq_refl eq_refl
              eq_refl eq_refl)
    as (generated & response & Hentries & _ & _ & Hserved & Hstatus & Hbody).
  exists generated, response. split; [exact Hentries|]. split; [exact Hserved|].
  split; [exact Hstatus|exact Hbody].
Defined.
